(** * List-sharing application: the list service, its client reducer and the
    sign-in lockout, embedded from the TypeScript sources.

    Conventions of the embedding.
    - Timestamps are the milliseconds since the epoch ([Z]) that the ISO
      strings of the source denote ([new Date(s).getTime()]).
    - JS numbers that hold counts are [Z]; [completionPercentage] is an exact
      rational ([Q]) instead of a double.
    - Strings are Rocq byte strings; [trim], [toLowerCase] and the class
      [\s] of the email pattern treat the ASCII range only.
    - [AsyncStorage] is a finite map from keys to the JSON-decoded values;
      reads and writes are assumed to succeed. The storage wrapper catches
      every error of the device store itself, so [saveUserLists] never sees
      one and always returns [true]: the branches of its callers that answer
      with [STORAGE_ERROR], and the [catch] blocks of the operations, are not
      reached and have no counterpart here.
    - One clock reading ([now]) and one identifier supply ([fresh]) are handed
      to every call that reads the clock or calls [generateId]. *)

From Stdlib Require Import ZArith QArith String Ascii List Bool Lia DecimalString Sorted.
From stdpp Require Import base option gmap strings list fin_maps.
Import ListNotations.

Local Open Scope string_scope.
Local Open Scope Z_scope.

(* ===================================================================== *)
(** ** JavaScript helpers on strings and arrays                           *)
(* ===================================================================== *)

Module Js.

(** [\s] restricted to ASCII: space, TAB, LF, VT, FF, CR. *)
Definition isWhitespace (c : ascii) : bool :=
  let n := nat_of_ascii c in
  (n =? 32)%nat || ((9 <=? n)%nat && (n <=? 13)%nat).

Fixpoint trimStart (s : string) : string :=
  match s with
  | EmptyString => EmptyString
  | String c rest => if isWhitespace c then trimStart rest else s
  end.

(** Characters of [s] in reverse order, onto [acc]. *)
Fixpoint revOnto (s acc : string) : string :=
  match s with
  | EmptyString => acc
  | String c rest => revOnto rest (String c acc)
  end.

Definition reverse (s : string) : string := revOnto s EmptyString.

Definition trimEnd (s : string) : string := reverse (trimStart (reverse s)).

(** [String.prototype.trim]. *)
Definition trim (s : string) : string := trimEnd (trimStart s).

Definition lowerChar (c : ascii) : ascii :=
  let n := nat_of_ascii c in
  if ((65 <=? n)%nat && (n <=? 90)%nat)%bool then ascii_of_nat (n + 32) else c.

(** [String.prototype.toLowerCase], ASCII letters only. *)
Fixpoint toLowerCase (s : string) : string :=
  match s with
  | EmptyString => EmptyString
  | String c rest => String (lowerChar c) (toLowerCase rest)
  end.

(** [String.prototype.startsWith]: [startsWith s p] is [s.startsWith(p)]. *)
Definition startsWith (s p : string) : bool := String.prefix p s.

(** [String.prototype.includes]: [includes s p] is [s.includes(p)]. *)
Fixpoint includes (s p : string) : bool :=
  startsWith s p ||
  match s with
  | EmptyString => false
  | String _ rest => includes rest p
  end.

(** The length of a string as a JS number. *)
Definition strlen (s : string) : Z := Z.of_nat (String.length s).

(** A string used as a condition: the empty string is falsy. *)
Definition truthy (s : string) : bool :=
  match s with EmptyString => false | _ => true end.

(** [a < b] on strings: lexicographic on the character codes. *)
Fixpoint strLt (a b : string) : bool :=
  match a, b with
  | _, EmptyString => false
  | EmptyString, String _ _ => true
  | String x a', String y b' =>
      let nx := nat_of_ascii x in
      let ny := nat_of_ascii y in
      if (nx <? ny)%nat then true
      else if (ny <? nx)%nat then false
      else strLt a' b'
  end.

(** [Array.prototype.includes] on an array of strings. *)
Definition arrIncludes (l : list string) (x : string) : bool :=
  existsb (String.eqb x) l.

(** [Array.prototype.findIndex]; [None] stands for the result [-1]. *)
Fixpoint findIndex {A : Type} (p : A -> bool) (l : list A) : option nat :=
  match l with
  | [] => None
  | x :: rest =>
      if p x then Some 0%nat
      else match findIndex p rest with
           | Some i => Some (S i)
           | None => None
           end
  end.

(** [Array.prototype.map] with the index passed to the callback. *)
Fixpoint mapi_from {A B : Type} (i : nat) (f : A -> nat -> B) (l : list A) : list B :=
  match l with
  | [] => []
  | x :: rest => f x i :: mapi_from (S i) f rest
  end.

Definition mapi {A B : Type} (f : A -> nat -> B) (l : list A) : list B :=
  mapi_from 0 f l.

(** [Array.prototype.slice(-n)]: the last [n] elements. *)
Definition sliceLast {A : Type} (n : nat) (l : list A) : list A :=
  skipn (length l - n) l.

(** [Array.prototype.sort] with a comparator, as the stable sort the language
    requires: [gt a b] is "the comparator is positive on (a, b)". Inserting
    from the right, before the first element that is not smaller, keeps the
    relative order of elements that compare equal. *)
Fixpoint sortInsert {A : Type} (gt : A -> A -> bool) (x : A) (l : list A) : list A :=
  match l with
  | [] => [x]
  | y :: rest => if gt x y then y :: sortInsert gt x rest else x :: l
  end.

Definition sort {A : Type} (gt : A -> A -> bool) (l : list A) : list A :=
  fold_right (sortInsert gt) [] l.

End Js.

(* ===================================================================== *)
(** ** Data model (types/index.ts, types/lists.ts, types/auth.ts)         *)
(* ===================================================================== *)

Definition Timestamp := Z.

Record User := mkUser {
  user_id : string;
  user_email : string;
  user_password : string;
  user_name : string;
  user_createdAt : option Timestamp;
}.

Record Task := mkTask {
  task_id : string;
  task_text : string;
  task_completed : bool;
  task_createdAt : option Timestamp;
  task_completedAt : option Timestamp;
}.

Record List := mkList {
  list_id : string;
  list_title : string;
  list_ownerId : string;
  list_sharedWith : list string;
  list_tasks : list Task;
  list_createdAt : Timestamp;
  list_updatedAt : option Timestamp;
}.

Record ListStatistics := mkStats {
  totalTasks : Z;
  completedTasks : Z;
  pendingTasks : Z;
  completionPercentage : Q;
  lastActivity : Timestamp;
}.

(** [ListWithStats extends List]: the list's own fields are kept as [lws_list]. *)
Record ListWithStats := mkLws {
  lws_list : List;
  statistics : ListStatistics;
  isOwner : bool;
  isShared : bool;
  canEdit : bool;
  canDelete : bool;
  canShare : bool;
}.

Inductive SortKey := SortTitle | SortCreatedAt | SortUpdatedAt | SortCompletionPercentage.
Inductive SortOrder := Asc | Desc.

Record ListFilter := mkFilter {
  searchTerm : option string;
  showCompleted : option bool;
  showShared : option bool;
  showOwned : option bool;
  sortBy : option SortKey;
  sortOrder : option SortOrder;
}.

Record CreateListPayload := { cl_title : string; cl_initialTasks : option (list string) }.
Record UpdateListPayload := { ul_title : option string; ul_sharedWith : option (list string) }.
Record CreateTaskPayload := { ct_text : string; ct_listId : string }.
Record UpdateTaskPayload := { ut_text : option string; ut_completed : option bool }.
Record ShareListPayload := { sl_listId : string; sl_userEmail : string }.

(** [ApiResponse<T>]: [{success, data?, error?, message?}]. *)
Record ApiResponse (T : Type) := mkResp {
  success : bool;
  data : option T;
  error : option string;
  message : option string;
}.
Arguments mkResp {T}.
Arguments success {T}.
Arguments data {T}.
Arguments error {T}.
Arguments message {T}.

Definition failure {T : Type} (e : string) : ApiResponse T :=
  mkResp false None (Some e) None.
Definition succeeded {T : Type} (d : option T) (m : string) : ApiResponse T :=
  mkResp true d None (Some m).

Record LoginAttempt := mkAttempt {
  la_email : string;
  la_timestamp : Timestamp;
  la_success : bool;
}.

(** The token of [generateToken]: header and signature carry nothing that is
    read back, the payload is [{sub, iat, exp}]. *)
Record Token := mkToken { tok_sub : string; tok_iat : Z; tok_exp : Z }.

Record SessionData := mkSession {
  sd_token : Token;
  sd_user : User;
  sd_expiresAt : Timestamp;
  sd_lastActivity : Timestamp;
}.

(* ===================================================================== *)
(** ** Constants (utils/constants.ts)                                     *)
(* ===================================================================== *)

Module VALIDATION_RULES.
Definition MIN_PASSWORD_LENGTH : Z := 6.
Definition MAX_PASSWORD_LENGTH : Z := 50.
Definition MIN_NAME_LENGTH : Z := 2.
Definition MAX_NAME_LENGTH : Z := 50.
Definition MAX_EMAIL_LENGTH : Z := 100.
Definition MIN_LIST_TITLE_LENGTH : Z := 1.
Definition MAX_LIST_TITLE_LENGTH : Z := 100.
Definition MIN_TASK_TEXT_LENGTH : Z := 1.
Definition MAX_TASK_TEXT_LENGTH : Z := 200.
Definition MAX_TASKS_PER_LIST : Z := 100.
Definition MAX_SHARED_USERS : Z := 10.
End VALIDATION_RULES.

Module STORAGE_KEYS.
Definition LISTS_PREFIX : string := "lists_".
End STORAGE_KEYS.

Module ERROR_MESSAGES.
Definition REQUIRED_FIELD := "To pole jest wymagane".
Definition INVALID_EMAIL := "Wprowadź prawidłowy adres email".
Definition PASSWORD_TOO_SHORT := "Hasło musi mieć co najmniej 6 znaków".
Definition PASSWORD_TOO_LONG := "Hasło może mieć maksymalnie 50 znaków".
Definition PASSWORDS_NOT_MATCH := "Hasła nie są identyczne".
Definition NAME_TOO_SHORT := "Imię musi mieć co najmniej 2 znaki".
Definition NAME_TOO_LONG := "Imię może mieć maksymalnie 50 znaków".
Definition USER_EXISTS := "Użytkownik z tym emailem już istnieje".
Definition USER_NOT_FOUND := "Użytkownik nie został znaleziony".
Definition INVALID_CREDENTIALS := "Nieprawidłowy email lub hasło".
Definition LIST_TITLE_REQUIRED := "Tytuł listy jest wymagany".
Definition LIST_TITLE_TOO_LONG := "Tytuł listy może mieć maksymalnie 100 znaków".
Definition TASK_TEXT_REQUIRED := "Tekst zadania jest wymagany".
Definition TASK_TEXT_TOO_LONG := "Tekst zadania może mieć maksymalnie 200 znaków".
Definition MAX_TASKS_EXCEEDED := "Lista może zawierać maksymalnie 100 zadań".
Definition MAX_SHARED_USERS_EXCEEDED :=
  "Lista może być udostępniona maksymalnie 10 użytkownikom".
Definition UNKNOWN_ERROR := "Wystąpił nieoczekiwany błąd".
Definition STORAGE_ERROR := "Błąd zapisu danych".
(** The messages the list service writes in place. *)
Definition LIST_NOT_FOUND := "Lista nie została znaleziona".
Definition TASK_NOT_FOUND := "Zadanie nie zostało znalezione".
Definition NO_EDIT_PERMISSION := "Brak uprawnień do edycji tej listy".
Definition NO_VIEW_PERMISSION := "Brak uprawnień do przeglądania tej listy".
Definition ONLY_OWNER_CAN_DELETE := "Tylko właściciel może usunąć listę".
Definition ONLY_OWNER_CAN_SHARE := "Tylko właściciel może udostępnić listę".
Definition SHARE_WITH_SELF := "Nie możesz udostępnić listy samemu sobie".
Definition ALREADY_SHARED := "Lista jest już udostępniona temu użytkownikowi".
Definition LIST_LIMIT := "Osiągnięto maksymalną liczbę list (50)".
(** The message of the sign-in lockout ([lockoutDuration / 60000] is 15). *)
Definition LOCKED_OUT :=
  "Konto zostało zablokowane na 15 minut z powodu zbyt wielu nieudanych prób logowania.".
End ERROR_MESSAGES.

Module SUCCESS_MESSAGES.
Definition LOGIN_SUCCESS := "Zalogowano pomyślnie".
Definition LIST_CREATED := "Lista została utworzona".
Definition LIST_UPDATED := "Lista została zaktualizowana".
Definition LIST_DELETED := "Lista została usunięta".
Definition LIST_SHARED := "Lista została udostępniona".
Definition TASK_ADDED := "Zadanie zostało dodane".
Definition TASK_UPDATED := "Zadanie zostało zaktualizowane".
Definition TASK_DELETED := "Zadanie zostało usunięte".
Definition TASK_COMPLETED := "Zadanie zostało ukończone".
Definition TASK_UNCOMPLETED := "Zadanie zostało oznaczone jako nieukończone".
End SUCCESS_MESSAGES.

(** The three users the directory starts with. *)
Definition initialUsers : list User :=
  [ mkUser "1" "user@example.com" "password123" "Jan Kowalski" (Some 1704067200000);
    mkUser "2" "anna@example.com" "password123" "Anna Nowak" (Some 1704067200000);
    mkUser "3" "test@example.com" "password123" "Test User" (Some 1704067200000) ].

(** [/^[^\s@]+@[^\s@]+\.[^\s@]+$/]: a non-empty local part, one [@], and a
    domain that has a dot with something on both sides; no blank anywhere. *)
Definition plainChar (c : ascii) : bool :=
  negb (Js.isWhitespace c) && negb (Ascii.eqb c "@").

Fixpoint allPlain (s : string) : bool :=
  match s with
  | EmptyString => true
  | String c rest => plainChar c && allPlain rest
  end.

Fixpoint domainMatches (seen : bool) (s : string) : bool :=
  match s with
  | EmptyString => false
  | String c rest =>
      if plainChar c then
        if Ascii.eqb c "." && seen && Js.truthy rest && allPlain rest then true
        else domainMatches true rest
      else false
  end.

Fixpoint emailRegex (seen : bool) (s : string) : bool :=
  match s with
  | EmptyString => false
  | String c rest =>
      if Ascii.eqb c "@" then seen && domainMatches false rest
      else if Js.isWhitespace c then false
      else emailRegex true rest
  end.

Definition isValidEmail (email : string) : bool :=
  emailRegex false email && (Js.strlen email <=? VALIDATION_RULES.MAX_EMAIL_LENGTH).

Definition isValidPassword (password : string) : bool :=
  (VALIDATION_RULES.MIN_PASSWORD_LENGTH <=? Js.strlen password) &&
  (Js.strlen password <=? VALIDATION_RULES.MAX_PASSWORD_LENGTH).

Definition isValidName (name : string) : bool :=
  (VALIDATION_RULES.MIN_NAME_LENGTH <=? Js.strlen (Js.trim name)) &&
  (Js.strlen (Js.trim name) <=? VALIDATION_RULES.MAX_NAME_LENGTH).

Definition isValidListTitle (title : string) : bool :=
  (VALIDATION_RULES.MIN_LIST_TITLE_LENGTH <=? Js.strlen (Js.trim title)) &&
  (Js.strlen (Js.trim title) <=? VALIDATION_RULES.MAX_LIST_TITLE_LENGTH).

Definition isValidTaskText (text : string) : bool :=
  (VALIDATION_RULES.MIN_TASK_TEXT_LENGTH <=? Js.strlen (Js.trim text)) &&
  (Js.strlen (Js.trim text) <=? VALIDATION_RULES.MAX_TASK_TEXT_LENGTH).

(* ===================================================================== *)
(** ** Validation (utils/validation.ts)                                   *)
(* ===================================================================== *)

Record ValidationError := mkVErr { ve_field : string; ve_message : string }.

(** [ValidationResult]; the [errors] dictionary repeats [errorList] and is
    read by forms only. *)
Record ValidationResult := mkVRes { isValid : bool; errorList : list ValidationError }.

Definition validationOf (errs : list ValidationError) : ValidationResult :=
  mkVRes (match errs with [] => true | _ => false end) errs.

Module validators.

Definition email (e : string) : option string :=
  if negb (Js.truthy (Js.trim e)) then Some ERROR_MESSAGES.REQUIRED_FIELD
  else if negb (isValidEmail e) then Some ERROR_MESSAGES.INVALID_EMAIL
  else None.

Definition password (p : string) : option string :=
  if negb (Js.truthy p) then Some ERROR_MESSAGES.REQUIRED_FIELD
  else if negb (isValidPassword p) then
    if Js.strlen p <? VALIDATION_RULES.MIN_PASSWORD_LENGTH
    then Some ERROR_MESSAGES.PASSWORD_TOO_SHORT
    else if VALIDATION_RULES.MAX_PASSWORD_LENGTH <? Js.strlen p
    then Some ERROR_MESSAGES.PASSWORD_TOO_LONG
    else None
  else None.

Definition confirmPassword (p confirm : string) : option string :=
  if negb (Js.truthy confirm) then Some ERROR_MESSAGES.REQUIRED_FIELD
  else if negb (String.eqb p confirm) then Some ERROR_MESSAGES.PASSWORDS_NOT_MATCH
  else None.

Definition name (n : string) : option string :=
  if negb (Js.truthy (Js.trim n)) then Some ERROR_MESSAGES.REQUIRED_FIELD
  else if negb (isValidName n) then
    if Js.strlen (Js.trim n) <? VALIDATION_RULES.MIN_NAME_LENGTH
    then Some ERROR_MESSAGES.NAME_TOO_SHORT
    else if VALIDATION_RULES.MAX_NAME_LENGTH <? Js.strlen (Js.trim n)
    then Some ERROR_MESSAGES.NAME_TOO_LONG
    else None
  else None.

Definition listTitle (title : string) : option string :=
  if negb (Js.truthy (Js.trim title)) then Some ERROR_MESSAGES.LIST_TITLE_REQUIRED
  else if negb (isValidListTitle title) then Some ERROR_MESSAGES.LIST_TITLE_TOO_LONG
  else None.

Definition taskText (text : string) : option string :=
  if negb (Js.truthy (Js.trim text)) then Some ERROR_MESSAGES.TASK_TEXT_REQUIRED
  else if negb (isValidTaskText text) then Some ERROR_MESSAGES.TASK_TEXT_TOO_LONG
  else None.

End validators.

(** [if (err) errorList.push({field, message: err})]. *)
Definition pushError (field : string) (err : option string) : list ValidationError :=
  match err with
  | Some m => if Js.truthy m then [mkVErr field m] else []
  | None => []
  end.

Definition natToString (n : nat) : string := NilEmpty.string_of_uint (Nat.to_uint n).

Module validationSchemas.

Definition login (e p : string) : ValidationResult :=
  validationOf (pushError "email" (validators.email e) ++
                pushError "password" (validators.password p)).

Definition register (n e p confirm : string) : ValidationResult :=
  validationOf (pushError "name" (validators.name n) ++
                pushError "email" (validators.email e) ++
                pushError "password" (validators.password p) ++
                pushError "confirmPassword" (validators.confirmPassword p confirm)).

Definition createList (title : string) (tasks : list string) : ValidationResult :=
  validationOf
    (pushError "title" (validators.listTitle title) ++
     (if VALIDATION_RULES.MAX_TASKS_PER_LIST <? Z.of_nat (length tasks)
      then [mkVErr "tasks" ERROR_MESSAGES.MAX_TASKS_EXCEEDED] else []) ++
     concat (Js.mapi (fun task index =>
                        if Js.truthy (Js.trim task)
                        then pushError ("task_" ++ natToString index) (validators.taskText task)
                        else []) tasks)).

Definition addTask (taskText : string) : ValidationResult :=
  validationOf (pushError "taskText" (validators.taskText taskText)).

Definition shareList (e : string) : ValidationResult :=
  validationOf (pushError "email" (validators.email e)).

End validationSchemas.

(** [validation.errorList[0]?.message || fallback]. *)
Definition firstMessage (v : ValidationResult) (fallback : string) : string :=
  match errorList v with
  | e :: _ => if Js.truthy (ve_message e) then ve_message e else fallback
  | [] => fallback
  end.

(* ===================================================================== *)
(** ** The state the services share                                       *)
(* ===================================================================== *)

(** What a call reads from outside: the clock, and the identifiers
    [generateId] returns during the call, in the order of the calls. *)
Record Env := mkEnv { now : Timestamp; fresh : nat -> string }.

(** - [MOCK_USERS]: the in-memory user directory (a mutable module array);
    - [storage]: the entries of the device store under [lists_<userId>];
    - [session]: the entries [userToken] and [userData], written together;
    - [cache]: [ListService.cache];
    - [loginAttempts]: [AuthService.loginAttempts]. *)
Record World := mkWorld {
  MOCK_USERS : list User;
  storage : gmap string (list List);
  session : option (Token * SessionData);
  cache : gmap string (list ListWithStats);
  loginAttempts : gmap string (list LoginAttempt);
}.

Definition setStorage (w : World) (st : gmap string (list List)) : World :=
  mkWorld (MOCK_USERS w) st (session w) (cache w) (loginAttempts w).
Definition setCache (w : World) (c : gmap string (list ListWithStats)) : World :=
  mkWorld (MOCK_USERS w) (storage w) (session w) c (loginAttempts w).
Definition setSession (w : World) (s : option (Token * SessionData)) : World :=
  mkWorld (MOCK_USERS w) (storage w) s (cache w) (loginAttempts w).
Definition setLoginAttempts (w : World) (a : gmap string (list LoginAttempt)) : World :=
  mkWorld (MOCK_USERS w) (storage w) (session w) (cache w) a.
Definition setUsers (w : World) (us : list User) : World :=
  mkWorld us (storage w) (session w) (cache w) (loginAttempts w).

Definition initialWorld : World := mkWorld initialUsers ∅ None ∅ ∅.

(* ===================================================================== *)
(** ** The list service (services/listService.ts)                         *)
(* ===================================================================== *)

Module ListService.

Definition getUserListsKey (userId : string) : string :=
  STORAGE_KEYS.LISTS_PREFIX ++ userId.

(** [(await storage.getItem<List[]>(this.getUserListsKey(userId))) || []]. *)
Definition storedLists (w : World) (userId : string) : list List :=
  default [] (storage w !! getUserListsKey userId).

Definition countCompleted (tasks : list Task) : Z :=
  Z.of_nat (length (List.filter task_completed tasks)).

Definition percentage (completed total : Z) : Q :=
  if 0 <? total then (inject_Z completed / inject_Z total) * inject_Z 100 else 0%Q.

Definition calculateStatistics (l : List) : ListStatistics :=
  let total := Z.of_nat (length (list_tasks l)) in
  let completed := countCompleted (list_tasks l) in
  let pending := total - completed in
  {| totalTasks := total;
     completedTasks := completed;
     pendingTasks := pending;
     completionPercentage := percentage completed total;
     lastActivity := default (list_createdAt l) (list_updatedAt l) |}.

(** [MOCK_USERS.find((u) => u.id === userId)?.email || null]. *)
Definition getCurrentUserEmail (w : World) (userId : string) : option string :=
  match List.find (fun u => String.eqb (user_id u) userId) (MOCK_USERS w) with
  | Some u => if Js.truthy (user_email u) then Some (user_email u) else None
  | None => None
  end.

Definition canUserEditList (w : World) (l : List) (userId : string) : bool :=
  if String.eqb (list_ownerId l) userId then true
  else match getCurrentUserEmail w userId with
       | Some userEmail => Js.arrIncludes (list_sharedWith l) userEmail
       | None => false
       end.

Record Found := mkFound {
  f_list : List;
  f_ownerId : string;
  f_listIndex : nat;
  f_ownerLists : list List;
}.

(** The predicate of the second pass of [findListById]. *)
Definition sharedMatch (listId currentUserEmail : string) (l : List) : bool :=
  String.eqb (list_id l) listId && Js.arrIncludes (list_sharedWith l) currentUserEmail.

(** [for (const user of MOCK_USERS)] of [findListById], from [users] on. *)
Fixpoint findShared (w : World) (userId listId currentUserEmail : string)
    (users : list User) : option Found :=
  match users with
  | [] => None
  | user :: rest =>
      if negb (String.eqb (user_id user) userId) then
        let userLists := storedLists w (user_id user) in
        match Js.findIndex (sharedMatch listId currentUserEmail) userLists with
        | Some sharedListIndex =>
            match nth_error userLists sharedListIndex with
            | Some l => Some (mkFound l (user_id user) sharedListIndex userLists)
            | None => findShared w userId listId currentUserEmail rest
            end
        | None => findShared w userId listId currentUserEmail rest
        end
      else findShared w userId listId currentUserEmail rest
  end.

Definition findOwned (w : World) (userId listId : string) : option Found :=
  let currentUserLists := storedLists w userId in
  match Js.findIndex (fun l => String.eqb (list_id l) listId) currentUserLists with
  | Some ownedListIndex =>
      match nth_error currentUserLists ownedListIndex with
      | Some l => Some (mkFound l userId ownedListIndex currentUserLists)
      | None => None
      end
  | None => None
  end.

Definition findListById (w : World) (userId listId : string) : option Found :=
  match findOwned w userId listId with
  | Some found => Some found
  | None =>
      match getCurrentUserEmail w userId with
      | None => None
      | Some currentUserEmail =>
          findShared w userId listId currentUserEmail (MOCK_USERS w)
      end
  end.

Definition enrichList (w : World) (l : List) (currentUserId : string) : ListWithStats :=
  let owner := String.eqb (list_ownerId l) currentUserId in
  let isSharedWithCurrentUser :=
    match getCurrentUserEmail w currentUserId with
    | Some currentUserEmail => Js.arrIncludes (list_sharedWith l) currentUserEmail
    | None => false
    end in
  {| lws_list := l;
     statistics := calculateStatistics l;
     isOwner := owner;
     isShared := (0 <? length (list_sharedWith l))%nat;
     canEdit := owner || isSharedWithCurrentUser;
     canDelete := owner;
     canShare := owner |}.

(** [undefined] is falsy. *)
Definition flag (b : option bool) : bool := default false b.

Definition Qltb (a b : Q) : bool :=
  match Qcompare a b with Lt => true | _ => false end.

(** The comparator of [filterLists] is positive on [(a, b)]. *)
Definition sortGt (key : SortKey) (order : option SortOrder) (a b : ListWithStats) : bool :=
  let desc := match order with Some Desc => true | _ => false end in
  let '(lt, gt) :=
    match key with
    | SortTitle =>
        let aValue := Js.toLowerCase (list_title (lws_list a)) in
        let bValue := Js.toLowerCase (list_title (lws_list b)) in
        (Js.strLt aValue bValue, Js.strLt bValue aValue)
    | SortCreatedAt =>
        let aValue := list_createdAt (lws_list a) in
        let bValue := list_createdAt (lws_list b) in
        (aValue <? bValue, bValue <? aValue)
    | SortUpdatedAt =>
        let aValue := default (list_createdAt (lws_list a)) (list_updatedAt (lws_list a)) in
        let bValue := default (list_createdAt (lws_list b)) (list_updatedAt (lws_list b)) in
        (aValue <? bValue, bValue <? aValue)
    | SortCompletionPercentage =>
        let aValue := completionPercentage (statistics a) in
        let bValue := completionPercentage (statistics b) in
        (Qltb aValue bValue, Qltb bValue aValue)
    end in
  if lt then desc else if gt then negb desc else false.

Definition filterLists (lists : list ListWithStats) (f : ListFilter) : list ListWithStats :=
  let filtered := lists in
  let filtered :=
    match searchTerm f with
    | Some raw =>
        if Js.truthy (Js.trim raw) then
          let term := Js.trim (Js.toLowerCase raw) in
          List.filter
            (fun l =>
               Js.includes (Js.toLowerCase (list_title (lws_list l))) term ||
               existsb (fun t => Js.includes (Js.toLowerCase (task_text t)) term)
                       (list_tasks (lws_list l)))
            filtered
        else filtered
    | None => filtered
    end in
  let filtered :=
    match showOwned f, showShared f with
    | None, None => filtered
    | _, _ =>
        List.filter
          (fun l =>
             if flag (showOwned f) && flag (showShared f) then true
             else if flag (showOwned f) && negb (flag (showShared f)) then isOwner l
             else if negb (flag (showOwned f)) && flag (showShared f) then isShared l
             else false)
          filtered
    end in
  let filtered :=
    match showCompleted f with
    | Some false =>
        List.filter (fun l => Qltb (completionPercentage (statistics l)) (inject_Z 100))
                    filtered
    | _ => filtered
    end in
  match sortBy f with
  | Some key => Js.sort (sortGt key (sortOrder f)) filtered
  | None => filtered
  end.

(** [clearCache(userId)]: every key that starts with [userId] is deleted;
    called with a falsy id the whole cache is cleared. *)
Definition clearCache (userId : string) (c : gmap string (list ListWithStats))
    : gmap string (list ListWithStats) :=
  if Js.truthy userId
  then filter (fun kv => Js.startsWith (fst kv) userId = false) c
  else ∅.

(** The emails of [clearCacheForSharedListUsers], in the order the [Set]
    receives them (repeats clear the same keys again). *)
Definition sharedEmails (lists : list List) : list string :=
  concat (List.map list_sharedWith lists).

Definition clearCacheForSharedListUsers (users : list User) (lists : list List)
    (c : gmap string (list ListWithStats)) : gmap string (list ListWithStats) :=
  fold_left
    (fun c email =>
       match List.find (fun u => String.eqb (user_email u) email) users with
       | Some user => clearCache (user_id user) c
       | None => c
       end)
    (sharedEmails lists) c.

(** [saveUserLists]: the write, then the two invalidations. [storage.setItem]
    reports a failed write by its result, which is not read, so the function
    returns [true] on every path. *)
Definition saveUserLists (w : World) (userId : string) (lists : list List) : World :=
  let w1 := setStorage w (<[getUserListsKey userId := lists]> (storage w)) in
  setCache w1 (clearCacheForSharedListUsers (MOCK_USERS w1) lists
                 (clearCache userId (cache w1))).

(** The two example lists a first load writes. *)
Definition sampleLists (env : Env) (userId : string) : list List :=
  [ {| list_id := fresh env 0;
       list_title := "Zakupy spożywcze";
       list_ownerId := userId;
       list_sharedWith := [];
       list_tasks :=
         [ mkTask (fresh env 1) "Mleko" false None None;
           mkTask (fresh env 2) "Chleb" true None None;
           mkTask (fresh env 3) "Jajka" false None None;
           mkTask (fresh env 4) "Masło" false None None ];
       list_createdAt := now env;
       list_updatedAt := None |};
    {| list_id := fresh env 5;
       list_title := "Zadania do wykonania";
       list_ownerId := userId;
       list_sharedWith := ["anna@example.com"];
       list_tasks :=
         [ mkTask (fresh env 6) "Przygotować prezentację" false None None;
           mkTask (fresh env 7) "Zadzwonić do klienta" true None None;
           mkTask (fresh env 8) "Wysłać raport" false None None ];
       list_createdAt := now env;
       list_updatedAt := None |} ].

(** The lists of the other users that are shared with [currentUserEmail]. *)
Definition sharedWithMe (w : World) (userId currentUserEmail : string) : list List :=
  concat
    (List.map
       (fun user =>
          if negb (String.eqb (user_id user) userId) then
            match storage w !! getUserListsKey (user_id user) with
            | Some userLists =>
                List.filter (fun l => Js.arrIncludes (list_sharedWith l) currentUserEmail)
                            userLists
            | None => []
            end
          else [])
       (MOCK_USERS w)).

Section Load.

(** [JSON.stringify] on a filter object. Its result depends on the order in
    which the object's properties were written, which [ListFilter] does not
    record; the serialisation is a parameter of [loadUserLists]. *)
Variable JSON_stringify : ListFilter -> string.

Definition cacheKey (userId : string) (f : ListFilter) : string :=
  userId ++ "_" ++ JSON_stringify f.

Definition loadUserLists (env : Env) (w : World) (userId : string) (f : ListFilter)
    : ApiResponse (list ListWithStats) * World :=
  match cache w !! cacheKey userId f with
  | Some cached => (succeeded (Some cached) "Lists loaded from cache", w)
  | None =>
      let listsKey := getUserListsKey userId in
      let storedLists := storage w !! listsKey in
      let '(allLists, w1) :=
        match storedLists with
        | None =>
            (sampleLists env userId,
             setStorage w (<[listsKey := sampleLists env userId]> (storage w)))
        | Some lists => (lists, w)
        end in
      let sharedLists :=
        match getCurrentUserEmail w1 userId with
        | Some currentUserEmail => sharedWithMe w1 userId currentUserEmail
        | None => []
        end in
      let combinedLists := (allLists ++ sharedLists)%list in
      let enrichedLists := List.map (fun l => enrichList w1 l userId) combinedLists in
      let filteredLists := filterLists enrichedLists f in
      (succeeded (Some filteredLists)
         (match storedLists with
          | Some _ => "Lists loaded successfully"
          | None => "Sample lists initialized"
          end),
       setCache w1 (<[cacheKey userId f := filteredLists]> (cache w1)))
  end.

End Load.

Definition createList (env : Env) (w : World) (userId : string) (payload : CreateListPayload)
    : ApiResponse ListWithStats * World :=
  let initialTasks := default [] (cl_initialTasks payload) in
  let validation := validationSchemas.createList (cl_title payload) initialTasks in
  if negb (isValid validation) then
    (failure (firstMessage validation ERROR_MESSAGES.UNKNOWN_ERROR), w)
  else
    let currentLists := storedLists w userId in
    if (50 <=? length currentLists)%nat then
      (failure ERROR_MESSAGES.LIST_LIMIT, w)
    else
      let newList :=
        {| list_id := fresh env 0;
           list_title := Js.trim (cl_title payload);
           list_ownerId := userId;
           list_sharedWith := [];
           list_tasks :=
             Js.mapi (fun text index =>
                        mkTask (fresh env (S index)) (Js.trim text) false
                               (Some (now env)) None)
                     initialTasks;
           list_createdAt := now env;
           list_updatedAt := None |} in
      let updatedLists := newList :: currentLists in
      let w1 := saveUserLists w userId updatedLists in
      (succeeded (Some (enrichList w1 newList userId)) SUCCESS_MESSAGES.LIST_CREATED, w1).

(** [ownerLists[listIndex] = updated; await this.saveUserLists(ownerId, ownerLists)]. *)
Definition writeBack (w : World) (found : Found) (updated : List) : World :=
  saveUserLists w (f_ownerId found) (<[f_listIndex found := updated]> (f_ownerLists found)).

Definition updateList (env : Env) (w : World) (userId listId : string)
    (updates : UpdateListPayload) : ApiResponse ListWithStats * World :=
  match findListById w userId listId with
  | None => (failure ERROR_MESSAGES.LIST_NOT_FOUND, w)
  | Some found =>
      let l := f_list found in
      if negb (canUserEditList w l userId) then
        (failure ERROR_MESSAGES.NO_EDIT_PERMISSION, w)
      else
        match match ul_title updates with
              | Some title => validators.listTitle title
              | None => None
              end with
        | Some titleError => (failure titleError, w)
        | None =>
            let updatedList :=
              {| list_id := list_id l;
                 list_title :=
                   match ul_title updates with
                   | Some title =>
                       if Js.truthy (Js.trim title) then Js.trim title else list_title l
                   | None => list_title l
                   end;
                 list_ownerId := list_ownerId l;
                 list_sharedWith := default (list_sharedWith l) (ul_sharedWith updates);
                 list_tasks := list_tasks l;
                 list_createdAt := list_createdAt l;
                 list_updatedAt := Some (now env) |} in
            let w1 := writeBack w found updatedList in
            (succeeded (Some (enrichList w1 updatedList userId))
               SUCCESS_MESSAGES.LIST_UPDATED, w1)
        end
  end.

Definition deleteList (w : World) (userId listId : string) : ApiResponse unit * World :=
  let currentLists := storedLists w userId in
  match List.find (fun l => String.eqb (list_id l) listId) currentLists with
  | None => (failure ERROR_MESSAGES.LIST_NOT_FOUND, w)
  | Some l =>
      if negb (String.eqb (list_ownerId l) userId) then
        (failure ERROR_MESSAGES.ONLY_OWNER_CAN_DELETE, w)
      else
        let updatedLists :=
          List.filter (fun l => negb (String.eqb (list_id l) listId)) currentLists in
        (succeeded None SUCCESS_MESSAGES.LIST_DELETED, saveUserLists w userId updatedLists)
  end.

Definition shareList (env : Env) (w : World) (userId : string) (payload : ShareListPayload)
    : ApiResponse unit * World :=
  let emailValidation := validationSchemas.shareList (sl_userEmail payload) in
  if negb (isValid emailValidation) then
    (failure (firstMessage emailValidation ERROR_MESSAGES.INVALID_EMAIL), w)
  else
    match List.find (fun u => String.eqb (user_email u) (sl_userEmail payload))
                    (MOCK_USERS w) with
    | None => (failure ERROR_MESSAGES.USER_NOT_FOUND, w)
    | Some targetUser =>
        if String.eqb (user_id targetUser) userId then
          (failure ERROR_MESSAGES.SHARE_WITH_SELF, w)
        else
          let currentLists := storedLists w userId in
          match Js.findIndex (fun l => String.eqb (list_id l) (sl_listId payload))
                             currentLists with
          | None => (failure ERROR_MESSAGES.LIST_NOT_FOUND, w)
          | Some listIndex =>
              match nth_error currentLists listIndex with
              | None => (failure ERROR_MESSAGES.ONLY_OWNER_CAN_SHARE, w)
              | Some l =>
                  if negb (String.eqb (list_ownerId l) userId) then
                    (failure ERROR_MESSAGES.ONLY_OWNER_CAN_SHARE, w)
                  else if Js.arrIncludes (list_sharedWith l) (sl_userEmail payload) then
                    (failure ERROR_MESSAGES.ALREADY_SHARED, w)
                  else if VALIDATION_RULES.MAX_SHARED_USERS
                            <=? Z.of_nat (length (list_sharedWith l)) then
                    (failure ERROR_MESSAGES.MAX_SHARED_USERS_EXCEEDED, w)
                  else
                    let updatedList :=
                      {| list_id := list_id l;
                         list_title := list_title l;
                         list_ownerId := list_ownerId l;
                         list_sharedWith := (list_sharedWith l ++ [sl_userEmail payload])%list;
                         list_tasks := list_tasks l;
                         list_createdAt := list_createdAt l;
                         list_updatedAt := Some (now env) |} in
                    let w1 := saveUserLists w userId (<[listIndex := updatedList]> currentLists) in
                    (succeeded None SUCCESS_MESSAGES.LIST_SHARED,
                     setCache w1 (clearCache (user_id targetUser) (cache w1)))
              end
          end
    end.

Definition withTasks (env : Env) (l : List) (tasks : list Task) : List :=
  {| list_id := list_id l;
     list_title := list_title l;
     list_ownerId := list_ownerId l;
     list_sharedWith := list_sharedWith l;
     list_tasks := tasks;
     list_createdAt := list_createdAt l;
     list_updatedAt := Some (now env) |}.

Definition addTask (env : Env) (w : World) (userId : string) (payload : CreateTaskPayload)
    : ApiResponse Task * World :=
  let validation := validationSchemas.addTask (ct_text payload) in
  if negb (isValid validation) then
    (failure (firstMessage validation ERROR_MESSAGES.TASK_TEXT_REQUIRED), w)
  else
    match findListById w userId (ct_listId payload) with
    | None => (failure ERROR_MESSAGES.LIST_NOT_FOUND, w)
    | Some found =>
        let l := f_list found in
        if negb (canUserEditList w l userId) then
          (failure ERROR_MESSAGES.NO_EDIT_PERMISSION, w)
        else if VALIDATION_RULES.MAX_TASKS_PER_LIST <=? Z.of_nat (length (list_tasks l)) then
          (failure ERROR_MESSAGES.MAX_TASKS_EXCEEDED, w)
        else
          let newTask :=
            mkTask (fresh env 0) (Js.trim (ct_text payload)) false (Some (now env)) None in
          let updatedList := withTasks env l (list_tasks l ++ [newTask])%list in
          (succeeded (Some newTask) SUCCESS_MESSAGES.TASK_ADDED,
           writeBack w found updatedList)
    end.

(** [list.tasks.map((t, index) => (index === taskIndex ? updatedTask : t))]. *)
Definition replaceAt (taskIndex : nat) (updatedTask : Task) (tasks : list Task) : list Task :=
  Js.mapi (fun t index => if (index =? taskIndex)%nat then updatedTask else t) tasks.

Definition updateTask (env : Env) (w : World) (userId listId taskId : string)
    (updates : UpdateTaskPayload) : ApiResponse Task * World :=
  match findListById w userId listId with
  | None => (failure ERROR_MESSAGES.LIST_NOT_FOUND, w)
  | Some found =>
      let l := f_list found in
      if negb (canUserEditList w l userId) then
        (failure ERROR_MESSAGES.NO_EDIT_PERMISSION, w)
      else
        match Js.findIndex (fun t => String.eqb (task_id t) taskId) (list_tasks l) with
        | None => (failure ERROR_MESSAGES.TASK_NOT_FOUND, w)
        | Some taskIndex =>
            match match ut_text updates with
                  | Some text => validators.taskText text
                  | None => None
                  end with
            | Some textError => (failure textError, w)
            | None =>
                match nth_error (list_tasks l) taskIndex with
                | None => (failure ERROR_MESSAGES.TASK_NOT_FOUND, w)
                | Some task =>
                    let updatedTask :=
                      {| task_id := task_id task;
                         task_text :=
                           match ut_text updates with
                           | Some text =>
                               if Js.truthy (Js.trim text) then Js.trim text else task_text task
                           | None => task_text task
                           end;
                         task_completed := default (task_completed task) (ut_completed updates);
                         task_createdAt := task_createdAt task;
                         task_completedAt :=
                           if flag (ut_completed updates) && negb (task_completed task)
                           then Some (now env) else task_completedAt task |} in
                    let updatedList :=
                      withTasks env l (replaceAt taskIndex updatedTask (list_tasks l)) in
                    (succeeded (Some updatedTask) SUCCESS_MESSAGES.TASK_UPDATED,
                     writeBack w found updatedList)
                end
            end
        end
  end.

Definition deleteTask (env : Env) (w : World) (userId listId taskId : string)
    : ApiResponse unit * World :=
  match findListById w userId listId with
  | None => (failure ERROR_MESSAGES.LIST_NOT_FOUND, w)
  | Some found =>
      let l := f_list found in
      if negb (canUserEditList w l userId) then
        (failure ERROR_MESSAGES.NO_EDIT_PERMISSION, w)
      else if negb (existsb (fun t => String.eqb (task_id t) taskId) (list_tasks l)) then
        (failure ERROR_MESSAGES.TASK_NOT_FOUND, w)
      else
        let updatedList :=
          withTasks env l
            (List.filter (fun t => negb (String.eqb (task_id t) taskId)) (list_tasks l)) in
        (succeeded None SUCCESS_MESSAGES.TASK_DELETED, writeBack w found updatedList)
  end.

Definition toggleTask (env : Env) (w : World) (userId listId taskId : string)
    : ApiResponse Task * World :=
  match findListById w userId listId with
  | None => (failure ERROR_MESSAGES.LIST_NOT_FOUND, w)
  | Some found =>
      let l := f_list found in
      if negb (canUserEditList w l userId) then
        (failure ERROR_MESSAGES.NO_EDIT_PERMISSION, w)
      else
        match Js.findIndex (fun t => String.eqb (task_id t) taskId) (list_tasks l) with
        | None => (failure ERROR_MESSAGES.TASK_NOT_FOUND, w)
        | Some taskIndex =>
            match nth_error (list_tasks l) taskIndex with
            | None => (failure ERROR_MESSAGES.TASK_NOT_FOUND, w)
            | Some task =>
                let updatedTask :=
                  {| task_id := task_id task;
                     task_text := task_text task;
                     task_completed := negb (task_completed task);
                     task_createdAt := task_createdAt task;
                     task_completedAt :=
                       if negb (task_completed task) then Some (now env) else None |} in
                let updatedList :=
                  withTasks env l (replaceAt taskIndex updatedTask (list_tasks l)) in
                (succeeded (Some updatedTask)
                   (if task_completed updatedTask
                    then SUCCESS_MESSAGES.TASK_COMPLETED
                    else SUCCESS_MESSAGES.TASK_UNCOMPLETED),
                 writeBack w found updatedList)
            end
        end
  end.

Definition getListById (w : World) (userId listId : string) : ApiResponse ListWithStats :=
  match findListById w userId listId with
  | None => failure ERROR_MESSAGES.LIST_NOT_FOUND
  | Some found =>
      if negb (canUserEditList w (f_list found) userId) then
        failure ERROR_MESSAGES.NO_VIEW_PERMISSION
      else succeeded (Some (enrichList w (f_list found) userId)) "List retrieved successfully"
  end.

(** [ListExport]; [version] is the constant [1.0.0]. *)
Record ListExport := mkListExport {
  le_version : string;
  le_exportedAt : Timestamp;
  le_userId : string;
  le_userName : string;
  le_userEmail : string;
  le_lists : list List;
}.

Definition exportLists (env : Env) (w : World) (userId : string) : ApiResponse ListExport :=
  let currentLists := storedLists w userId in
  match List.find (fun u => String.eqb (user_id u) userId) (MOCK_USERS w) with
  | None => failure ERROR_MESSAGES.USER_NOT_FOUND
  | Some user =>
      succeeded
        (Some {| le_version := "1.0.0"; le_exportedAt := now env;
                 le_userId := user_id user; le_userName := user_name user;
                 le_userEmail := user_email user; le_lists := currentLists |})
        "Lists exported successfully"
  end.

End ListService.

(* ===================================================================== *)
(** ** The authentication service (services/authService.ts)               *)
(* ===================================================================== *)

Module AuthService.

Definition maxAttempts : nat := 5.
Definition lockoutDuration : Z := 15 * 60 * 1000.
Definition dayMs : Z := 24 * 60 * 60 * 1000.

(** [this.loginAttempts.get(email) || []]. *)
Definition getLoginAttempts (w : World) (email : string) : list LoginAttempt :=
  default [] (loginAttempts w !! email).

Definition generateToken (env : Env) (userId : string) : Token :=
  {| tok_sub := userId; tok_iat := now env; tok_exp := now env + dayMs |}.

Definition recentFailure (env : Env) (attempt : LoginAttempt) : bool :=
  negb (la_success attempt) && (now env - la_timestamp attempt <? lockoutDuration).

Definition isUserLockedOut (env : Env) (w : World) (email : string) : bool :=
  let recentFailedAttempts := List.filter (recentFailure env) (getLoginAttempts w email) in
  (maxAttempts <=? length recentFailedAttempts)%nat.

(** The attempt is pushed and the last ten are kept. *)
Definition recordLoginAttempt (env : Env) (w : World) (email : string) (ok : bool) : World :=
  let attempts := (getLoginAttempts w email ++ [mkAttempt email (now env) ok])%list in
  setLoginAttempts w (<[email := Js.sliceLast 10 attempts]> (loginAttempts w)).

(** [saveUserSession] is two writes; with writes that succeed its failure
    branch is not taken. *)
Definition signIn (env : Env) (w : World) (email password : string)
    : ApiResponse (User * Token) * World :=
  let validation := validationSchemas.login email password in
  if negb (isValid validation) then
    (failure (firstMessage validation ERROR_MESSAGES.INVALID_CREDENTIALS), w)
  else if isUserLockedOut env w email then
    (failure ERROR_MESSAGES.LOCKED_OUT, w)
  else
    match List.find (fun u => String.eqb (user_email u) email &&
                              String.eqb (user_password u) password) (MOCK_USERS w) with
    | None =>
        (failure ERROR_MESSAGES.INVALID_CREDENTIALS, recordLoginAttempt env w email false)
    | Some user =>
        let token := generateToken env (user_id user) in
        let sessionData :=
          {| sd_token := token; sd_user := user;
             sd_expiresAt := now env + dayMs; sd_lastActivity := now env |} in
        let w1 := setSession w (Some (token, sessionData)) in
        (succeeded (Some (user, token)) SUCCESS_MESSAGES.LOGIN_SUCCESS,
         recordLoginAttempt env w1 email true)
    end.

Definition signUp (env : Env) (w : World) (name email password : string)
    : ApiResponse (User * Token) * World :=
  let validation := validationSchemas.register name email password password in
  if negb (isValid validation) then
    (failure (firstMessage validation ERROR_MESSAGES.UNKNOWN_ERROR), w)
  else
    match List.find (fun u => String.eqb (user_email u) email) (MOCK_USERS w) with
    | Some _ => (failure ERROR_MESSAGES.USER_EXISTS, w)
    | None =>
        let newUser :=
          {| user_id := fresh env 0;
             user_name := Js.trim name;
             user_email := Js.trim (Js.toLowerCase email);
             user_password := password;
             user_createdAt := Some (now env) |} in
        let w1 := setUsers w (MOCK_USERS w ++ [newUser])%list in
        let token := generateToken env (user_id newUser) in
        let sessionData :=
          {| sd_token := token; sd_user := newUser;
             sd_expiresAt := now env + dayMs; sd_lastActivity := now env |} in
        (succeeded (Some (newUser, token)) "Konto zostało utworzone pomyślnie",
         setSession w1 (Some (token, sessionData)))
    end.

(** The result of [validateToken]; an absent [userId] or [expired] is
    [None] or [false]. *)
Record TokenCheck := mkTokenCheck {
  tc_valid : bool;
  tc_userId : option string;
  tc_expired : bool;
}.

(** [validateToken] on a token of [generateToken]: the payload decodes to the
    record it was made from, so only the comparison of [exp] with the clock
    is left (the branches for text that is no token are not reached). *)
Definition validateToken (env : Env) (token : Token) : TokenCheck :=
  if tok_exp token <? now env then mkTokenCheck false None true
  else mkTokenCheck true (Some (tok_sub token)) false.

(** [clearUserSession] removes both session entries. *)
Definition signOut (w : World) : ApiResponse unit * World :=
  (succeeded None "Wylogowano pomyślnie", setSession w None).

Definition restoreSession (env : Env) (w : World) : ApiResponse (User * Token) * World :=
  match session w with
  | None => (failure "No session found", w)
  | Some (token, sessionData) =>
      let tokenValidation := validateToken env token in
      if negb (tc_valid tokenValidation) then
        (failure (if tc_expired tokenValidation then "Session expired" else "Invalid session"),
         setSession w None)
      else if sd_expiresAt sessionData <? now env then
        (failure "Session expired", setSession w None)
      else
        let updatedSessionData :=
          {| sd_token := sd_token sessionData; sd_user := sd_user sessionData;
             sd_expiresAt := sd_expiresAt sessionData; sd_lastActivity := now env |} in
        (succeeded (Some (sd_user sessionData, token)) "Session restored successfully",
         setSession w (Some (token, updatedSessionData)))
  end.

Definition getCurrentUser (w : World) : option User :=
  match session w with
  | Some (_, sessionData) => Some (sd_user sessionData)
  | None => None
  end.

(** [Partial<Pick<User, 'name' | 'email'>>]; [None] is an absent key. *)
Record ProfileUpdates := mkProfileUpdates {
  pu_name : option string;
  pu_email : option string;
}.

(** A string that may be absent, used as a condition. *)
Definition given (s : option string) : bool :=
  match s with Some x => Js.truthy x | None => false end.

Definition updateProfile (env : Env) (w : World) (userId : string) (updates : ProfileUpdates)
    : ApiResponse User * World :=
  if given (pu_name updates) &&
     negb (isValid (validationSchemas.register (default "" (pu_name updates))
                      "temp@temp.com" "temp123" "temp123")) then
    (failure "Nieprawidłowe dane profilu", w)
  else
    match Js.findIndex (fun u => String.eqb (user_id u) userId) (MOCK_USERS w) with
    | None => (failure ERROR_MESSAGES.USER_NOT_FOUND, w)
    | Some userIndex =>
        if negb (given (pu_email updates)) && negb (given (pu_name updates)) then
          (failure "Brak danych do aktualizacji", w)
        else
          match nth_error (MOCK_USERS w) userIndex with
          | None => (failure ERROR_MESSAGES.USER_NOT_FOUND, w)
          | Some mockedUser =>
              let updatedUser :=
                {| user_id := user_id mockedUser;
                   user_email := default (user_email mockedUser) (pu_email updates);
                   user_password := user_password mockedUser;
                   user_name := default (user_name mockedUser) (pu_name updates);
                   user_createdAt := user_createdAt mockedUser |} in
              let w1 :=
                match session w with
                | Some (token, sessionData) =>
                    setSession w
                      (Some (token,
                             {| sd_token := sd_token sessionData; sd_user := updatedUser;
                                sd_expiresAt := sd_expiresAt sessionData;
                                sd_lastActivity := now env |}))
                | None => w
                end in
              (succeeded (Some updatedUser) "Profil został zaktualizowany", w1)
          end
    end.

Definition checkEmailExists (w : World) (email : string) : bool :=
  existsb (fun u => String.eqb (user_email u) (Js.trim (Js.toLowerCase email))) (MOCK_USERS w).

Definition clearLoginAttempts (w : World) (email : string) : World :=
  setLoginAttempts w (delete email (loginAttempts w)).

End AuthService.

(* ===================================================================== *)
(** ** The client state (context/listReducer.ts, context/ListContext.tsx) *)
(* ===================================================================== *)

(** [Partial<Task>]: a field is [None] when the key is absent; the two
    optional fields can be present and [undefined]. *)
Record PartialTask := mkPartialTask {
  pt_id : option string;
  pt_text : option string;
  pt_completed : option bool;
  pt_createdAt : option (option Timestamp);
  pt_completedAt : option (option Timestamp);
}.

(** [Partial<ListWithStats>]. *)
Record PartialList := mkPartialList {
  pl_id : option string;
  pl_title : option string;
  pl_ownerId : option string;
  pl_sharedWith : option (list string);
  pl_tasks : option (list Task);
  pl_createdAt : option Timestamp;
  pl_updatedAt : option (option Timestamp);
  pl_statistics : option ListStatistics;
  pl_isOwner : option bool;
  pl_isShared : option bool;
  pl_canEdit : option bool;
  pl_canDelete : option bool;
  pl_canShare : option bool;
}.

(** [Partial<ListFilter>]: every field of the filter is optional already. *)
Record PartialFilter := mkPartialFilter {
  pf_searchTerm : option (option string);
  pf_showCompleted : option (option bool);
  pf_showShared : option (option bool);
  pf_showOwned : option (option bool);
  pf_sortBy : option (option SortKey);
  pf_sortOrder : option (option SortOrder);
}.

Record ListState := mkListState {
  lists : list ListWithStats;
  loading : bool;
  ls_error : option string;
  ls_filter : ListFilter;
  selectedListId : option string;
  lastSync : option Timestamp;
}.

Inductive ListAction :=
| SET_LOADING (payload : bool)
| SET_ERROR (payload : option string)
| CLEAR_ERROR
| SET_LISTS (payload : list ListWithStats)
| ADD_LIST (payload : ListWithStats)
| UPDATE_LIST (listId : string) (updates : PartialList)
| DELETE_LIST (payload : string)
| ADD_TASK (listId : string) (task : Task)
| UPDATE_TASK (listId taskId : string) (updates : PartialTask)
| DELETE_TASK (listId taskId : string)
| SET_FILTER (payload : PartialFilter)
| SET_SELECTED_LIST (payload : option string)
| SET_LAST_SYNC (payload : Timestamp).

Definition initialListState : ListState :=
  {| lists := [];
     loading := false;
     ls_error := None;
     ls_filter := mkFilter None (Some true) (Some true) (Some true)
                           (Some SortCreatedAt) (Some Desc);
     selectedListId := None;
     lastSync := None |}.

Module Reducer.

(** [{ ...task, ...updates }]. *)
Definition mergeTask (task : Task) (updates : PartialTask) : Task :=
  {| task_id := default (task_id task) (pt_id updates);
     task_text := default (task_text task) (pt_text updates);
     task_completed := default (task_completed task) (pt_completed updates);
     task_createdAt := default (task_createdAt task) (pt_createdAt updates);
     task_completedAt := default (task_completedAt task) (pt_completedAt updates) |}.

(** [{ ...list, ...updates }]. *)
Definition mergeList (l : ListWithStats) (updates : PartialList) : ListWithStats :=
  let base := lws_list l in
  {| lws_list :=
       {| list_id := default (list_id base) (pl_id updates);
          list_title := default (list_title base) (pl_title updates);
          list_ownerId := default (list_ownerId base) (pl_ownerId updates);
          list_sharedWith := default (list_sharedWith base) (pl_sharedWith updates);
          list_tasks := default (list_tasks base) (pl_tasks updates);
          list_createdAt := default (list_createdAt base) (pl_createdAt updates);
          list_updatedAt := default (list_updatedAt base) (pl_updatedAt updates) |};
     statistics := default (statistics l) (pl_statistics updates);
     isOwner := default (isOwner l) (pl_isOwner updates);
     isShared := default (isShared l) (pl_isShared updates);
     canEdit := default (canEdit l) (pl_canEdit updates);
     canDelete := default (canDelete l) (pl_canDelete updates);
     canShare := default (canShare l) (pl_canShare updates) |}.

(** [{ ...state.filter, ...payload }]. *)
Definition mergeFilter (f : ListFilter) (updates : PartialFilter) : ListFilter :=
  {| searchTerm := default (searchTerm f) (pf_searchTerm updates);
     showCompleted := default (showCompleted f) (pf_showCompleted updates);
     showShared := default (showShared f) (pf_showShared updates);
     showOwned := default (showOwned f) (pf_showOwned updates);
     sortBy := default (sortBy f) (pf_sortBy updates);
     sortOrder := default (sortOrder f) (pf_sortOrder updates) |}.

Definition withLists (state : ListState) (ls : list ListWithStats) : ListState :=
  {| lists := ls; loading := loading state; ls_error := None;
     ls_filter := ls_filter state; selectedListId := selectedListId state;
     lastSync := lastSync state |}.

(** [{ ...list, tasks, statistics }]. *)
Definition withTasksStats (l : ListWithStats) (tasks : list Task) (stats : ListStatistics)
    : ListWithStats :=
  let base := lws_list l in
  {| lws_list :=
       {| list_id := list_id base; list_title := list_title base;
          list_ownerId := list_ownerId base; list_sharedWith := list_sharedWith base;
          list_tasks := tasks;
          list_createdAt := list_createdAt base; list_updatedAt := list_updatedAt base |};
     statistics := stats;
     isOwner := isOwner l; isShared := isShared l; canEdit := canEdit l;
     canDelete := canDelete l; canShare := canShare l |}.

Definition onList (listId : string) (f : ListWithStats -> ListWithStats)
    (ls : list ListWithStats) : list ListWithStats :=
  List.map (fun l => if String.eqb (list_id (lws_list l)) listId then f l else l) ls.

Definition addTaskTo (task : Task) (l : ListWithStats) : ListWithStats :=
  let st := statistics l in
  withTasksStats l (list_tasks (lws_list l) ++ [task])%list
    {| totalTasks := totalTasks st + 1;
       completedTasks := completedTasks st;
       pendingTasks := pendingTasks st + 1;
       completionPercentage :=
         if 0 <? totalTasks st
         then (inject_Z (completedTasks st) / inject_Z (totalTasks st + 1)) * inject_Z 100
         else 0%Q;
       lastActivity := lastActivity st |}.

Definition updateTaskIn (env : Env) (taskId : string) (updates : PartialTask)
    (l : ListWithStats) : ListWithStats :=
  let updatedTasks :=
    List.map (fun task => if String.eqb (task_id task) taskId
                          then mergeTask task updates else task)
             (list_tasks (lws_list l)) in
  let total := Z.of_nat (length updatedTasks) in
  let completed := ListService.countCompleted updatedTasks in
  withTasksStats l updatedTasks
    {| totalTasks := total;
       completedTasks := completed;
       pendingTasks := total - completed;
       completionPercentage := ListService.percentage completed total;
       lastActivity := now env |}.

Definition deleteTaskFrom (taskId : string) (l : ListWithStats) : ListWithStats :=
  let st := statistics l in
  withTasksStats l
    (List.filter (fun task => negb (String.eqb (task_id task) taskId))
                 (list_tasks (lws_list l)))
    {| totalTasks := totalTasks st - 1;
       completedTasks := completedTasks st;
       pendingTasks := pendingTasks st - 1;
       completionPercentage :=
         if 1 <? totalTasks st
         then (inject_Z (completedTasks st) / inject_Z (totalTasks st - 1)) * inject_Z 100
         else 0%Q;
       lastActivity := lastActivity st |}.

Definition listReducer (env : Env) (state : ListState) (action : ListAction) : ListState :=
  match action with
  | SET_LOADING payload =>
      {| lists := lists state; loading := payload; ls_error := ls_error state;
         ls_filter := ls_filter state; selectedListId := selectedListId state;
         lastSync := lastSync state |}
  | SET_ERROR payload =>
      {| lists := lists state; loading := false; ls_error := payload;
         ls_filter := ls_filter state; selectedListId := selectedListId state;
         lastSync := lastSync state |}
  | CLEAR_ERROR =>
      {| lists := lists state; loading := loading state; ls_error := None;
         ls_filter := ls_filter state; selectedListId := selectedListId state;
         lastSync := lastSync state |}
  | SET_LISTS payload =>
      {| lists := payload; loading := false; ls_error := None;
         ls_filter := ls_filter state; selectedListId := selectedListId state;
         lastSync := Some (now env) |}
  | ADD_LIST payload => withLists state (payload :: lists state)
  | UPDATE_LIST listId updates =>
      withLists state (onList listId (fun l => mergeList l updates) (lists state))
  | DELETE_LIST payload =>
      {| lists := List.filter (fun l => negb (String.eqb (list_id (lws_list l)) payload))
                              (lists state);
         loading := loading state; ls_error := None; ls_filter := ls_filter state;
         selectedListId :=
           match selectedListId state with
           | Some sel => if String.eqb sel payload then None else Some sel
           | None => None
           end;
         lastSync := lastSync state |}
  | ADD_TASK listId task => withLists state (onList listId (addTaskTo task) (lists state))
  | UPDATE_TASK listId taskId updates =>
      withLists state (onList listId (updateTaskIn env taskId updates) (lists state))
  | DELETE_TASK listId taskId =>
      withLists state (onList listId (deleteTaskFrom taskId) (lists state))
  | SET_FILTER payload =>
      {| lists := lists state; loading := loading state; ls_error := ls_error state;
         ls_filter := mergeFilter (ls_filter state) payload;
         selectedListId := selectedListId state; lastSync := lastSync state |}
  | SET_SELECTED_LIST payload =>
      {| lists := lists state; loading := loading state; ls_error := ls_error state;
         ls_filter := ls_filter state; selectedListId := payload;
         lastSync := lastSync state |}
  | SET_LAST_SYNC payload =>
      {| lists := lists state; loading := loading state; ls_error := ls_error state;
         ls_filter := ls_filter state; selectedListId := selectedListId state;
         lastSync := Some payload |}
  end.

End Reducer.

(** The callbacks of [ListProvider] that load the lists and change tasks:
    each calls the service and dispatches on its result. The signed-in user
    is [userId]. *)
Module ListContext.

Section Provider.

Variable JSON_stringify : ListFilter -> string.

(** [result.error || fallback]. *)
Definition errorOr {T : Type} (result : ApiResponse T) (fallback : string) : option string :=
  match error result with
  | Some e => if Js.truthy e then Some e else Some fallback
  | None => Some fallback
  end.

(** A task object of the service handed over as [Partial<Task>]: [createdAt]
    is a key of it when it is defined, [completedAt] is always written. *)
Definition asUpdates (t : Task) : PartialTask :=
  {| pt_id := Some (task_id t);
     pt_text := Some (task_text t);
     pt_completed := Some (task_completed t);
     pt_createdAt := match task_createdAt t with Some c => Some (Some c) | None => None end;
     pt_completedAt := Some (task_completedAt t) |}.

Definition refreshLists (env : Env) (userId : string) (c : World * ListState)
    : World * ListState :=
  let '(w, state) := c in
  let s1 := Reducer.listReducer env state (SET_LOADING true) in
  let s2 := Reducer.listReducer env s1 CLEAR_ERROR in
  let '(result, w1) := ListService.loadUserLists JSON_stringify env w userId (ls_filter state) in
  match success result, data result with
  | true, Some lists => (w1, Reducer.listReducer env s2 (SET_LISTS lists))
  | _, _ => (w1, Reducer.listReducer env s2 (SET_ERROR (errorOr result "Błąd ładowania list")))
  end.

Definition addTask (env : Env) (userId : string) (payload : CreateTaskPayload)
    (c : World * ListState) : ApiResponse Task * (World * ListState) :=
  let '(w, state) := c in
  let s1 := Reducer.listReducer env state CLEAR_ERROR in
  let '(result, w1) := ListService.addTask env w userId payload in
  match success result, data result with
  | true, Some task =>
      (result, (w1, Reducer.listReducer env s1 (ADD_TASK (ct_listId payload) task)))
  | _, _ =>
      (result, (w1, Reducer.listReducer env s1
                      (SET_ERROR (errorOr result "Błąd dodawania zadania"))))
  end.

Definition updateTask (env : Env) (userId listId taskId : string)
    (updates : UpdateTaskPayload) (c : World * ListState)
    : ApiResponse Task * (World * ListState) :=
  let '(w, state) := c in
  let s1 := Reducer.listReducer env state CLEAR_ERROR in
  let '(result, w1) := ListService.updateTask env w userId listId taskId updates in
  match success result, data result with
  | true, Some task =>
      (result, (w1, Reducer.listReducer env s1 (UPDATE_TASK listId taskId (asUpdates task))))
  | _, _ =>
      (result, (w1, Reducer.listReducer env s1
                      (SET_ERROR (errorOr result "Błąd aktualizacji zadania"))))
  end.

Definition deleteTask (env : Env) (userId listId taskId : string) (c : World * ListState)
    : ApiResponse unit * (World * ListState) :=
  let '(w, state) := c in
  let s1 := Reducer.listReducer env state CLEAR_ERROR in
  let '(result, w1) := ListService.deleteTask env w userId listId taskId in
  if success result
  then (result, (w1, Reducer.listReducer env s1 (DELETE_TASK listId taskId)))
  else (result, (w1, Reducer.listReducer env s1
                       (SET_ERROR (errorOr result "Błąd usuwania zadania")))).

Definition toggleTask (env : Env) (userId listId taskId : string) (c : World * ListState)
    : ApiResponse Task * (World * ListState) :=
  let '(w, state) := c in
  let s1 := Reducer.listReducer env state CLEAR_ERROR in
  let '(result, w1) := ListService.toggleTask env w userId listId taskId in
  match success result, data result with
  | true, Some task =>
      (result, (w1, Reducer.listReducer env s1 (UPDATE_TASK listId taskId (asUpdates task))))
  | _, _ =>
      (result, (w1, Reducer.listReducer env s1
                      (SET_ERROR (errorOr result "Błąd zmiany statusu zadania"))))
  end.

(** A list of the service handed over as [Partial<ListWithStats>]: every
    key of it is written ([updateList] always sets [updatedAt]). *)
Definition asListUpdates (l : ListWithStats) : PartialList :=
  {| pl_id := Some (list_id (lws_list l));
     pl_title := Some (list_title (lws_list l));
     pl_ownerId := Some (list_ownerId (lws_list l));
     pl_sharedWith := Some (list_sharedWith (lws_list l));
     pl_tasks := Some (list_tasks (lws_list l));
     pl_createdAt := Some (list_createdAt (lws_list l));
     pl_updatedAt := Some (list_updatedAt (lws_list l));
     pl_statistics := Some (statistics l);
     pl_isOwner := Some (isOwner l);
     pl_isShared := Some (isShared l);
     pl_canEdit := Some (canEdit l);
     pl_canDelete := Some (canDelete l);
     pl_canShare := Some (canShare l) |}.

Definition createList (env : Env) (userId : string) (payload : CreateListPayload)
    (c : World * ListState) : ApiResponse ListWithStats * (World * ListState) :=
  let '(w, state) := c in
  let s1 := Reducer.listReducer env state CLEAR_ERROR in
  let '(result, w1) := ListService.createList env w userId payload in
  match success result, data result with
  | true, Some l => (result, (w1, Reducer.listReducer env s1 (ADD_LIST l)))
  | _, _ =>
      (result, (w1, Reducer.listReducer env s1
                      (SET_ERROR (errorOr result "Błąd tworzenia listy"))))
  end.

Definition updateList (env : Env) (userId listId : string) (updates : UpdateListPayload)
    (c : World * ListState) : ApiResponse ListWithStats * (World * ListState) :=
  let '(w, state) := c in
  let s1 := Reducer.listReducer env state CLEAR_ERROR in
  let '(result, w1) := ListService.updateList env w userId listId updates in
  match success result, data result with
  | true, Some l =>
      (result, (w1, Reducer.listReducer env s1 (UPDATE_LIST listId (asListUpdates l))))
  | _, _ =>
      (result, (w1, Reducer.listReducer env s1
                      (SET_ERROR (errorOr result "Błąd aktualizacji listy"))))
  end.

Definition deleteList (env : Env) (userId listId : string) (c : World * ListState)
    : ApiResponse unit * (World * ListState) :=
  let '(w, state) := c in
  let s1 := Reducer.listReducer env state CLEAR_ERROR in
  let '(result, w1) := ListService.deleteList w userId listId in
  if success result
  then (result, (w1, Reducer.listReducer env s1 (DELETE_LIST listId)))
  else (result, (w1, Reducer.listReducer env s1
                       (SET_ERROR (errorOr result "Błąd usuwania listy")))).

(** [getListById] and [getTaskById] of the context read the client state. *)
Definition getListById (state : ListState) (listId : string) : option ListWithStats :=
  List.find (fun l => String.eqb (list_id (lws_list l)) listId) (lists state).

Definition getTaskById (state : ListState) (listId taskId : string) : option Task :=
  match getListById state listId with
  | Some l => List.find (fun t => String.eqb (task_id t) taskId) (list_tasks (lws_list l))
  | None => None
  end.

End Provider.

End ListContext.

(* ===================================================================== *)
(** ** Runs of the services                                               *)
(* ===================================================================== *)

(** One call of an operation that writes the stored lists, the cache, the
    user directory or the log of sign-in attempts. ([signOut],
    [restoreSession] and [updateProfile] write the session entries only;
    [exportLists] and [getListById] write nothing.) *)
Inductive Call :=
| LoadUserLists (userId : string) (f : ListFilter)
| CreateList (userId : string) (payload : CreateListPayload)
| UpdateList (userId listId : string) (updates : UpdateListPayload)
| DeleteList (userId listId : string)
| ShareList (userId : string) (payload : ShareListPayload)
| AddTask (userId : string) (payload : CreateTaskPayload)
| UpdateTask (userId listId taskId : string) (updates : UpdateTaskPayload)
| DeleteTask (userId listId taskId : string)
| ToggleTask (userId listId taskId : string)
| SignIn (email password : string)
| SignUp (name email password : string).

Section Runs.

Variable JSON_stringify : ListFilter -> string.

(** The state a call leaves. *)
Definition step (env : Env) (w : World) (c : Call) : World :=
  match c with
  | LoadUserLists userId f => snd (ListService.loadUserLists JSON_stringify env w userId f)
  | CreateList userId payload => snd (ListService.createList env w userId payload)
  | UpdateList userId listId updates => snd (ListService.updateList env w userId listId updates)
  | DeleteList userId listId => snd (ListService.deleteList w userId listId)
  | ShareList userId payload => snd (ListService.shareList env w userId payload)
  | AddTask userId payload => snd (ListService.addTask env w userId payload)
  | UpdateTask userId listId taskId updates =>
      snd (ListService.updateTask env w userId listId taskId updates)
  | DeleteTask userId listId taskId => snd (ListService.deleteTask env w userId listId taskId)
  | ToggleTask userId listId taskId => snd (ListService.toggleTask env w userId listId taskId)
  | SignIn email password => snd (AuthService.signIn env w email password)
  | SignUp name email password => snd (AuthService.signUp env w name email password)
  end.

(** Sign-ins for one email, one after the other, each with its own clock
    reading: the results, and the state the last one leaves. *)
Fixpoint signInEach (w : World) (email : string) (calls : list (Env * string))
    : list (ApiResponse (User * Token)) * World :=
  match calls with
  | [] => ([], w)
  | (env, password) :: rest =>
      let '(result, w1) := AuthService.signIn env w email password in
      let '(results, w2) := signInEach w1 email rest in
      (result :: results, w2)
  end.

(** The states the application reaches from a fresh install. *)
Inductive reachable : World -> Prop :=
| reachable_initial : reachable initialWorld
| reachable_step env w c : reachable w -> reachable (step env w c).

End Runs.

(* ===================================================================== *)
(** ** Predicates of the statements                                       *)
(* ===================================================================== *)

(** The statistics of a client or service view agree with its tasks. *)
Definition statsRecomputed (l : ListWithStats) : Prop :=
  let tasks := list_tasks (lws_list l) in
  let st := statistics l in
  totalTasks st = Z.of_nat (length tasks) /\
  completedTasks st = ListService.countCompleted tasks /\
  completedTasks st + pendingTasks st = totalTasks st /\
  (completionPercentage st ==
     ListService.percentage (ListService.countCompleted tasks) (Z.of_nat (length tasks)))%Q.

(** The three refusals the service words as missing rights. *)
Definition isPermissionError (e : option string) : bool :=
  match e with
  | Some m =>
      String.eqb m ERROR_MESSAGES.NO_EDIT_PERMISSION ||
      String.eqb m ERROR_MESSAGES.ONLY_OWNER_CAN_DELETE ||
      String.eqb m ERROR_MESSAGES.ONLY_OWNER_CAN_SHARE
  | None => false
  end.

(** Every list of a partition names the partition's user as its owner. *)
Definition ownerKeyed (w : World) : Prop :=
  forall (userId : string) (stored : list List) (l : List),
    storage w !! ListService.getUserListsKey userId = Some stored ->
    In l stored -> list_ownerId l = userId.

(** No stored list with the id [listId] is owned by [userId] or shared with
    the email of [userId]: [canUserEditList] is false on each. *)
Definition outsider (w : World) (userId listId : string) : Prop :=
  forall (ownerId : string) (l : List),
    In l (ListService.storedLists w ownerId) -> list_id l = listId ->
    ListService.canUserEditList w l userId = false.

(** A call answered with one of the errors [allowed], the state untouched. *)
Definition refused {T : Type} (r : ApiResponse T * World) (w : World)
    (allowed : list string) : Prop :=
  exists e, r = (failure e, w) /\ In e allowed.

(** A list id names one record of the whole store. *)
Definition uniqueIds (w : World) : Prop :=
  forall (o1 o2 : string) (l1 l2 : List),
    In l1 (ListService.storedLists w o1) -> In l2 (ListService.storedLists w o2) ->
    list_id l1 = list_id l2 -> o1 = o2 /\ l1 = l2.

(** The resolution of a list id as the specification words it: the
    requester's own collection first, then the collections of the other known
    users in the directory's order, a record there counting only when it is
    shared with the requester's email. *)
Definition findListById_spec (w : World) (requester listId : string)
    : option (List * string) :=
  match List.find (fun l => String.eqb (list_id l) listId)
                  (ListService.storedLists w requester) with
  | Some l => Some (l, requester)
  | None =>
      match ListService.getCurrentUserEmail w requester with
      | None => None
      | Some requesterEmail =>
          head
            (flat_map
               (fun other =>
                  if String.eqb (user_id other) requester then []
                  else
                    match List.find
                            (fun l => String.eqb (list_id l) listId &&
                                      Js.arrIncludes (list_sharedWith l) requesterEmail)
                            (ListService.storedLists w (user_id other)) with
                    | Some l => [(l, user_id other)]
                    | None => []
                    end)
               (MOCK_USERS w))
      end
  end.

(** The ids of the lists a load returned. *)
Definition loadedIds (r : ApiResponse (list ListWithStats)) : option (list string) :=
  option_map (List.map (fun l => list_id (lws_list l))) (data r).

(** What a lookup resolves an id to: the record and its owner. *)
Definition resolved (found : ListService.Found) : List * string :=
  (ListService.f_list found, ListService.f_ownerId found).

(** The list [shareList] writes in place of [l]. *)
Definition sharedWithOneMore (env : Env) (l : List) (email : string) : List :=
  {| list_id := list_id l;
     list_title := list_title l;
     list_ownerId := list_ownerId l;
     list_sharedWith := (list_sharedWith l ++ [email])%list;
     list_tasks := list_tasks l;
     list_createdAt := list_createdAt l;
     list_updatedAt := Some (now env) |}.

(** The task [toggleTask] writes in place of [task]. *)
Definition toggled (env : Env) (task : Task) : Task :=
  {| task_id := task_id task;
     task_text := task_text task;
     task_completed := negb (task_completed task);
     task_createdAt := task_createdAt task;
     task_completedAt := if negb (task_completed task) then Some (now env) else None |}.

(** The first task with the id [taskId] of the list [listId] as [userId]
    resolves it. *)
Definition lookupTask (w : World) (userId listId taskId : string) : option Task :=
  match ListService.findListById w userId listId with
  | Some found =>
      List.find (fun t => String.eqb (task_id t) taskId) (list_tasks (ListService.f_list found))
  | None => None
  end.

(** What a sign-in puts on record, read off its answer: an attempt with the
    clock of the call when the answer is a success or "invalid credentials",
    nothing when the call was refused by the validation of the input or by
    the lockout. *)
Definition recordedBy (email : string) (env : Env) (result : ApiResponse (User * Token))
    : list LoginAttempt :=
  if success result then [mkAttempt email (now env) true]
  else match error result with
       | Some e =>
           if String.eqb e ERROR_MESSAGES.INVALID_CREDENTIALS
           then [mkAttempt email (now env) false] else []
       | None => []
       end.

(** The attempts a run of sign-ins for one email puts on record, in the
    order of the calls. *)
Fixpoint recordedByRun (email : string) (calls : list (Env * string))
    (results : list (ApiResponse (User * Token))) : list LoginAttempt :=
  match calls, results with
  | (env, _) :: calls', result :: results' =>
      (recordedBy email env result ++ recordedByRun email calls' results')%list
  | _, _ => []
  end.

(** A stored list respects the limits of [VALIDATION_RULES]: a title of 1 to
    100 characters, at most 100 tasks, task texts of at most 200 characters. *)
Definition withinLimits (l : List) : Prop :=
  1 <= Js.strlen (list_title l) <= VALIDATION_RULES.MAX_LIST_TITLE_LENGTH /\
  Z.of_nat (length (list_tasks l)) <= VALIDATION_RULES.MAX_TASKS_PER_LIST /\
  Forall (fun t => Js.strlen (task_text t) <= VALIDATION_RULES.MAX_TASK_TEXT_LENGTH)
         (list_tasks l).

(** Every list of every partition satisfies [P]. *)
Definition everyList (P : List -> Prop) (w : World) : Prop :=
  forall (o : string) (l : List), In l (ListService.storedLists w o) -> P l.

(** A string without white space. *)
Fixpoint noSpace (s : string) : bool :=
  match s with
  | EmptyString => true
  | String c rest => negb (Js.isWhitespace c) && noSpace rest
  end.

(** [w'] has the directory, the session and the recorded sign-in attempts
    of [w]. *)
Definition sameAccounts (w w' : World) : Prop :=
  MOCK_USERS w' = MOCK_USERS w /\ session w' = session w /\
  loginAttempts w' = loginAttempts w.

(** At most ten attempts are on record for an email, each carrying it. *)
Definition attemptsBounded (w : World) : Prop :=
  forall email,
    (length (AuthService.getLoginAttempts w email) <= 10)%nat /\
    Forall (fun a => la_email a = email) (AuthService.getLoginAttempts w email).

(** The cached views carry statistics that agree with their tasks. *)
Definition cacheRecomputed (w : World) : Prop :=
  forall k ls, cache w !! k = Some ls -> Forall statsRecomputed ls.

(** [w'] caches nothing that [w] does not. *)
Definition cacheShrinks (w w' : World) : Prop :=
  forall k ls, cache w' !! k = Some ls -> cache w !! k = Some ls.

(** The tasks with the id [taskId] are one task, and it is pending. *)
Definition onePending (taskId : string) (tasks : list Task) : Prop :=
  exists before t after,
    tasks = (before ++ t :: after)%list /\
    task_id t = taskId /\ task_completed t = false /\
    Forall (fun t' => task_id t' <> taskId) (before ++ after)%list.

(* ===================================================================== *)
(** ** Concrete runs, from a fresh install                                *)
(* ===================================================================== *)

Module Scenario.

(** Every run below passes one filter object; its serialisation is fixed. *)
Definition stringify : ListFilter -> string := fun _ => "{}".

Definition noFilter : ListFilter := mkFilter None None None None None None.

(** A clock reading, and identifiers [<prefix>0], [<prefix>1], ... *)
Definition env (t : Timestamp) (prefix : string) : Env :=
  mkEnv t (fun n => prefix ++ natToString n).

(** User 1 opens the application: the two example lists [a0] (private) and
    [a5] (shared with anna@example.com, user 2) are written. *)
Definition seeded : World :=
  snd (ListService.loadUserLists stringify (env 1000 "a") initialWorld "1" noFilter).

(** The client of user 1 after its first load, and after it then deletes the
    completed task [a2] of the list [a0]. *)
Definition clientLoaded : World * ListState :=
  ListContext.refreshLists stringify (env 1000 "a") "1" (initialWorld, initialListState).

Definition clientAfterDelete : ApiResponse unit * (World * ListState) :=
  ListContext.deleteTask (env 2000 "b") "1" "a0" "a2" clientLoaded.

(** User 2, a collaborator of [a5], replaces its [sharedWith]. *)
Definition collaboratorReshares : ApiResponse ListWithStats * World :=
  ListService.updateList (env 2000 "b") seeded "2" "a5"
    {| ul_title := None;
       ul_sharedWith := Some ["anna@example.com"; "test@example.com"] |}.

(** User 2 loads its lists (the view is cached), user 1 deletes [a5], user 2
    loads again. *)
Definition collaboratorLoaded : World :=
  snd (ListService.loadUserLists stringify (env 2000 "b") seeded "2" noFilter).

Definition ownerDeletes : ApiResponse unit * World :=
  ListService.deleteList collaboratorLoaded "1" "a5".

Definition collaboratorReloads : ApiResponse (list ListWithStats) * World :=
  ListService.loadUserLists stringify (env 3000 "c") (snd ownerDeletes) "2" noFilter.

(** User 1 writes eleven emails into [sharedWith] of its list [a0]. *)
Definition elevenEmails : list string :=
  List.map (fun n => "u" ++ natToString n ++ "@example.com") (seq 0 11).

Definition ownerOvershares : ApiResponse ListWithStats * World :=
  ListService.updateList (env 2000 "b") seeded "1" "a0"
    {| ul_title := None; ul_sharedWith := Some elevenEmails |}.

(** User 3 is neither the owner of [a0] nor in its [sharedWith]. *)
Definition outsiderUpdates : ApiResponse ListWithStats * World :=
  ListService.updateList (env 2000 "b") seeded "3" "a0"
    {| ul_title := Some "Mine"; ul_sharedWith := None |}.

Definition outsiderDeletes : ApiResponse unit * World :=
  ListService.deleteList seeded "3" "a0".

Definition outsiderShares : ApiResponse unit * World :=
  ListService.shareList (env 2000 "b") seeded "3"
    {| sl_listId := "a0"; sl_userEmail := "anna@example.com" |}.

(** User 1 toggles the completed task [a2] of [a0] twice. *)
Definition toggledOnce : ApiResponse Task * World :=
  ListService.toggleTask (env 2000 "b") seeded "1" "a0" "a2".

Definition toggledTwice : ApiResponse Task * World :=
  ListService.toggleTask (env 3000 "c") (snd toggledOnce) "1" "a0" "a2".

(** Sign-ins for user@example.com, one per millisecond from 0 on: four with
    a wrong password, six with the right one, one more with a wrong one. *)
Definition passwords : list string :=
  (repeat "wrongpass" 4 ++ repeat "password123" 6 ++ ["wrongpass"])%list.

Definition calls : list (Env * string) :=
  Js.mapi (fun password k => (env (Z.of_nat k) "t", password)) passwords.

Definition elevenSignIns : list (ApiResponse (User * Token)) * World :=
  signInEach initialWorld "user@example.com" calls.

Definition twelfthSignIn : ApiResponse (User * Token) * World :=
  AuthService.signIn (env 11 "t") (snd elevenSignIns) "user@example.com" "password123".

(** Sign-ins for user@example.com, one per millisecond from 0 on: two wrong
    passwords, the right one, three wrong ones. *)
Definition mixedCalls : list (Env * string) :=
  Js.mapi (fun password k => (env (Z.of_nat k) "t", password))
          ["wrongpass"; "wrongpass"; "password123"; "wrongpass"; "wrongpass"; "wrongpass"].

(** A user with fifty stored lists. *)
Definition oneList (n : nat) : List :=
  mkList ("l" ++ natToString n) "Lista" "1" [] [] 0 None.

Definition fullWorld : World :=
  setStorage initialWorld {[ ListService.getUserListsKey "1" := List.map oneList (seq 0 50) ]}.

End Scenario.

(* ===================================================================== *)
(** ** Facts about the helpers                                            *)
(* ===================================================================== *)

Import ListService.
Local Open Scope list_scope.

Section ArrayFacts.

Context {A : Type}.
Implicit Types (p : A -> bool) (l : list A) (i : nat).

Lemma findIndex_Some p l i :
  Js.findIndex p l = Some i ->
  exists x, nth_error l i = Some x /\ p x = true.
Proof.
  revert i. induction l as [|y l IH]; intros i; simpl; [discriminate|].
  destruct (p y) eqn:Hy.
  - intros [= <-]. exists y. split; [reflexivity | exact Hy].
  - destruct (Js.findIndex p l) as [j|]; [|discriminate].
    intros [= <-]. simpl. apply IH. reflexivity.
Qed.

Lemma findIndex_None p l :
  Js.findIndex p l = None -> forall x, In x l -> p x = false.
Proof.
  induction l as [|y l IH]; simpl; [intros _ x []|].
  destruct (p y) eqn:Hy; [discriminate|].
  destruct (Js.findIndex p l); [discriminate|].
  intros _ x [<-|Hin]; [exact Hy | apply IH; [reflexivity | exact Hin]].
Qed.

Lemma findIndex_find p l :
  List.find p l =
  match Js.findIndex p l with Some i => nth_error l i | None => None end.
Proof.
  induction l as [|y l IH]; simpl; [reflexivity|].
  destruct (p y); [reflexivity|].
  rewrite IH. destruct (Js.findIndex p l); reflexivity.
Qed.

Lemma findIndex_insert p l i x :
  Js.findIndex p l = Some i -> p x = true ->
  Js.findIndex p (<[i:=x]> l) = Some i.
Proof.
  revert i. induction l as [|y l IH]; intros i; simpl; [discriminate|].
  destruct (p y) eqn:Hy.
  - intros [= <-] Hx. simpl. rewrite Hx. reflexivity.
  - destruct (Js.findIndex p l) as [j|] eqn:Hj; [|discriminate].
    intros [= <-] Hx. simpl. rewrite Hy, (IH j eq_refl Hx). reflexivity.
Qed.

Lemma nth_error_insert l i x y :
  nth_error l i = Some y -> nth_error (<[i:=x]> l) i = Some x.
Proof.
  revert i. induction l as [|z l IH]; intros [|i]; simpl; try discriminate.
  - reflexivity.
  - apply IH.
Qed.

Lemma In_insert l i x y : In y (<[i:=x]> l) -> y = x \/ In y l.
Proof.
  revert i. induction l as [|z l IH]; intros [|i]; simpl; try tauto.
  - intros [<-|H]; auto.
  - intros [<-|H]; auto. destruct (IH _ H); auto.
Qed.

Lemma mapi_from_past (m k : nat) (x : A) l :
  (k < m)%nat ->
  Js.mapi_from m (fun t index => if (index =? k)%nat then x else t) l = l.
Proof.
  revert m. induction l as [|a l IH]; intros m Hm; cbn [Js.mapi_from]; [reflexivity|].
  destruct (Nat.eqb_spec m k); [lia|]. f_equal. apply IH. lia.
Qed.

Lemma mapi_from_replace (k i : nat) (x : A) l :
  Js.mapi_from k (fun t index => if (index =? k + i)%nat then x else t) l = <[i:=x]> l.
Proof.
  revert k i. induction l as [|z l IH]; intros k i; cbn [Js.mapi_from]; [reflexivity|].
  destruct i as [|i].
  - rewrite Nat.add_0_r, Nat.eqb_refl. cbn. f_equal. apply mapi_from_past. lia.
  - destruct (Nat.eqb_spec k (k + S i)); [lia|]. cbn. f_equal.
    replace (k + S i)%nat with (S k + i)%nat by lia. apply IH.
Qed.

End ArrayFacts.

Lemma replaceAt_insert (i : nat) (x : Task) (tasks : list Task) :
  ListService.replaceAt i x tasks = <[i:=x]> tasks.
Proof. unfold ListService.replaceAt, Js.mapi. apply (mapi_from_replace 0 i). Qed.

Lemma getUserListsKey_inj a b :
  ListService.getUserListsKey a = ListService.getUserListsKey b -> a = b.
Proof. unfold ListService.getUserListsKey. simpl. intros [= H]. exact H. Qed.

(* ===================================================================== *)
(** ** Facts about the store and the lookup                               *)
(* ===================================================================== *)

Module ListFacts.

Import ListService.

Lemma storedLists_saveUserLists w o ls u :
  storedLists (saveUserLists w o ls) u = if String.eqb u o then ls else storedLists w u.
Proof.
  unfold storedLists, saveUserLists. simpl.
  destruct (String.eqb_spec u o) as [->|Hne].
  - rewrite lookup_insert_eq. reflexivity.
  - rewrite lookup_insert_ne; [reflexivity|].
    intros H. apply Hne. symmetry. exact (getUserListsKey_inj _ _ H).
Qed.

Lemma MOCK_USERS_saveUserLists w o ls : MOCK_USERS (saveUserLists w o ls) = MOCK_USERS w.
Proof. reflexivity. Qed.

Lemma getCurrentUserEmail_users w w' u :
  MOCK_USERS w' = MOCK_USERS w -> getCurrentUserEmail w' u = getCurrentUserEmail w u.
Proof. unfold getCurrentUserEmail. intros ->. reflexivity. Qed.

Lemma canUserEditList_users w w' l l' u :
  MOCK_USERS w' = MOCK_USERS w ->
  list_ownerId l' = list_ownerId l -> list_sharedWith l' = list_sharedWith l ->
  canUserEditList w' l' u = canUserEditList w l u.
Proof.
  intros Hu Ho Hs. unfold canUserEditList.
  rewrite Ho, Hs, (getCurrentUserEmail_users w w' u Hu). reflexivity.
Qed.

Lemma storedLists_In w u l :
  In l (storedLists w u) ->
  exists stored, storage w !! getUserListsKey u = Some stored /\ In l stored.
Proof.
  unfold storedLists. destruct (storage w !! getUserListsKey u) as [stored|]; simpl.
  - intros H. exists stored. auto.
  - intros [].
Qed.

(** What a successful first pass returns. *)
Lemma findOwned_Some w u lid found :
  findOwned w u lid = Some found ->
  f_ownerId found = u /\
  f_ownerLists found = storedLists w u /\
  Js.findIndex (fun l => String.eqb (list_id l) lid) (storedLists w u)
    = Some (f_listIndex found) /\
  nth_error (storedLists w u) (f_listIndex found) = Some (f_list found).
Proof.
  unfold findOwned.
  destruct (Js.findIndex _ (storedLists w u)) as [i|] eqn:Hi; [|discriminate].
  destruct (nth_error (storedLists w u) i) as [l|] eqn:Hl; [|discriminate].
  intros [= <-]. simpl. auto.
Qed.

(** What a successful second pass returns. *)
Lemma findShared_Some w u lid e users found :
  findShared w u lid e users = Some found ->
  f_ownerId found <> u /\
  In (f_ownerId found) (List.map user_id users) /\
  f_ownerLists found = storedLists w (f_ownerId found) /\
  Js.findIndex (sharedMatch lid e) (storedLists w (f_ownerId found))
    = Some (f_listIndex found) /\
  nth_error (storedLists w (f_ownerId found)) (f_listIndex found) = Some (f_list found).
Proof.
  induction users as [|user rest IH]; simpl; [discriminate|].
  assert (Hrest : findShared w u lid e rest = Some found ->
      f_ownerId found <> u /\
      (user_id user = f_ownerId found \/ In (f_ownerId found) (List.map user_id rest)) /\
      f_ownerLists found = storedLists w (f_ownerId found) /\
      Js.findIndex (sharedMatch lid e) (storedLists w (f_ownerId found))
        = Some (f_listIndex found) /\
      nth_error (storedLists w (f_ownerId found)) (f_listIndex found) = Some (f_list found)).
  { intros H. destruct (IH H) as (? & ? & ? & ? & ?). auto 10. }
  destruct (String.eqb_spec (user_id user) u) as [Heq|Hne]; simpl; [exact Hrest|].
  destruct (Js.findIndex _ (storedLists w (user_id user))) as [i|] eqn:Hi; [|exact Hrest].
  destruct (nth_error (storedLists w (user_id user)) i) as [l|] eqn:Hl; [|exact Hrest].
  intros [= <-]. simpl. auto 10.
Qed.

Lemma findListById_cases w u lid found :
  findListById w u lid = Some found ->
  findOwned w u lid = Some found \/
  (findOwned w u lid = None /\
   exists e, getCurrentUserEmail w u = Some e /\
             findShared w u lid e (MOCK_USERS w) = Some found).
Proof.
  unfold findListById. destruct (findOwned w u lid) as [f|].
  - intros [= <-]. left. reflexivity.
  - destruct (getCurrentUserEmail w u) as [e|]; [|discriminate].
    intros H. right. split; [reflexivity|]. exists e. auto.
Qed.

(** The record a lookup returns is stored, under the owner it names, at the
    index it names, and carries the id that was asked for. *)
Lemma findListById_Some w u lid found :
  findListById w u lid = Some found ->
  f_ownerLists found = storedLists w (f_ownerId found) /\
  nth_error (storedLists w (f_ownerId found)) (f_listIndex found) = Some (f_list found) /\
  In (f_list found) (storedLists w (f_ownerId found)) /\
  list_id (f_list found) = lid.
Proof.
  intros H. destruct (findListById_cases _ _ _ _ H) as [Ho|(_ & e & _ & Hs)].
  - destruct (findOwned_Some _ _ _ _ Ho) as (-> & Hl & Hi & Hn).
    destruct (findIndex_Some _ _ _ Hi) as (x & Hx & Hp).
    rewrite Hn in Hx. injection Hx as <-.
    repeat split; auto.
    + eapply nth_error_In; eassumption.
    + apply String.eqb_eq. exact Hp.
  - destruct (findShared_Some _ _ _ _ _ _ Hs) as (_ & _ & Hl & Hi & Hn).
    destruct (findIndex_Some _ _ _ Hi) as (x & Hx & Hp).
    rewrite Hn in Hx. injection Hx as <-.
    repeat split; auto.
    + eapply nth_error_In; eassumption.
    + unfold sharedMatch in Hp. apply andb_true_iff in Hp as [Hp _].
      apply String.eqb_eq. exact Hp.
Qed.

(** A record found in the second pass is shared with the requester. *)
Lemma findShared_canEdit w u lid e users found :
  getCurrentUserEmail w u = Some e ->
  findShared w u lid e users = Some found ->
  canUserEditList w (f_list found) u = true.
Proof.
  intros He Hs. destruct (findShared_Some _ _ _ _ _ _ Hs) as (_ & _ & _ & Hi & Hn).
  destruct (findIndex_Some _ _ _ Hi) as (x & Hx & Hp).
  rewrite Hn in Hx. injection Hx as <-.
  unfold sharedMatch in Hp. apply andb_true_iff in Hp as [_ Hp].
  unfold canUserEditList. rewrite He, Hp. destruct (String.eqb _ _); reflexivity.
Qed.

End ListFacts.

(* ===================================================================== *)
(** ** The partitions are owner-keyed                                   *)
(* ===================================================================== *)

Module OwnerKeyed.

Import ListService ListFacts.

Lemma of_storage w w' : storage w' = storage w -> ownerKeyed w -> ownerKeyed w'.
Proof. unfold ownerKeyed. intros ->. auto. Qed.

Lemma stored w u l : ownerKeyed w -> In l (storedLists w u) -> list_ownerId l = u.
Proof.
  intros Hw Hin. destruct (storedLists_In _ _ _ Hin) as (stored & Hs & Hl).
  exact (Hw _ _ _ Hs Hl).
Qed.

Lemma save w o ls :
  ownerKeyed w -> (forall l, In l ls -> list_ownerId l = o) ->
  ownerKeyed (saveUserLists w o ls).
Proof.
  intros Hw Hls u stored l. unfold saveUserLists. simpl.
  destruct (String.eqb_spec u o) as [->|Hne].
  - rewrite lookup_insert_eq. intros [= <-]. apply Hls.
  - rewrite lookup_insert_ne; [apply Hw|].
    intros H. apply Hne. symmetry. exact (getUserListsKey_inj _ _ H).
Qed.

Lemma writeBack_keeps w u lid found updated :
  ownerKeyed w -> findListById w u lid = Some found ->
  list_ownerId updated = list_ownerId (f_list found) ->
  ownerKeyed (writeBack w found updated).
Proof.
  intros Hw Hf Ho. destruct (findListById_Some _ _ _ _ Hf) as (Hl & _ & Hin & _).
  unfold writeBack. apply save; [exact Hw|].
  intros l Hl'. apply In_insert in Hl' as [->|Hl'].
  - rewrite Ho. eapply stored; eassumption.
  - rewrite Hl in Hl'. eapply stored; eassumption.
Qed.

Lemma createList_keeps env w u payload :
  ownerKeyed w -> ownerKeyed (snd (createList env w u payload)).
Proof.
  intros Hw. unfold createList.
  destruct (negb _); [exact Hw|].
  destruct (50 <=? _)%nat; [exact Hw|].
  cbn [snd]. apply save; [exact Hw|].
  intros l [<-|Hl]; [reflexivity | eapply stored; eassumption].
Qed.

Lemma updateList_keeps env w u lid updates :
  ownerKeyed w -> ownerKeyed (snd (updateList env w u lid updates)).
Proof.
  intros Hw. unfold updateList.
  destruct (findListById w u lid) as [found|] eqn:Hf; [|exact Hw].
  destruct (negb _); [exact Hw|].
  destruct (match ul_title updates with Some _ => _ | None => _ end); [exact Hw|].
  cbn [snd]. eapply writeBack_keeps; [exact Hw | exact Hf | reflexivity].
Qed.

Lemma deleteList_keeps w u lid :
  ownerKeyed w -> ownerKeyed (snd (deleteList w u lid)).
Proof.
  intros Hw. unfold deleteList.
  destruct (List.find _ _) as [l|]; [|exact Hw].
  destruct (negb _); [exact Hw|].
  cbn [snd]. apply save; [exact Hw|].
  intros l' Hl'. apply filter_In in Hl' as [Hl' _]. eapply stored; eassumption.
Qed.

Lemma shareList_keeps env w u payload :
  ownerKeyed w -> ownerKeyed (snd (shareList env w u payload)).
Proof.
  intros Hw. unfold shareList.
  destruct (negb _); [exact Hw|].
  destruct (List.find _ _) as [target|]; [|exact Hw].
  destruct (String.eqb _ u); [exact Hw|].
  destruct (Js.findIndex _ _) as [i|]; [|exact Hw].
  destruct (nth_error _ i) as [l|] eqn:Hl; [|exact Hw].
  destruct (negb _); [exact Hw|].
  destruct (Js.arrIncludes _ _); [exact Hw|].
  destruct (_ <=? _); [exact Hw|].
  cbn [snd]. eapply of_storage; [reflexivity|].
  apply save; [exact Hw|].
  intros l' Hl'. apply In_insert in Hl' as [->|Hl'].
  - simpl. eapply stored; [exact Hw|]. eapply nth_error_In; eassumption.
  - eapply stored; eassumption.
Qed.

Lemma addTask_keeps env w u payload :
  ownerKeyed w -> ownerKeyed (snd (addTask env w u payload)).
Proof.
  intros Hw. unfold addTask.
  destruct (negb _); [exact Hw|].
  destruct (findListById w u _) as [found|] eqn:Hf; [|exact Hw].
  destruct (negb _); [exact Hw|].
  destruct (_ <=? _); [exact Hw|].
  cbn [snd]. eapply writeBack_keeps; [exact Hw | exact Hf | reflexivity].
Qed.

Lemma updateTask_keeps env w u lid tid updates :
  ownerKeyed w -> ownerKeyed (snd (updateTask env w u lid tid updates)).
Proof.
  intros Hw. unfold updateTask.
  destruct (findListById w u lid) as [found|] eqn:Hf; [|exact Hw].
  destruct (negb _); [exact Hw|].
  destruct (Js.findIndex _ _) as [i|]; [|exact Hw].
  destruct (match ut_text updates with Some _ => _ | None => _ end); [exact Hw|].
  destruct (nth_error _ i) as [task|]; [|exact Hw].
  cbn [snd]. eapply writeBack_keeps; [exact Hw | exact Hf | reflexivity].
Qed.

Lemma deleteTask_keeps env w u lid tid :
  ownerKeyed w -> ownerKeyed (snd (deleteTask env w u lid tid)).
Proof.
  intros Hw. unfold deleteTask.
  destruct (findListById w u lid) as [found|] eqn:Hf; [|exact Hw].
  destruct (negb (canUserEditList _ _ _)); [exact Hw|].
  destruct (negb (existsb _ _)); [exact Hw|].
  cbn [snd]. eapply writeBack_keeps; [exact Hw | exact Hf | reflexivity].
Qed.

Lemma toggleTask_keeps env w u lid tid :
  ownerKeyed w -> ownerKeyed (snd (toggleTask env w u lid tid)).
Proof.
  intros Hw. unfold toggleTask.
  destruct (findListById w u lid) as [found|] eqn:Hf; [|exact Hw].
  destruct (negb _); [exact Hw|].
  destruct (Js.findIndex _ _) as [i|]; [|exact Hw].
  destruct (nth_error _ i) as [task|]; [|exact Hw].
  cbn [snd]. eapply writeBack_keeps; [exact Hw | exact Hf | reflexivity].
Qed.

Lemma loadUserLists_keeps stringify env w u f :
  ownerKeyed w -> ownerKeyed (snd (loadUserLists stringify env w u f)).
Proof.
  intros Hw. unfold loadUserLists.
  destruct (cache w !! _); [exact Hw|].
  destruct (storage w !! getUserListsKey u) as [stored|] eqn:Hs.
  - cbn [snd]. eapply of_storage; [reflexivity | exact Hw].
  - cbn [snd]. eapply of_storage; [reflexivity|].
    intros u' stored' l. simpl.
    destruct (String.eqb_spec u' u) as [->|Hne].
    + rewrite lookup_insert_eq. intros [= <-].
      simpl. intros [<-|[<-|[]]]; reflexivity.
    + rewrite lookup_insert_ne; [apply Hw|].
      intros H. apply Hne. symmetry. exact (getUserListsKey_inj _ _ H).
Qed.

Lemma signIn_keeps env w email password :
  ownerKeyed w -> ownerKeyed (snd (AuthService.signIn env w email password)).
Proof.
  intros Hw. unfold AuthService.signIn.
  destruct (negb _); [exact Hw|].
  destruct (AuthService.isUserLockedOut _ _ _); [exact Hw|].
  destruct (List.find _ _); cbn [snd]; (eapply of_storage; [reflexivity | exact Hw]).
Qed.

Lemma signUp_keeps env w name email password :
  ownerKeyed w -> ownerKeyed (snd (AuthService.signUp env w name email password)).
Proof.
  intros Hw. unfold AuthService.signUp.
  destruct (negb _); [exact Hw|].
  destruct (List.find _ _); cbn [snd]; [exact Hw|].
  eapply of_storage; [reflexivity | exact Hw].
Qed.

(** Every call keeps the partitions owner-keyed. *)
Lemma step_keeps stringify env w c :
  ownerKeyed w -> ownerKeyed (step stringify env w c).
Proof.
  destruct c; cbn [step];
    auto using loadUserLists_keeps, createList_keeps, updateList_keeps, deleteList_keeps,
      shareList_keeps, addTask_keeps, updateTask_keeps, deleteTask_keeps, toggleTask_keeps,
      signIn_keeps, signUp_keeps.
Qed.

Lemma initial : ownerKeyed initialWorld.
Proof. intros u stored l. simpl. rewrite lookup_empty. discriminate. Qed.

End OwnerKeyed.

(* ===================================================================== *)
(** ** Calls of a user who may not edit                                 *)
(* ===================================================================== *)

Module Outsider.

Import ListService ListFacts.

Lemma owner_canEdit w l u : list_ownerId l = u -> canUserEditList w l u = true.
Proof. intros <-. unfold canUserEditList. rewrite String.eqb_refl. reflexivity. Qed.

(** Whatever the lookup returns to an outsider, the outsider may not edit. *)
Lemma found_not_editable w u lid found :
  outsider w u lid -> findListById w u lid = Some found ->
  canUserEditList w (f_list found) u = false.
Proof.
  intros Ho Hf. destruct (findListById_Some _ _ _ _ Hf) as (_ & _ & Hin & Hid).
  exact (Ho _ _ Hin Hid).
Qed.

(** In owner-keyed partitions the lookup returns nothing to an outsider. *)
Lemma not_found w u lid :
  ownerKeyed w -> outsider w u lid -> findListById w u lid = None.
Proof.
  intros Hw Ho. destruct (findListById w u lid) as [found|] eqn:Hf; [|reflexivity].
  pose proof (found_not_editable _ _ _ _ Ho Hf) as Hno.
  destruct (findListById_cases _ _ _ _ Hf) as [Hown|(_ & e & He & Hs)].
  - destruct (findOwned_Some _ _ _ _ Hown) as (_ & _ & _ & Hn).
    apply nth_error_In in Hn.
    destruct (storedLists_In _ _ _ Hn) as (stored & Hs & Hl).
    rewrite (owner_canEdit w _ u (Hw _ _ _ Hs Hl)) in Hno. discriminate.
  - rewrite (findShared_canEdit _ _ _ _ _ _ He Hs) in Hno. discriminate.
Qed.

Lemma own_partition_clear w u lid l :
  ownerKeyed w -> outsider w u lid ->
  In l (storedLists w u) -> list_id l = lid -> False.
Proof.
  intros Hw Ho Hin Hid.
  destruct (storedLists_In _ _ _ Hin) as (stored & Hs & Hl).
  pose proof (Ho _ _ Hin Hid) as Hno.
  rewrite (owner_canEdit w _ u (Hw _ _ _ Hs Hl)) in Hno. discriminate.
Qed.

Ltac refuse_with e := exists e; split; [reflexivity | simpl; tauto].

Lemma updateList_refused env w u lid updates :
  outsider w u lid ->
  refused (updateList env w u lid updates) w
    [ERROR_MESSAGES.LIST_NOT_FOUND; ERROR_MESSAGES.NO_EDIT_PERMISSION].
Proof.
  intros Ho. unfold updateList.
  destruct (findListById w u lid) as [found|] eqn:Hf.
  - rewrite (found_not_editable _ _ _ _ Ho Hf). refuse_with ERROR_MESSAGES.NO_EDIT_PERMISSION.
  - refuse_with ERROR_MESSAGES.LIST_NOT_FOUND.
Qed.

Lemma updateTask_refused env w u lid tid updates :
  outsider w u lid ->
  refused (updateTask env w u lid tid updates) w
    [ERROR_MESSAGES.LIST_NOT_FOUND; ERROR_MESSAGES.NO_EDIT_PERMISSION].
Proof.
  intros Ho. unfold updateTask.
  destruct (findListById w u lid) as [found|] eqn:Hf.
  - rewrite (found_not_editable _ _ _ _ Ho Hf). refuse_with ERROR_MESSAGES.NO_EDIT_PERMISSION.
  - refuse_with ERROR_MESSAGES.LIST_NOT_FOUND.
Qed.

Lemma deleteTask_refused env w u lid tid :
  outsider w u lid ->
  refused (deleteTask env w u lid tid) w
    [ERROR_MESSAGES.LIST_NOT_FOUND; ERROR_MESSAGES.NO_EDIT_PERMISSION].
Proof.
  intros Ho. unfold deleteTask.
  destruct (findListById w u lid) as [found|] eqn:Hf.
  - rewrite (found_not_editable _ _ _ _ Ho Hf). refuse_with ERROR_MESSAGES.NO_EDIT_PERMISSION.
  - refuse_with ERROR_MESSAGES.LIST_NOT_FOUND.
Qed.

Lemma toggleTask_refused env w u lid tid :
  outsider w u lid ->
  refused (toggleTask env w u lid tid) w
    [ERROR_MESSAGES.LIST_NOT_FOUND; ERROR_MESSAGES.NO_EDIT_PERMISSION].
Proof.
  intros Ho. unfold toggleTask.
  destruct (findListById w u lid) as [found|] eqn:Hf.
  - rewrite (found_not_editable _ _ _ _ Ho Hf). refuse_with ERROR_MESSAGES.NO_EDIT_PERMISSION.
  - refuse_with ERROR_MESSAGES.LIST_NOT_FOUND.
Qed.

Lemma addTask_refused env w u lid text :
  outsider w u lid ->
  refused (addTask env w u {| ct_text := text; ct_listId := lid |}) w
    [ERROR_MESSAGES.TASK_TEXT_REQUIRED; ERROR_MESSAGES.TASK_TEXT_TOO_LONG;
     ERROR_MESSAGES.LIST_NOT_FOUND; ERROR_MESSAGES.NO_EDIT_PERMISSION].
Proof.
  intros Ho. unfold addTask, validationSchemas.addTask, validators.taskText. cbn [ct_text ct_listId].
  destruct (negb (Js.truthy (Js.trim text))).
  { refuse_with ERROR_MESSAGES.TASK_TEXT_REQUIRED. }
  destruct (negb (isValidTaskText text)).
  { refuse_with ERROR_MESSAGES.TASK_TEXT_TOO_LONG. }
  cbn.
  destruct (findListById w u lid) as [found|] eqn:Hf.
  - rewrite (found_not_editable _ _ _ _ Ho Hf). refuse_with ERROR_MESSAGES.NO_EDIT_PERMISSION.
  - refuse_with ERROR_MESSAGES.LIST_NOT_FOUND.
Qed.

Lemma deleteList_refused w u lid :
  outsider w u lid ->
  refused (deleteList w u lid) w
    [ERROR_MESSAGES.LIST_NOT_FOUND; ERROR_MESSAGES.ONLY_OWNER_CAN_DELETE].
Proof.
  intros Ho. unfold deleteList.
  destruct (List.find _ _) as [l|] eqn:Hl.
  - apply find_some in Hl as [Hin Hid]. apply String.eqb_eq in Hid.
    pose proof (Ho _ _ Hin Hid) as Hno.
    destruct (String.eqb_spec (list_ownerId l) u) as [Heq|_].
    + rewrite (owner_canEdit w l u Heq) in Hno. discriminate.
    + refuse_with ERROR_MESSAGES.ONLY_OWNER_CAN_DELETE.
  - refuse_with ERROR_MESSAGES.LIST_NOT_FOUND.
Qed.

Lemma shareList_refused env w u lid email :
  outsider w u lid ->
  refused (shareList env w u {| sl_listId := lid; sl_userEmail := email |}) w
    [ERROR_MESSAGES.REQUIRED_FIELD; ERROR_MESSAGES.INVALID_EMAIL;
     ERROR_MESSAGES.USER_NOT_FOUND; ERROR_MESSAGES.SHARE_WITH_SELF;
     ERROR_MESSAGES.LIST_NOT_FOUND; ERROR_MESSAGES.ONLY_OWNER_CAN_SHARE] /\
  (ownerKeyed w ->
   refused (shareList env w u {| sl_listId := lid; sl_userEmail := email |}) w
     [ERROR_MESSAGES.REQUIRED_FIELD; ERROR_MESSAGES.INVALID_EMAIL;
      ERROR_MESSAGES.USER_NOT_FOUND; ERROR_MESSAGES.SHARE_WITH_SELF;
      ERROR_MESSAGES.LIST_NOT_FOUND]).
Proof.
  intros Ho. unfold shareList, validationSchemas.shareList, validators.email.
  cbn [sl_listId sl_userEmail].
  destruct (negb (Js.truthy (Js.trim email))).
  { split; [|intros _]; refuse_with ERROR_MESSAGES.REQUIRED_FIELD. }
  destruct (negb (isValidEmail email)).
  { split; [|intros _]; refuse_with ERROR_MESSAGES.INVALID_EMAIL. }
  cbn.
  destruct (List.find _ _) as [target|].
  2:{ split; [|intros _]; refuse_with ERROR_MESSAGES.USER_NOT_FOUND. }
  destruct (String.eqb (user_id target) u).
  { split; [|intros _]; refuse_with ERROR_MESSAGES.SHARE_WITH_SELF. }
  destruct (Js.findIndex _ _) as [i|] eqn:Hi.
  2:{ split; [|intros _]; refuse_with ERROR_MESSAGES.LIST_NOT_FOUND. }
  destruct (findIndex_Some _ _ _ Hi) as (l & Hl & Hid). rewrite Hl.
  apply String.eqb_eq in Hid. apply nth_error_In in Hl.
  pose proof (Ho _ _ Hl Hid) as Hno.
  destruct (String.eqb_spec (list_ownerId l) u) as [Heq|_].
  { rewrite (owner_canEdit w l u Heq) in Hno. discriminate. }
  split; [refuse_with ERROR_MESSAGES.ONLY_OWNER_CAN_SHARE|].
  intros Hw. destruct (own_partition_clear _ _ _ _ Hw Ho Hl Hid).
Qed.

End Outsider.

(* ===================================================================== *)
(** ** The lookup after a write-back                                    *)
(* ===================================================================== *)

Module WriteBack.

Import ListService ListFacts.

Section Rewritten.

(** [w'] is [w] with the record at [index] of the partition of [owner]
    replaced by [updated], which keeps the id and the collaborators. *)
Variables (w w' : World) (owner : string) (index : nat) (updated : List).
Hypothesis users_kept : MOCK_USERS w' = MOCK_USERS w.
Hypothesis stored_after : forall x,
  storedLists w' x =
  if String.eqb x owner then <[index:=updated]> (storedLists w owner) else storedLists w x.

Lemma findShared_rewritten u lid e users found :
  sharedMatch lid e updated = true ->
  findShared w u lid e users = Some found ->
  f_ownerId found = owner -> f_listIndex found = index ->
  findShared w' u lid e users
    = Some (mkFound updated owner index (<[index:=updated]> (storedLists w owner))).
Proof.
  intros Hm Hf Ho Hi.
  destruct (findShared_Some _ _ _ _ _ _ Hf) as (_ & _ & _ & Hidx & _).
  rewrite Ho, Hi in Hidx.
  induction users as [|user rest IH]; simpl in *; [discriminate|].
  destruct (String.eqb (user_id user) u); simpl in *; [auto|].
  rewrite stored_after.
  destruct (String.eqb_spec (user_id user) owner) as [Heq|Hne].
  - rewrite Heq in *. rewrite Hidx in Hf.
    rewrite (findIndex_insert _ _ _ _ Hidx Hm).
    destruct (findIndex_Some _ _ _ Hidx) as (x & Hx & _).
    rewrite (nth_error_insert _ _ updated _ Hx). reflexivity.
  - destruct (Js.findIndex _ (storedLists w (user_id user))) as [i|] eqn:Hi'; [|auto].
    destruct (findIndex_Some _ _ _ Hi') as (x & Hx & _). rewrite Hx in Hf |- *.
    injection Hf as <-. simpl in Ho. congruence.
Qed.

Lemma findListById_rewritten u lid found :
  findListById w u lid = Some found ->
  f_ownerId found = owner -> f_listIndex found = index ->
  list_id updated = list_id (f_list found) ->
  list_sharedWith updated = list_sharedWith (f_list found) ->
  findListById w' u lid
    = Some (mkFound updated owner index (<[index:=updated]> (storedLists w owner))).
Proof.
  intros Hf Ho Hi Hid Hsh.
  destruct (findListById_Some _ _ _ _ Hf) as (_ & _ & _ & Hlid).
  destruct (findListById_cases _ _ _ _ Hf) as [Hown|(Hnone & e & He & Hs)].
  - destruct (findOwned_Some _ _ _ _ Hown) as (Hu & _ & Hidx & Hn).
    rewrite Ho in Hu. subst u. rewrite Hi in Hidx, Hn.
    unfold findListById, findOwned. rewrite stored_after, String.eqb_refl.
    rewrite (findIndex_insert _ _ _ updated Hidx).
    + rewrite (nth_error_insert _ _ updated _ Hn). reflexivity.
    + apply String.eqb_eq. congruence.
  - destruct (findShared_Some _ _ _ _ _ _ Hs) as (Hne & _ & _ & Hidx & Hn).
    rewrite Ho in Hne.
    assert (Hown' : findOwned w' u lid = None).
    { unfold findOwned in Hnone |- *. rewrite stored_after.
      destruct (String.eqb_spec u owner) as [->|_]; [congruence | exact Hnone]. }
    unfold findListById. rewrite Hown', (getCurrentUserEmail_users w w' u users_kept), He.
    rewrite users_kept. apply (findShared_rewritten _ _ _ _ found); auto.
    destruct (findIndex_Some _ _ _ Hidx) as (x & Hx & Hp).
    rewrite Hn in Hx. injection Hx as <-.
    unfold sharedMatch in Hp |- *. rewrite Hid, Hsh. exact Hp.
Qed.

End Rewritten.

(** After a write-back that keeps the id and the collaborators of the record,
    the same requester finds the new record at the same place. *)
Lemma findListById_writeBack w u lid found updated :
  findListById w u lid = Some found ->
  list_id updated = list_id (f_list found) ->
  list_sharedWith updated = list_sharedWith (f_list found) ->
  findListById (writeBack w found updated) u lid
    = Some (mkFound updated (f_ownerId found) (f_listIndex found)
              (<[f_listIndex found := updated]> (f_ownerLists found))).
Proof.
  intros Hf Hid Hsh.
  destruct (findListById_Some _ _ _ _ Hf) as (Hl & _).
  rewrite Hl.
  apply (findListById_rewritten w _ (f_ownerId found) (f_listIndex found) updated)
    with (found := found); auto.
  intros x. unfold writeBack. rewrite storedLists_saveUserLists, Hl. reflexivity.
Qed.

End WriteBack.

Module Toggle.

Import ListService ListFacts.

(** A successful [toggleTask], spelled out. *)
Lemma toggleTask_success env w u lid tid :
  success (fst (toggleTask env w u lid tid)) = true ->
  exists found index task,
    findListById w u lid = Some found /\
    canUserEditList w (f_list found) u = true /\
    Js.findIndex (fun t => String.eqb (task_id t) tid) (list_tasks (f_list found))
      = Some index /\
    nth_error (list_tasks (f_list found)) index = Some task /\
    data (fst (toggleTask env w u lid tid)) = Some (toggled env task) /\
    snd (toggleTask env w u lid tid)
      = writeBack w found
          (withTasks env (f_list found)
             (<[index := toggled env task]> (list_tasks (f_list found)))).
Proof.
  unfold toggleTask.
  destruct (findListById w u lid) as [found|]; [|discriminate].
  destruct (canUserEditList w (f_list found) u) eqn:Hc; [|discriminate].
  cbn [negb].
  destruct (Js.findIndex _ _) as [index|] eqn:Hi; [|discriminate].
  destruct (nth_error _ index) as [task|] eqn:Hn; [|discriminate].
  intros _. exists found, index, task. rewrite replaceAt_insert.
  repeat split; auto.
Qed.

End Toggle.

Module Resolution.

Import ListService ListFacts.

(** The loop of the second pass returns the first match of the flattened
    scan. *)
Lemma findShared_first w u lid e users :
  option_map resolved (findShared w u lid e users) =
  head
    (flat_map
       (fun other =>
          if String.eqb (user_id other) u then []
          else
            match List.find
                    (fun l => String.eqb (list_id l) lid &&
                              Js.arrIncludes (list_sharedWith l) e)
                    (storedLists w (user_id other)) with
            | Some l => [(l, user_id other)]
            | None => []
            end)
       users).
Proof.
  induction users as [|user rest IH]; [reflexivity|].
  cbn [findShared flat_map].
  destruct (String.eqb (user_id user) u); cbn [negb]; [exact IH|].
  rewrite findIndex_find. fold (sharedMatch lid e).
  destruct (Js.findIndex _ _) as [i|] eqn:Hi; [|exact IH].
  destruct (findIndex_Some _ _ _ Hi) as (l & Hl & _). rewrite Hl. reflexivity.
Qed.

End Resolution.

(* ===================================================================== *)
(** ** The sign-in lockout                                              *)
(* ===================================================================== *)

Module Lockout.

Import AuthService.

Lemma getLoginAttempts_record env w email ok :
  getLoginAttempts (recordLoginAttempt env w email ok) email
  = Js.sliceLast 10 (getLoginAttempts w email ++ [mkAttempt email (now env) ok]).
Proof.
  unfold getLoginAttempts at 1, recordLoginAttempt. simpl.
  rewrite lookup_insert_eq. reflexivity.
Qed.

(** A sign-in answered with "invalid credentials" was recorded as a failure. *)
Lemma invalid_credentials_recorded env w email password :
  error (fst (signIn env w email password)) = Some ERROR_MESSAGES.INVALID_CREDENTIALS ->
  snd (signIn env w email password) = recordLoginAttempt env w email false.
Proof.
  unfold signIn.
  destruct (isValid (validationSchemas.login email password)) eqn:Hv; cbn [negb].
  - destruct (isUserLockedOut env w email); [discriminate|].
    destruct (List.find _ _); [discriminate | reflexivity].
  - revert Hv.
    unfold validationSchemas.login, validators.email, validators.password, firstMessage.
    destruct (negb (Js.truthy (Js.trim email))); [discriminate|].
    destruct (negb (isValidEmail email)); [discriminate|].
    destruct (negb (Js.truthy password)); [discriminate|].
    destruct (negb (isValidPassword password)); [|discriminate].
    destruct (_ <? _); [discriminate|].
    destruct (_ <? _); discriminate.
Qed.

Lemma sliceLast_short {A : Type} (n : nat) (l : list A) :
  (length l <= n)%nat -> Js.sliceLast n l = l.
Proof.
  intros H. unfold Js.sliceLast.
  replace (length l - n)%nat with 0%nat by lia. reflexivity.
Qed.

Lemma sliceLast_length {A : Type} (n : nat) (l : list A) :
  (length (Js.sliceLast n l) <= n)%nat.
Proof. unfold Js.sliceLast. rewrite length_skipn. lia. Qed.

(** Keeping the last [n] after every push keeps the last [n] of all. *)
Lemma sliceLast_app {A : Type} (n : nat) (l more : list A) :
  Js.sliceLast n (Js.sliceLast n l ++ more) = Js.sliceLast n (l ++ more).
Proof.
  unfold Js.sliceLast.
  destruct (Nat.le_gt_cases (length l) n) as [Hle|Hgt].
  - replace (length l - n)%nat with 0%nat by lia. reflexivity.
  - rewrite !length_app, length_skipn.
    rewrite (skipn_app (length l + length more - n)).
    replace (length l + length more - n - length l)%nat with (length more - n)%nat by lia.
    rewrite (skipn_app (length l - (length l - n) + length more - n)).
    rewrite length_skipn.
    replace (length l - (length l - n) + length more - n - (length l - (length l - n)))%nat
      with (length more - n)%nat by lia.
    f_equal. rewrite skipn_skipn. f_equal. lia.
Qed.

Lemma getLoginAttempts_session w s email :
  getLoginAttempts (setSession w s) email = getLoginAttempts w email.
Proof. reflexivity. Qed.

(** A sign-in refused by the validation of its input is not answered
    "invalid credentials". *)
Lemma invalid_input_message email password :
  isValid (validationSchemas.login email password) = false ->
  String.eqb (firstMessage (validationSchemas.login email password)
                ERROR_MESSAGES.INVALID_CREDENTIALS)
             ERROR_MESSAGES.INVALID_CREDENTIALS = false.
Proof.
  unfold validationSchemas.login, validators.email, validators.password, firstMessage.
  destruct (negb (Js.truthy (Js.trim email))); [reflexivity|].
  destruct (negb (isValidEmail email)); [reflexivity|].
  destruct (negb (Js.truthy password)); [reflexivity|].
  destruct (negb (isValidPassword password)); [|discriminate].
  destruct (_ <? _); [reflexivity|].
  destruct (_ <? _); [reflexivity | discriminate].
Qed.

(** What one sign-in leaves on record is what its answer says. *)
Lemma signIn_recorded env w email password :
  (length (getLoginAttempts w email) <= 10)%nat ->
  getLoginAttempts (snd (signIn env w email password)) email
  = Js.sliceLast 10 (getLoginAttempts w email
                     ++ recordedBy email env (fst (signIn env w email password))).
Proof.
  intros Hlen. unfold signIn.
  destruct (isValid (validationSchemas.login email password)) eqn:Hv; cbn [negb].
  - destruct (isUserLockedOut env w email).
    + cbn [fst snd]. unfold recordedBy. cbn [success error failure].
      rewrite List.app_nil_r. symmetry. apply sliceLast_short. exact Hlen.
    + destruct (List.find _ _) as [user|]; cbn [fst snd].
      * rewrite Lockout.getLoginAttempts_record, getLoginAttempts_session. reflexivity.
      * rewrite Lockout.getLoginAttempts_record. reflexivity.
  - cbn [fst snd]. unfold recordedBy. cbn [success error failure].
    rewrite (invalid_input_message _ _ Hv).
    rewrite List.app_nil_r. symmetry. apply sliceLast_short. exact Hlen.
Qed.

(** After a run of sign-ins for an email, the attempts on record are the
    last ten of those on record before and those the answers of the run
    name. *)
Lemma run_recorded email calls : forall w,
  (length (getLoginAttempts w email) <= 10)%nat ->
  getLoginAttempts (snd (signInEach w email calls)) email
  = Js.sliceLast 10 (getLoginAttempts w email
                     ++ recordedByRun email calls (fst (signInEach w email calls))).
Proof.
  induction calls as [|[env password] rest IH]; intros w Hlen.
  - cbn [signInEach fst snd recordedByRun]. rewrite List.app_nil_r.
    symmetry. apply sliceLast_short. exact Hlen.
  - cbn [signInEach].
    pose proof (signIn_recorded env w email password Hlen) as Hone.
    destruct (signIn env w email password) as [result w1].
    cbn [fst snd] in Hone.
    assert (Hlen1 : (length (getLoginAttempts w1 email) <= 10)%nat)
      by (rewrite Hone; apply sliceLast_length).
    specialize (IH w1 Hlen1).
    destruct (signInEach w1 email rest) as [results w2].
    cbn [fst snd recordedByRun] in *.
    rewrite IH, Hone, sliceLast_app, List.app_assoc. reflexivity.
Qed.

Lemma find_existsb {A : Type} (p : A -> bool) (l : list A) :
  match List.find p l with Some _ => true | None => false end = existsb p l.
Proof. induction l as [|x l IH]; simpl; [reflexivity|]. destruct (p x); auto. Qed.

(** [signIn] for a state in which it is not locked, with input that passes
    the validation: the credentials decide. *)
Lemma signIn_decided env w email password :
  isValid (validationSchemas.login email password) = true ->
  isUserLockedOut env w email = false ->
  error (fst (signIn env w email password)) <> Some ERROR_MESSAGES.LOCKED_OUT /\
  success (fst (signIn env w email password))
  = existsb (fun u => String.eqb (user_email u) email &&
                      String.eqb (user_password u) password) (MOCK_USERS w).
Proof.
  intros Hv Hfree. unfold signIn. rewrite Hv, Hfree. cbn [negb].
  rewrite <- find_existsb.
  destruct (List.find _ _); cbn [fst error success succeeded failure];
    split; try reflexivity; discriminate.
Qed.

Lemma signInEach_users email calls : forall w,
  MOCK_USERS (snd (signInEach w email calls)) = MOCK_USERS w.
Proof.
  induction calls as [|[env password] rest IH]; intros w; [reflexivity|].
  cbn [signInEach].
  assert (Hone : MOCK_USERS (snd (signIn env w email password)) = MOCK_USERS w).
  { unfold signIn. destruct (negb _); [reflexivity|].
    destruct (isUserLockedOut _ _ _); [reflexivity|].
    destruct (List.find _ _); reflexivity. }
  destruct (signIn env w email password) as [result w1]. cbn [snd] in Hone.
  specialize (IH w1). destruct (signInEach w1 email rest) as [results w2].
  cbn [snd] in *. congruence.
Qed.

(** While at least five of the attempts recorded for an email are failures
    less than fifteen minutes old, [signIn] for that email fails whatever the
    password, and records nothing. *)
Lemma refused_while_locked (env : Env) (w : World) (email password : string) :
  (5 <= length (List.filter (AuthService.recentFailure env)
                            (AuthService.getLoginAttempts w email)))%nat ->
  success (fst (AuthService.signIn env w email password)) = false /\
  snd (AuthService.signIn env w email password) = w /\
  (isValid (validationSchemas.login email password) = true ->
   error (fst (AuthService.signIn env w email password)) = Some ERROR_MESSAGES.LOCKED_OUT).
Proof.
  intros Hlocked. unfold AuthService.signIn.
  destruct (isValid _); cbn [negb].
  - unfold AuthService.isUserLockedOut, AuthService.maxAttempts.
    apply Nat.leb_le in Hlocked. rewrite Hlocked. auto.
  - repeat split. discriminate.
Qed.

End Lockout.

(* ===================================================================== *)
(** ** Statistics                                                       *)
(* ===================================================================== *)

Module Statistics.

Import ListService.

Lemma countCompleted_bounds tasks :
  0 <= countCompleted tasks <= Z.of_nat (length tasks).
Proof.
  unfold countCompleted. split; [lia|].
  apply inj_le. apply List.filter_length_le.
Qed.

Lemma countCompleted_app tasks more :
  countCompleted (tasks ++ more) = countCompleted tasks + countCompleted more.
Proof. unfold countCompleted. rewrite List.filter_app, length_app. lia. Qed.

(** The statistics of the service are those of the list's tasks. *)
Lemma enrichList_recomputed w l u : statsRecomputed (enrichList w l u).
Proof.
  unfold statsRecomputed, enrichList, calculateStatistics. simpl.
  repeat split; try lia; try reflexivity.
Qed.

(** [UPDATE_TASK] recomputes the statistics from the new tasks. *)
Lemma updateTaskIn_recomputed env tid updates l :
  statsRecomputed (Reducer.updateTaskIn env tid updates l).
Proof.
  unfold statsRecomputed, Reducer.updateTaskIn. simpl.
  repeat split; try lia; try reflexivity.
Qed.

(** [ADD_TASK] with a pending task keeps statistics that were right. *)
Lemma addTaskTo_recomputed task l :
  task_completed task = false ->
  statsRecomputed l -> statsRecomputed (Reducer.addTaskTo task l).
Proof.
  intros Hpending (Ht & Hc & Hp & _).
  unfold statsRecomputed, Reducer.addTaskTo. simpl.
  rewrite countCompleted_app, length_app. unfold countCompleted at 2 4. simpl.
  rewrite Hpending. simpl. rewrite Z.add_0_r, <- Hc.
  replace (Z.of_nat (length (list_tasks (lws_list l)) + 1)) with (totalTasks (statistics l) + 1)
    by lia.
  repeat split; try lia.
  unfold percentage.
  pose proof (countCompleted_bounds (list_tasks (lws_list l))) as Hb.
  destruct (Z.ltb_spec 0 (totalTasks (statistics l))) as [Hpos|Hzero];
    destruct (Z.ltb_spec 0 (totalTasks (statistics l) + 1)); try lia; try reflexivity.
  assert (Hc0 : completedTasks (statistics l) = 0) by lia.
  rewrite Hc0. unfold Qeq. simpl. reflexivity.
Qed.

End Statistics.

(* ===================================================================== *)
(** ** Sharing and deleting                                               *)
(* ===================================================================== *)

Module Sharing.

Import ListService ListFacts.

Lemma arrIncludes_snoc l x : Js.arrIncludes (l ++ [x]) x = true.
Proof.
  unfold Js.arrIncludes. rewrite existsb_app. simpl.
  rewrite String.eqb_refl. apply orb_true_iff. right. reflexivity.
Qed.

(** A successful [shareList], spelled out: the caller owns the list, the
    email was not in [sharedWith], which had fewer than ten entries. *)
Lemma shareList_success env w u payload :
  success (fst (shareList env w u payload)) = true ->
  exists target index l,
    isValid (validationSchemas.shareList (sl_userEmail payload)) = true /\
    List.find (fun x => String.eqb (user_email x) (sl_userEmail payload)) (MOCK_USERS w)
      = Some target /\
    String.eqb (user_id target) u = false /\
    Js.findIndex (fun x => String.eqb (list_id x) (sl_listId payload)) (storedLists w u)
      = Some index /\
    nth_error (storedLists w u) index = Some l /\
    list_ownerId l = u /\
    Js.arrIncludes (list_sharedWith l) (sl_userEmail payload) = false /\
    Z.of_nat (length (list_sharedWith l)) < VALIDATION_RULES.MAX_SHARED_USERS /\
    snd (shareList env w u payload)
      = setCache
          (saveUserLists w u
             (<[index := sharedWithOneMore env l (sl_userEmail payload)]> (storedLists w u)))
          (clearCache (user_id target)
             (cache (saveUserLists w u
                (<[index := sharedWithOneMore env l (sl_userEmail payload)]>
                   (storedLists w u))))).
Proof.
  unfold shareList.
  destruct (isValid _) eqn:Hv; cbn [negb]; [|discriminate].
  destruct (List.find _ _) as [target|] eqn:Ht; [|discriminate].
  destruct (String.eqb (user_id target) u) eqn:Hself; [discriminate|].
  destruct (Js.findIndex _ _) as [index|] eqn:Hi; [|discriminate].
  destruct (nth_error _ index) as [l|] eqn:Hl; [|discriminate].
  destruct (String.eqb_spec (list_ownerId l) u) as [Ho|_]; cbn [negb]; [|discriminate].
  destruct (Js.arrIncludes _ _) eqn:Hinc; [discriminate|].
  destruct (Z.leb_spec VALIDATION_RULES.MAX_SHARED_USERS
              (Z.of_nat (length (list_sharedWith l)))) as [_|Hlt]; [discriminate|].
  intros _. exists target, index, l. repeat split; auto.
Qed.

(** A refused [shareList] is refused again whatever the clock says. *)
Lemma shareList_refused_again env env' w u payload :
  success (fst (shareList env w u payload)) = false ->
  shareList env' w u payload = shareList env w u payload.
Proof.
  unfold shareList.
  destruct (negb _); [reflexivity|].
  destruct (List.find _ _) as [target|]; [|reflexivity].
  destruct (String.eqb (user_id target) u); [reflexivity|].
  destruct (Js.findIndex _ _) as [index|]; [|reflexivity].
  destruct (nth_error _ index) as [l|]; [|reflexivity].
  destruct (negb _); [reflexivity|].
  destruct (Js.arrIncludes _ _); [reflexivity|].
  destruct (_ <=? _); [reflexivity | discriminate].
Qed.

Lemma shareList_failure_keeps env w u payload :
  success (fst (shareList env w u payload)) = false ->
  snd (shareList env w u payload) = w.
Proof.
  unfold shareList.
  destruct (negb _); [reflexivity|].
  destruct (List.find _ _) as [target|]; [|reflexivity].
  destruct (String.eqb (user_id target) u); [reflexivity|].
  destruct (Js.findIndex _ _) as [index|]; [|reflexivity].
  destruct (nth_error _ index) as [l|]; [|reflexivity].
  destruct (negb _); [reflexivity|].
  destruct (Js.arrIncludes _ _); [reflexivity|].
  destruct (_ <=? _); [reflexivity | discriminate].
Qed.

(** Sharing a list with the same email twice: the second call fails and
    changes nothing, whether the first succeeded or not. *)
Lemma shareList_twice_fails env1 env2 w u payload :
  success (fst (shareList env2 (snd (shareList env1 w u payload)) u payload)) = false /\
  snd (shareList env2 (snd (shareList env1 w u payload)) u payload)
    = snd (shareList env1 w u payload).
Proof.
  destruct (success (fst (shareList env1 w u payload))) eqn:H1.
  - destruct (shareList_success _ _ _ _ H1)
      as (target & index & l & Hv & Ht & Hself & Hi & Hl & Ho & _ & _ & Hw1).
    set (w1 := snd (shareList env1 w u payload)) in *.
    assert (Hst : storedLists w1 u
                  = <[index := sharedWithOneMore env1 l (sl_userEmail payload)]>
                      (storedLists w u)).
    { rewrite Hw1. unfold storedLists at 1. cbn [storage setCache].
      fold (storedLists (saveUserLists w u
              (<[index := sharedWithOneMore env1 l (sl_userEmail payload)]> (storedLists w u))) u).
      rewrite storedLists_saveUserLists, String.eqb_refl. reflexivity. }
    assert (Hus : MOCK_USERS w1 = MOCK_USERS w) by (rewrite Hw1; reflexivity).
    assert (H2 : shareList env2 w1 u payload = (failure ERROR_MESSAGES.ALREADY_SHARED, w1)).
    { unfold shareList. rewrite Hv, Hus, Ht, Hself, Hst. cbn [negb].
      rewrite (findIndex_insert _ _ _ (sharedWithOneMore env1 l (sl_userEmail payload)) Hi).
      - rewrite (nth_error_insert _ _ _ _ Hl). cbn [list_ownerId sharedWithOneMore].
        rewrite Ho, String.eqb_refl. cbn [negb list_sharedWith sharedWithOneMore].
        rewrite arrIncludes_snoc. reflexivity.
      - destruct (findIndex_Some _ _ _ Hi) as (x & Hx & Hp).
        rewrite Hl in Hx. injection Hx as <-. exact Hp. }
    rewrite H2. split; reflexivity.
  - rewrite (shareList_failure_keeps _ _ _ _ H1).
    rewrite (shareList_refused_again env1 env2 _ _ _ H1).
    split; [exact H1 | apply shareList_failure_keeps; exact H1].
Qed.

(** [shareList] never writes a list with more than ten collaborators where
    there was none. *)
Lemma shareList_keeps_the_limit env w u payload :
  (forall o l, In l (storedLists w o) ->
     Z.of_nat (length (list_sharedWith l)) <= VALIDATION_RULES.MAX_SHARED_USERS) ->
  forall o l, In l (storedLists (snd (shareList env w u payload)) o) ->
    Z.of_nat (length (list_sharedWith l)) <= VALIDATION_RULES.MAX_SHARED_USERS.
Proof.
  intros Hw o l'.
  destruct (success (fst (shareList env w u payload))) eqn:H1.
  - destruct (shareList_success _ _ _ _ H1)
      as (target & index & l & _ & _ & _ & _ & Hl & _ & _ & Hlt & Hw1).
    rewrite Hw1. unfold storedLists at 1. cbn [storage setCache].
    fold (storedLists (saveUserLists w u
            (<[index := sharedWithOneMore env l (sl_userEmail payload)]> (storedLists w u))) o).
    rewrite storedLists_saveUserLists.
    destruct (String.eqb o u); [|apply Hw].
    intros Hin. apply In_insert in Hin as [->|Hin]; [|eapply Hw; exact Hin].
    cbn [list_sharedWith sharedWithOneMore]. rewrite length_app. simpl. lia.
  - rewrite (shareList_failure_keeps _ _ _ _ H1). apply Hw.
Qed.

(** Only the owner deletes: a successful [deleteList] found a list of the
    caller's partition that names the caller as owner. *)
Lemma deleteList_success w u lid :
  success (fst (deleteList w u lid)) = true ->
  exists l, In l (storedLists w u) /\ list_id l = lid /\ list_ownerId l = u.
Proof.
  unfold deleteList.
  destruct (List.find _ _) as [l|] eqn:Hl; [|discriminate].
  destruct (String.eqb_spec (list_ownerId l) u) as [Ho|_]; cbn [negb]; [|discriminate].
  intros _. apply find_some in Hl as [Hin Hid]. apply String.eqb_eq in Hid.
  exists l. auto.
Qed.

End Sharing.

(* ===================================================================== *)
(** ** The cache after a write                                            *)
(* ===================================================================== *)

Module CacheFacts.

Import ListService.

Lemma startsWith_app (p rest : string) : Js.startsWith (p ++ rest)%string p = true.
Proof.
  unfold Js.startsWith. induction p as [|c p IH]; simpl.
  - destruct rest; reflexivity.
  - destruct (ascii_dec c c); [exact IH | congruence].
Qed.

(** Clearing removes entries and adds none. *)
Lemma clearCache_None u (c : gmap string (list ListWithStats)) k :
  c !! k = None -> clearCache u c !! k = None.
Proof.
  intros H. unfold clearCache. destruct (Js.truthy u).
  - apply map_lookup_filter_None. left. exact H.
  - apply lookup_empty.
Qed.

Lemma clearCache_own u (c : gmap string (list ListWithStats)) rest :
  clearCache u c !! (u ++ rest)%string = None.
Proof.
  unfold clearCache. destruct (Js.truthy u).
  - apply map_lookup_filter_None. right. intros x _. simpl.
    rewrite startsWith_app. discriminate.
  - apply lookup_empty.
Qed.

Lemma clearCacheForSharedListUsers_None users lists c k :
  c !! k = None -> clearCacheForSharedListUsers users lists c !! k = None.
Proof.
  unfold clearCacheForSharedListUsers. generalize (sharedEmails lists). intros emails.
  revert c. induction emails as [|e emails IH]; intros c H; simpl; [exact H|].
  apply IH. destruct (List.find _ users); [apply clearCache_None|]; exact H.
Qed.

(** A write invalidates every cached view of the user whose partition is
    written. *)
Lemma saveUserLists_clears_own stringify w u lists f :
  cache (saveUserLists w u lists) !! cacheKey stringify u f = None.
Proof.
  unfold saveUserLists, cacheKey. cbn [cache setCache setStorage MOCK_USERS].
  apply clearCacheForSharedListUsers_None, clearCache_own.
Qed.

End CacheFacts.

(* ===================================================================== *)
(** ** Facts about the concrete runs                                      *)
(* ===================================================================== *)

Module ScenarioFacts.

Lemma seeded_storage :
  storage Scenario.seeded
  = <[ListService.getUserListsKey "1" :=
        ListService.sampleLists (Scenario.env 1000 "a") "1"]> ∅.
Proof. reflexivity. Qed.

Lemma seeded_reachable : reachable Scenario.stringify Scenario.seeded.
Proof.
  exact (reachable_step Scenario.stringify (Scenario.env 1000 "a") initialWorld
           (LoadUserLists "1" Scenario.noFilter) (reachable_initial _)).
Qed.

(** In the seeded store user 3 is an outsider of the list [a0]. *)
Lemma seeded_outsider : outsider Scenario.seeded "3" "a0".
Proof.
  intros o l Hin Hid. unfold ListService.storedLists in Hin.
  rewrite seeded_storage in Hin.
  destruct (String.eqb_spec o "1") as [->|Hne].
  - rewrite lookup_insert_eq in Hin. simpl in Hin.
    destruct Hin as [<-|[<-|[]]]; [reflexivity | discriminate Hid].
  - rewrite lookup_insert_ne, lookup_empty in Hin; [destruct Hin|].
    intros H. apply Hne. symmetry. exact (getUserListsKey_inj _ _ H).
Qed.

End ScenarioFacts.

(* ===================================================================== *)
(** ** The properties of the specification                                *)
(* ===================================================================== *)

Import ListFacts.

(** C1. The client of user 1 loads its lists and deletes the completed task
    [a2] of the list [a0]: the service succeeds, and the reducer's
    [DELETE_TASK] leaves statistics that are not those of the list's tasks
    (one completed and two pending tasks are shown where none is completed
    and three are pending). *)
Lemma deleteTask_leaves_stale_client_statistics :
  success (fst Scenario.clientAfterDelete) = true /\
  List.map (fun l => (list_id (lws_list l),
                      completedTasks (statistics l), pendingTasks (statistics l)))
           (lists (snd (snd Scenario.clientAfterDelete)))
    = [("a0", 1, 2); ("a5", 1, 2)] /\
  List.map (fun l => (list_id (lws_list l),
                      ListService.countCompleted (list_tasks (lws_list l)),
                      Z.of_nat (length (list_tasks (lws_list l)))))
           (lists (snd (snd Scenario.clientAfterDelete)))
    = [("a0", 0, 3); ("a5", 1, 3)] /\
  ~ Forall statsRecomputed (lists (snd (snd Scenario.clientAfterDelete))).
Proof.
  split; [reflexivity|]. split; [reflexivity|]. split; [reflexivity|].
  intros H.
  assert (Hfirst : exists l ls, lists (snd (snd Scenario.clientAfterDelete)) = l :: ls /\
                                completedTasks (statistics l) = 1 /\
                                ListService.countCompleted (list_tasks (lws_list l)) = 0).
  { eexists _, _. split; [vm_compute; reflexivity|]. split; reflexivity. }
  destruct Hfirst as (l & ls & Heq & Hshown & Hreal).
  rewrite Heq in H. apply Forall_inv in H. destruct H as (_ & Hc & _).
  rewrite Hshown, Hreal in Hc. discriminate.
Qed.

(** C2 (amended). When no stored list with the id is owned by the caller or
    shared with the caller's email, [updateList], the four task operations,
    [deleteList] and [shareList] all fail and leave the state as it is. The
    failure is "list not found" or a permission error ([shareList] and
    [addTask] can also refuse their input first); in partitions that hold
    only lists of their owner, as every reachable state has them,
    [updateList] and [deleteList] answer "list not found" and [shareList]
    never answers with a permission error. *)
Theorem outsider_calls_are_refused (env : Env) (w : World) (userId listId : string)
    (updates : UpdateListPayload) (text taskId : string) (taskUpdates : UpdateTaskPayload)
    (email : string) :
  outsider w userId listId ->
  refused (updateList env w userId listId updates) w
    [ERROR_MESSAGES.LIST_NOT_FOUND; ERROR_MESSAGES.NO_EDIT_PERMISSION] /\
  refused (addTask env w userId {| ct_text := text; ct_listId := listId |}) w
    [ERROR_MESSAGES.TASK_TEXT_REQUIRED; ERROR_MESSAGES.TASK_TEXT_TOO_LONG;
     ERROR_MESSAGES.LIST_NOT_FOUND; ERROR_MESSAGES.NO_EDIT_PERMISSION] /\
  refused (updateTask env w userId listId taskId taskUpdates) w
    [ERROR_MESSAGES.LIST_NOT_FOUND; ERROR_MESSAGES.NO_EDIT_PERMISSION] /\
  refused (deleteTask env w userId listId taskId) w
    [ERROR_MESSAGES.LIST_NOT_FOUND; ERROR_MESSAGES.NO_EDIT_PERMISSION] /\
  refused (toggleTask env w userId listId taskId) w
    [ERROR_MESSAGES.LIST_NOT_FOUND; ERROR_MESSAGES.NO_EDIT_PERMISSION] /\
  refused (deleteList w userId listId) w
    [ERROR_MESSAGES.LIST_NOT_FOUND; ERROR_MESSAGES.ONLY_OWNER_CAN_DELETE] /\
  refused (shareList env w userId {| sl_listId := listId; sl_userEmail := email |}) w
    [ERROR_MESSAGES.REQUIRED_FIELD; ERROR_MESSAGES.INVALID_EMAIL;
     ERROR_MESSAGES.USER_NOT_FOUND; ERROR_MESSAGES.SHARE_WITH_SELF;
     ERROR_MESSAGES.LIST_NOT_FOUND; ERROR_MESSAGES.ONLY_OWNER_CAN_SHARE] /\
  (ownerKeyed w ->
   updateList env w userId listId updates = (failure ERROR_MESSAGES.LIST_NOT_FOUND, w) /\
   deleteList w userId listId = (failure ERROR_MESSAGES.LIST_NOT_FOUND, w) /\
   isPermissionError
     (error (fst (shareList env w userId {| sl_listId := listId; sl_userEmail := email |})))
     = false).
Proof.
  intros Ho.
  split; [apply Outsider.updateList_refused; exact Ho|].
  split; [apply Outsider.addTask_refused; exact Ho|].
  split; [apply Outsider.updateTask_refused; exact Ho|].
  split; [apply Outsider.deleteTask_refused; exact Ho|].
  split; [apply Outsider.toggleTask_refused; exact Ho|].
  split; [apply Outsider.deleteList_refused; exact Ho|].
  split; [apply Outsider.shareList_refused; exact Ho|].
  intros Hw. split; [|split].
  - unfold updateList. rewrite (Outsider.not_found _ _ _ Hw Ho). reflexivity.
  - unfold deleteList.
    destruct (List.find _ _) as [l|] eqn:Hl; [|reflexivity].
    apply find_some in Hl as [Hin Hid]. apply String.eqb_eq in Hid.
    destruct (Outsider.own_partition_clear _ _ _ _ Hw Ho Hin Hid).
  - destruct (Outsider.shareList_refused env w userId listId email Ho) as [_ Hs].
    destruct (Hs Hw) as (e & -> & He). cbn [fst error failure].
    simpl in He. destruct He as [<-|[<-|[<-|[<-|[<-|[]]]]]]; reflexivity.
Qed.

(** C2: the statement at the seeded store, for user 3 and the list [a0]. *)
Lemma outsider_calls_are_refused_witness :
  refused (updateList (Scenario.env 2000 "b") Scenario.seeded "3" "a0"
             {| ul_title := Some "Mine"%string; ul_sharedWith := None |})
          Scenario.seeded
          [ERROR_MESSAGES.LIST_NOT_FOUND; ERROR_MESSAGES.NO_EDIT_PERMISSION] /\
  refused (deleteList Scenario.seeded "3" "a0") Scenario.seeded
          [ERROR_MESSAGES.LIST_NOT_FOUND; ERROR_MESSAGES.ONLY_OWNER_CAN_DELETE].
Proof.
  pose proof (outsider_calls_are_refused (Scenario.env 2000 "b") Scenario.seeded "3" "a0"
                {| ul_title := Some "Mine"%string; ul_sharedWith := None |}
                "Ser" "a1" {| ut_text := None; ut_completed := Some true |}
                "anna@example.com" ScenarioFacts.seeded_outsider) as H.
  split; [exact (proj1 H) | exact (proj1 (proj2 (proj2 (proj2 (proj2 (proj2 H))))))].
Defined.

(** C2, as stated, fails: user 3 is neither the owner of [a0] nor in its
    [sharedWith]; the three calls fail and change nothing, but none of the
    failures is a permission error: each says that the list was not found. *)
Lemma outsider_is_told_not_found :
  outsider Scenario.seeded "3" "a0" /\
  Scenario.outsiderUpdates = (failure ERROR_MESSAGES.LIST_NOT_FOUND, Scenario.seeded) /\
  Scenario.outsiderDeletes = (failure ERROR_MESSAGES.LIST_NOT_FOUND, Scenario.seeded) /\
  Scenario.outsiderShares = (failure ERROR_MESSAGES.LIST_NOT_FOUND, Scenario.seeded) /\
  isPermissionError (error (fst Scenario.outsiderUpdates)) = false /\
  isPermissionError (error (fst Scenario.outsiderDeletes)) = false /\
  isPermissionError (error (fst Scenario.outsiderShares)) = false.
Proof. split; [exact ScenarioFacts.seeded_outsider|]. repeat split; reflexivity. Qed.

(** C3. User 2 is a collaborator of the list [a5] of user 1, not its owner;
    its [updateList] with a new [sharedWith] succeeds and the stored list is
    shared with test@example.com from then on. *)
Lemma collaborator_changes_sharedWith :
  List.map (fun l => (list_id l, list_ownerId l, list_sharedWith l))
           (ListService.storedLists Scenario.seeded "1")
    = [("a0", "1", []); ("a5", "1", ["anna@example.com"])] /\
  ListService.getCurrentUserEmail Scenario.seeded "2" = Some "anna@example.com" /\
  success (fst Scenario.collaboratorReshares) = true /\
  List.map (fun l => (list_id l, list_ownerId l, list_sharedWith l))
           (ListService.storedLists (snd Scenario.collaboratorReshares) "1")
    = [("a0", "1", []); ("a5", "1", ["anna@example.com"; "test@example.com"])].
Proof. repeat split; reflexivity. Qed.

(** C4. [findListById] resolves an id in the order the specification gives:
    the requester's own collection first (owner = requester), otherwise the
    first known user, in the directory's order and other than the requester,
    whose collection holds a record with that id that is shared with the
    requester's email (owner = that user), otherwise nothing. The record it
    returns sits in the collection and at the index it returns. When an id
    names one record of the whole store, every party that resolves the id
    gets that record under the same owner. *)
Theorem findListById_resolution (w : World) (requester listId : string) :
  option_map resolved (ListService.findListById w requester listId)
    = findListById_spec w requester listId /\
  (forall found,
     ListService.findListById w requester listId = Some found ->
     ListService.f_ownerLists found
       = ListService.storedLists w (ListService.f_ownerId found) /\
     nth_error (ListService.f_ownerLists found) (ListService.f_listIndex found)
       = Some (ListService.f_list found) /\
     list_id (ListService.f_list found) = listId) /\
  (uniqueIds w ->
   forall other found found',
     ListService.findListById w requester listId = Some found ->
     ListService.findListById w other listId = Some found' ->
     resolved found = resolved found').
Proof.
  split; [|split].
  - unfold ListService.findListById, ListService.findOwned, findListById_spec.
    rewrite findIndex_find.
    destruct (Js.findIndex _ _) as [i|] eqn:Hi.
    + destruct (findIndex_Some _ _ _ Hi) as (l & Hl & _). rewrite Hl. reflexivity.
    + destruct (ListService.getCurrentUserEmail w requester) as [e|]; [|reflexivity].
      apply Resolution.findShared_first.
  - intros found Hf.
    destruct (ListFacts.findListById_Some _ _ _ _ Hf) as (Hl & Hn & _ & Hid).
    rewrite Hl. auto.
  - intros Hu other found found' Hf Hf'.
    destruct (ListFacts.findListById_Some _ _ _ _ Hf) as (_ & _ & Hin & Hid).
    destruct (ListFacts.findListById_Some _ _ _ _ Hf') as (_ & _ & Hin' & Hid').
    destruct (Hu _ _ _ _ Hin Hin') as [Ho Hl]; [congruence|].
    unfold resolved. congruence.
Qed.

(** C5. User 2 has loaded its lists, the list [a5] that user 1 shares with
    it among them; user 1 deletes [a5] and the call succeeds; the next load
    of user 2 is answered from the cache and still shows [a5]. *)
Lemma deleted_list_stays_in_collaborator_cache :
  success (fst Scenario.ownerDeletes) = true /\
  List.map list_id (ListService.storedLists (snd Scenario.ownerDeletes) "1") = ["a0"] /\
  success (fst Scenario.collaboratorReloads) = true /\
  message (fst Scenario.collaboratorReloads) = Some "Lists loaded from cache" /\
  loadedIds (fst Scenario.collaboratorReloads) = Some ["b0"; "b5"; "a5"].
Proof. repeat split; reflexivity. Qed.

(** C6. User 1 passes eleven emails as [sharedWith] to [updateList] for its
    list [a0]: the call succeeds and the stored list is shared with eleven
    users. *)
Lemma updateList_exceeds_the_sharing_limit :
  success (fst Scenario.ownerOvershares) = true /\
  List.map (fun l => (list_id l, Z.of_nat (length (list_sharedWith l))))
           (ListService.storedLists (snd Scenario.ownerOvershares) "1")
    = [("a0", 11); ("a5", 1)] /\
  VALIDATION_RULES.MAX_SHARED_USERS = 10.
Proof. repeat split; reflexivity. Qed.

(** C7 (amended). When [toggleTask] succeeds, calling it again at once, by
    the same user on the same task, succeeds as well; the task's [completed]
    flag is back at its value before the first call; [completedAt] is cleared
    by the second call when the task was not completed at first, and is the
    time of the second call when the task was completed at first. *)
Theorem toggleTask_twice env1 env2 w u lid tid :
  success (fst (toggleTask env1 w u lid tid)) = true ->
  let first := toggleTask env1 w u lid tid in
  let second := toggleTask env2 (snd first) u lid tid in
  exists task0 task1 task2,
    lookupTask w u lid tid = Some task0 /\
    data (fst first) = Some task1 /\
    lookupTask (snd first) u lid tid = Some task1 /\
    task_completed task1 = negb (task_completed task0) /\
    success (fst second) = true /\
    data (fst second) = Some task2 /\
    lookupTask (snd second) u lid tid = Some task2 /\
    task_completed task2 = task_completed task0 /\
    task_completedAt task2
      = (if task_completed task0 then Some (now env2) else None).
Proof.
  intros H1. cbv zeta.
  destruct (Toggle.toggleTask_success _ _ _ _ _ H1)
    as (found & index & task0 & Hf & Hc & Hi & Hn & Hd1 & Hw1).
  set (task1 := toggled env1 task0) in *.
  set (list1 := withTasks env1 (f_list found) (<[index:=task1]> (list_tasks (f_list found)))) in *.
  assert (Hf1 : findListById (snd (toggleTask env1 w u lid tid)) u lid
                = Some (mkFound list1 (f_ownerId found) (f_listIndex found)
                          (<[f_listIndex found := list1]> (f_ownerLists found)))).
  { rewrite Hw1. apply WriteBack.findListById_writeBack; auto. }
  assert (Hi1 : Js.findIndex (fun t => String.eqb (task_id t) tid) (list_tasks list1)
                = Some index).
  { simpl. apply findIndex_insert; [exact Hi|].
    destruct (findIndex_Some _ _ _ Hi) as (x & Hx & Hp).
    rewrite Hn in Hx. injection Hx as <-. exact Hp. }
  assert (Hn1 : nth_error (list_tasks list1) index = Some task1).
  { simpl. eapply nth_error_insert. exact Hn. }
  assert (Hc1 : canUserEditList (snd (toggleTask env1 w u lid tid)) list1 u = true).
  { rewrite <- Hc. apply canUserEditList_users; [rewrite Hw1|..]; reflexivity. }
  set (w1 := snd (toggleTask env1 w u lid tid)) in *.
  set (task2 := toggled env2 task1).
  assert (H2 : toggleTask env2 w1 u lid tid
    = (succeeded (Some task2)
         (if task_completed task2 then SUCCESS_MESSAGES.TASK_COMPLETED
          else SUCCESS_MESSAGES.TASK_UNCOMPLETED),
       writeBack w1 (mkFound list1 (f_ownerId found) (f_listIndex found)
                       (<[f_listIndex found := list1]> (f_ownerLists found)))
         (withTasks env2 list1 (<[index:=task2]> (list_tasks list1))))).
  { unfold toggleTask. rewrite Hf1. cbn [f_list]. rewrite Hc1. cbn [negb].
    rewrite Hi1, Hn1, replaceAt_insert. reflexivity. }
  exists task0, task1, task2.
  split. { unfold lookupTask. rewrite Hf, findIndex_find, Hi. exact Hn. }
  split. { exact Hd1. }
  split. { unfold lookupTask. rewrite Hf1. cbn [f_list]. rewrite findIndex_find, Hi1. exact Hn1. }
  split. { reflexivity. }
  rewrite H2. cbn [fst snd].
  split. { reflexivity. }
  split. { reflexivity. }
  split.
  { unfold lookupTask.
    rewrite (WriteBack.findListById_writeBack w1 u lid _ _ Hf1); [|reflexivity..].
    cbn [f_list list_tasks withTasks]. rewrite findIndex_find.
    rewrite (findIndex_insert _ _ _ task2 Hi1).
    - eapply nth_error_insert. exact Hn1.
    - destruct (findIndex_Some _ _ _ Hi1) as (x & Hx & Hp).
      rewrite Hn1 in Hx. injection Hx as <-. exact Hp. }
  split. { simpl. apply negb_involutive. }
  simpl. destruct (task_completed task0); reflexivity.
Qed.

(** C7: the statement at the seeded store, for the completed task [a2]. *)
Lemma toggleTask_twice_witness :
  exists task0 task1 task2,
    lookupTask Scenario.seeded "1" "a0" "a2" = Some task0 /\
    data (fst Scenario.toggledOnce) = Some task1 /\
    lookupTask (snd Scenario.toggledOnce) "1" "a0" "a2" = Some task1 /\
    task_completed task1 = negb (task_completed task0) /\
    success (fst Scenario.toggledTwice) = true /\
    data (fst Scenario.toggledTwice) = Some task2 /\
    lookupTask (snd Scenario.toggledTwice) "1" "a0" "a2" = Some task2 /\
    task_completed task2 = task_completed task0 /\
    task_completedAt task2 = (if task_completed task0 then Some 3000 else None).
Proof.
  apply (toggleTask_twice (Scenario.env 2000 "b") (Scenario.env 3000 "c")
           Scenario.seeded "1" "a0" "a2").
  reflexivity.
Defined.

(** C7, as stated, fails: the task [a2] is completed; after two calls of
    [toggleTask] it is completed again and its [completedAt] is the time of
    the second call, not cleared. *)
Lemma second_toggle_sets_completedAt :
  lookupTask Scenario.seeded "1" "a0" "a2" = Some (mkTask "a2" "Chleb" true None None) /\
  success (fst Scenario.toggledOnce) = true /\
  success (fst Scenario.toggledTwice) = true /\
  lookupTask (snd Scenario.toggledTwice) "1" "a0" "a2"
    = Some (mkTask "a2" "Chleb" true None (Some 3000)) /\
  (option_map task_completedAt (data (fst Scenario.toggledTwice)) <> Some None).
Proof. repeat split; try reflexivity. vm_compute. discriminate. Qed.

(** C8. With fifty lists stored for the caller, [createList] fails and leaves
    the whole state, the stored collection included, as it was; the error is
    the limit error whenever the payload passes validation (an invalid
    payload is refused before the collection is read). *)
Theorem createList_at_the_limit (env : Env) (w : World) (userId : string)
    (payload : CreateListPayload) :
  (50 <= length (ListService.storedLists w userId))%nat ->
  success (fst (ListService.createList env w userId payload)) = false /\
  snd (ListService.createList env w userId payload) = w /\
  (isValid (validationSchemas.createList (cl_title payload)
                                        (default [] (cl_initialTasks payload))) = true ->
   error (fst (ListService.createList env w userId payload))
     = Some ERROR_MESSAGES.LIST_LIMIT).
Proof.
  intros Hfull. unfold ListService.createList.
  destruct (isValid _); cbn [negb].
  - apply Nat.leb_le in Hfull. rewrite Hfull. auto.
  - repeat split. discriminate.
Qed.

(** C8: the statement for user 1 with fifty stored lists. *)
Lemma createList_at_the_limit_witness :
  success (fst (ListService.createList (Scenario.env 5 "z") Scenario.fullWorld "1"
                  {| cl_title := "Nowa"; cl_initialTasks := None |})) = false /\
  snd (ListService.createList (Scenario.env 5 "z") Scenario.fullWorld "1"
         {| cl_title := "Nowa"; cl_initialTasks := None |}) = Scenario.fullWorld /\
  (isValid (validationSchemas.createList "Nowa" []) = true ->
   error (fst (ListService.createList (Scenario.env 5 "z") Scenario.fullWorld "1"
                 {| cl_title := "Nowa"; cl_initialTasks := None |}))
     = Some ERROR_MESSAGES.LIST_LIMIT).
Proof.
  apply (createList_at_the_limit (Scenario.env 5 "z") Scenario.fullWorld "1"
           {| cl_title := "Nowa"; cl_initialTasks := None |}).
  vm_compute. lia.
Defined.

(** C9 (amended). The attempts on record for an email after a run of
    sign-ins are the last ten of those recorded before and of those the run
    adds: one for each call answered with a success or with "invalid
    credentials", none for a call refused by the validation or by the
    lockout. While at least five of them are failures less than fifteen
    minutes old, a further sign-in for that email fails whatever the
    password and records nothing; once fewer than five are, a sign-in with
    well-formed input is not refused by the lockout and succeeds exactly
    when email and password are those of a user. The five failures need not
    be in a row. *)
Theorem lockout_after_five_refusals (env : Env) (w : World) (email password : string)
    (calls : list (Env * string)) :
  (length (AuthService.getLoginAttempts w email) <= 10)%nat ->
  let w' := snd (signInEach w email calls) in
  let lastTen :=
    Js.sliceLast 10
      (AuthService.getLoginAttempts w email
       ++ recordedByRun email calls (fst (signInEach w email calls))) in
  let recentFailures :=
    length (List.filter
              (fun a => negb (la_success a) &&
                        (now env - la_timestamp a <? AuthService.lockoutDuration))
              lastTen) in
  AuthService.getLoginAttempts w' email = lastTen /\
  ((5 <= recentFailures)%nat ->
   success (fst (AuthService.signIn env w' email password)) = false /\
   snd (AuthService.signIn env w' email password) = w' /\
   (isValid (validationSchemas.login email password) = true ->
    error (fst (AuthService.signIn env w' email password))
      = Some ERROR_MESSAGES.LOCKED_OUT)) /\
  ((recentFailures < 5)%nat ->
   isValid (validationSchemas.login email password) = true ->
   error (fst (AuthService.signIn env w' email password))
     <> Some ERROR_MESSAGES.LOCKED_OUT /\
   success (fst (AuthService.signIn env w' email password))
   = existsb (fun u => String.eqb (user_email u) email &&
                       String.eqb (user_password u) password) (MOCK_USERS w)).
Proof.
  intros Hlen. cbn zeta.
  pose proof (Lockout.run_recorded email calls w Hlen) as Hlog.
  split; [exact Hlog|]. rewrite <- Hlog. split.
  - intros Hlocked. apply Lockout.refused_while_locked. exact Hlocked.
  - intros Hfree Hvalid.
    rewrite <- (Lockout.signInEach_users email calls w).
    apply Lockout.signIn_decided; [exact Hvalid|].
    unfold AuthService.isUserLockedOut, AuthService.maxAttempts.
    apply Nat.leb_gt. exact Hfree.
Qed.

(** C9: two wrong passwords, the right one and three wrong ones for
    user@example.com within six milliseconds; the right password one
    millisecond later is refused. *)
Lemma lockout_after_five_refusals_witness :
  List.map success (fst (signInEach initialWorld "user@example.com" Scenario.mixedCalls))
    = [false; false; true; false; false; false] /\
  fst (AuthService.signIn (Scenario.env 6 "t")
         (snd (signInEach initialWorld "user@example.com" Scenario.mixedCalls))
         "user@example.com" "password123")
    = failure ERROR_MESSAGES.LOCKED_OUT /\
  snd (AuthService.signIn (Scenario.env 6 "t")
         (snd (signInEach initialWorld "user@example.com" Scenario.mixedCalls))
         "user@example.com" "password123")
    = snd (signInEach initialWorld "user@example.com" Scenario.mixedCalls).
Proof.
  split; [reflexivity|].
  destruct (lockout_after_five_refusals (Scenario.env 6 "t") initialWorld
              "user@example.com" "password123" Scenario.mixedCalls)
    as (_ & Hlocked & _).
  - apply Nat.leb_le. reflexivity.
  - destruct Hlocked as (_ & Hsame & _).
    + apply Nat.leb_le. reflexivity.
    + split; [reflexivity | exact Hsame].
Defined.

(** C9, as stated, fails: eleven sign-ins for user@example.com within eleven
    milliseconds, five of them failed; the twelfth, with the right password,
    succeeds. *)
Lemma five_failures_without_lockout :
  List.map success (fst Scenario.elevenSignIns)
    = [false; false; false; false; true; true; true; true; true; true; false] /\
  length (List.filter (fun r => negb (success r)) (fst Scenario.elevenSignIns)) = 5%nat /\
  Forall (fun c => 11 - now (fst c) < AuthService.lockoutDuration) Scenario.calls /\
  success (fst Scenario.twelfthSignIn) = true.
Proof.
  split; [reflexivity|]. split; [reflexivity|]. split; [|reflexivity].
  unfold Scenario.calls, Scenario.passwords. cbn [Js.mapi Js.mapi_from repeat app].
  repeat (constructor; [reflexivity|]). constructor.
Qed.

(** C10. In every state the application reaches from a fresh install, each
    list stored in the partition of a user names that user as its owner:
    [createList] and the first load write lists owned by the caller into the
    caller's partition, [updateList], [shareList] and the task operations
    write the changed list back into the partition it was found in with
    [ownerId] untouched, [deleteList] only removes entries; so [deleteList]
    never answers with its owner-only refusal. *)
Theorem partition_holds_only_owned_lists (stringify : ListFilter -> string) (w : World) :
  reachable stringify w ->
  ownerKeyed w /\
  (forall env c, ownerKeyed (step stringify env w c)) /\
  (forall userId listId,
     error (fst (ListService.deleteList w userId listId))
       <> Some ERROR_MESSAGES.ONLY_OWNER_CAN_DELETE).
Proof.
  intros Hr.
  assert (Hw : ownerKeyed w).
  { induction Hr; [exact OwnerKeyed.initial | apply OwnerKeyed.step_keeps; assumption]. }
  split; [exact Hw|]. split; [intros; apply OwnerKeyed.step_keeps; exact Hw|].
  intros u lid. unfold ListService.deleteList.
  destruct (List.find _ _) as [l|] eqn:Hl.
  - apply find_some in Hl as [Hin _].
    rewrite (OwnerKeyed.stored _ _ _ Hw Hin), String.eqb_refl. simpl. discriminate.
  - simpl. intros [= H]. 
Qed.

(** C10: the statement at the store user 1's first load leaves. *)
Lemma partition_holds_only_owned_lists_witness :
  ownerKeyed Scenario.seeded /\
  (forall env c, ownerKeyed (step Scenario.stringify env Scenario.seeded c)) /\
  (forall userId listId,
     error (fst (ListService.deleteList Scenario.seeded userId listId))
       <> Some ERROR_MESSAGES.ONLY_OWNER_CAN_DELETE).
Proof.
  apply (partition_holds_only_owned_lists Scenario.stringify Scenario.seeded).
  exact (reachable_step Scenario.stringify (Scenario.env 1000 "a") initialWorld
           (LoadUserLists "1" Scenario.noFilter) (reachable_initial _)).
Defined.

(* ===================================================================== *)
(** * Further properties of the code                                      *)
(* ===================================================================== *)

(** ** The seeded store                                                   *)

Module SeededFacts.

Lemma stored_own :
  storedLists Scenario.seeded "1" = sampleLists (Scenario.env 1000 "a") "1".
Proof. reflexivity. Qed.

Lemma stored_others o : o <> "1" -> storedLists Scenario.seeded o = [].
Proof.
  intros Hne. unfold storedLists. rewrite ScenarioFacts.seeded_storage.
  rewrite lookup_insert_ne, lookup_empty; [reflexivity|].
  intros H. apply Hne. symmetry. exact (getUserListsKey_inj _ _ H).
Qed.

Lemma stored_In o l :
  In l (storedLists Scenario.seeded o) ->
  o = "1" /\ In l (sampleLists (Scenario.env 1000 "a") "1").
Proof.
  destruct (String.eqb_spec o "1") as [->|Hne].
  - rewrite stored_own. auto.
  - rewrite (stored_others o Hne). intros [].
Qed.

Lemma seeded_uniqueIds : uniqueIds Scenario.seeded.
Proof.
  intros o1 o2 l1 l2 H1 H2.
  apply stored_In in H1 as [-> H1]. apply stored_In in H2 as [-> H2].
  simpl in H1, H2.
  destruct H1 as [<-|[<-|[]]]; destruct H2 as [<-|[<-|[]]];
    intros Hid; try discriminate Hid; auto.
Qed.

(** The client of user 1 after its first load shows statistics that agree
    with the tasks. *)
Lemma clientLoaded_recomputed : Forall statsRecomputed (lists (snd Scenario.clientLoaded)).
Proof.
  repeat (constructor; [repeat split; reflexivity|]). constructor.
Qed.

End SeededFacts.

(** ** Resolution and access                                              *)

Module LookupFacts.

Import ListService ListFacts.

Lemma findIndex_none_of {A : Type} (p : A -> bool) (l : list A) :
  (forall x, In x l -> p x = false) -> Js.findIndex p l = None.
Proof.
  induction l as [|y l IH]; intros H; simpl; [reflexivity|].
  rewrite (H y (or_introl eq_refl)), IH; [reflexivity|].
  intros x Hx. apply H. right. exact Hx.
Qed.

(** Replacing the first element that satisfies [p] by one that satisfies a
    stronger [q] makes it the first that satisfies [q]. *)
Lemma findIndex_insert_stronger {A : Type} (p q : A -> bool) (l : list A) (i : nat) (x : A) :
  Js.findIndex p l = Some i -> (forall y, q y = true -> p y = true) -> q x = true ->
  Js.findIndex q (<[i:=x]> l) = Some i.
Proof.
  revert i. induction l as [|y l IH]; intros i; simpl; [discriminate|].
  destruct (p y) eqn:Hy.
  - intros [= <-] _ Hx. simpl. rewrite Hx. reflexivity.
  - destruct (Js.findIndex p l) as [j|] eqn:Hj; [|discriminate].
    intros [= <-] Hqp Hx. simpl.
    destruct (q y) eqn:Hq; [rewrite (Hqp y Hq) in Hy; discriminate|].
    rewrite (IH j eq_refl Hqp Hx). reflexivity.
Qed.

(** The state after [shareList], [writeBack] and the like, seen through
    [storedLists]. *)
Lemma storedLists_setCache w c u : storedLists (setCache w c) u = storedLists w u.
Proof. reflexivity. Qed.

(** With ids that name one record, the owner's own pass finds the record. *)
Lemma findOwned_complete w u lid l :
  uniqueIds w -> In l (storedLists w u) -> list_id l = lid ->
  option_map resolved (findOwned w u lid) = Some (l, u).
Proof.
  intros Hu Hin Hid. unfold findOwned.
  destruct (Js.findIndex _ (storedLists w u)) as [i|] eqn:Hi.
  - destruct (findIndex_Some _ _ _ Hi) as (x & Hx & Hp). rewrite Hx.
    apply String.eqb_eq in Hp. apply nth_error_In in Hx.
    destruct (Hu u u x l Hx Hin) as [_ ->]; [congruence | reflexivity].
  - pose proof (findIndex_None _ _ Hi l Hin) as Hp. cbv beta in Hp.
    rewrite Hid, String.eqb_refl in Hp. discriminate.
Qed.

Lemma findShared_complete w u lid e owner l users :
  uniqueIds w -> owner <> u -> In owner (List.map user_id users) ->
  In l (storedLists w owner) -> list_id l = lid ->
  Js.arrIncludes (list_sharedWith l) e = true ->
  option_map resolved (findShared w u lid e users) = Some (l, owner).
Proof.
  intros Hu Hne Hown Hin Hid Hsh.
  induction users as [|user rest IH]; [destruct Hown|].
  cbn [findShared].
  destruct (String.eqb_spec (user_id user) u) as [Heq|Hneq]; cbn [negb].
  - apply IH. destruct Hown as [Ho|Ho]; [congruence | exact Ho].
  - destruct (Js.findIndex _ (storedLists w (user_id user))) as [i|] eqn:Hi.
    + destruct (findIndex_Some _ _ _ Hi) as (x & Hx & Hp). rewrite Hx.
      unfold sharedMatch in Hp. apply andb_true_iff in Hp as [Hp _].
      apply String.eqb_eq in Hp. apply nth_error_In in Hx.
      destruct (Hu (user_id user) owner x l Hx Hin) as [-> ->]; [congruence | reflexivity].
    + destruct Hown as [Ho|Ho]; [|apply IH; exact Ho].
      pose proof (findIndex_None _ _ Hi l) as Hp. rewrite Ho in Hp.
      specialize (Hp Hin). unfold sharedMatch in Hp.
      rewrite Hid, String.eqb_refl, Hsh in Hp. discriminate.
Qed.

End LookupFacts.

(** X1. With list ids that name one record of the whole store, [findListById]
    finds every list the requester may see: a list of the requester's own
    partition, and a list that is shared with the requester's email and
    whose owner is in the user directory. *)
Theorem findListById_finds_visible_lists (w : World) (requester listId owner : string)
    (l : List) :
  uniqueIds w ->
  In l (storedLists w owner) -> list_id l = listId ->
  owner = requester \/
  (In owner (List.map user_id (MOCK_USERS w)) /\
   exists e, getCurrentUserEmail w requester = Some e /\
             Js.arrIncludes (list_sharedWith l) e = true) ->
  option_map resolved (findListById w requester listId) = Some (l, owner).
Proof.
  intros Hu Hin Hid Hvis.
  destruct (String.eqb_spec owner requester) as [->|Hne].
  - pose proof (LookupFacts.findOwned_complete w requester listId l Hu Hin Hid) as Ho.
    unfold findListById. destruct (findOwned w requester listId); [exact Ho | discriminate].
  - destruct Hvis as [Heq|(Hown & e & He & Hsh)]; [congruence|].
    unfold findListById.
    destruct (findOwned w requester listId) as [found|] eqn:Hf.
    + destruct (findOwned_Some _ _ _ _ Hf) as (_ & _ & Hi & Hn).
      destruct (findIndex_Some _ _ _ Hi) as (x & Hx & Hp).
      apply String.eqb_eq in Hp. apply nth_error_In in Hx.
      destruct (Hu requester owner x l Hx Hin) as [Heq _]; congruence.
    + rewrite He. apply LookupFacts.findShared_complete; assumption.
Qed.

(** X1: at the seeded store, for user 2 and the list [a5] that user 1 shares with it. *)
Lemma findListById_finds_visible_lists_witness :
  exists l,
    In l (storedLists Scenario.seeded "1") /\
    option_map resolved (findListById Scenario.seeded "2" "a5") = Some (l, "1").
Proof.
  eexists. split; [right; left; reflexivity|].
  apply (findListById_finds_visible_lists Scenario.seeded "2" "a5" "1").
  - exact SeededFacts.seeded_uniqueIds.
  - right. left. reflexivity.
  - reflexivity.
  - right. split; [left; reflexivity|].
    exists "anna@example.com". split; reflexivity.
Defined.

Module AccessFacts.

Import ListService ListFacts.

Lemma storedLists_after_share env w u payload :
  success (fst (shareList env w u payload)) = true ->
  exists index l,
    Js.findIndex (fun x => String.eqb (list_id x) (sl_listId payload)) (storedLists w u)
      = Some index /\
    nth_error (storedLists w u) index = Some l /\
    list_ownerId l = u /\
    MOCK_USERS (snd (shareList env w u payload)) = MOCK_USERS w /\
    forall o,
      storedLists (snd (shareList env w u payload)) o
      = if String.eqb o u
        then <[index := sharedWithOneMore env l (sl_userEmail payload)]> (storedLists w u)
        else storedLists w o.
Proof.
  intros H. destruct (Sharing.shareList_success _ _ _ _ H)
    as (target & index & l & _ & _ & _ & Hi & Hl & Ho & _ & _ & Hw).
  exists index, l. rewrite Hw. repeat split; auto.
  intros o. rewrite LookupFacts.storedLists_setCache. apply storedLists_saveUserLists.
Qed.

End AccessFacts.

(** X2. Sharing grants access. After a successful [shareList] by a user of
    the directory, for a list id that no other partition uses, every user
    whose email is the shared one resolves the list, as a collaborator:
    [getListById] succeeds for that user with [canEdit] set and [isOwner],
    [canDelete] and [canShare] unset, and the list names the email in
    [sharedWith]. *)
Theorem shareList_grants_access (env : Env) (w : World) (userId : string)
    (payload : ShareListPayload) (target : string) :
  success (fst (shareList env w userId payload)) = true ->
  In userId (List.map user_id (MOCK_USERS w)) ->
  getCurrentUserEmail w target = Some (sl_userEmail payload) ->
  target <> userId ->
  (forall o l, o <> userId -> In l (storedLists w o) -> list_id l <> sl_listId payload) ->
  exists view,
    getListById (snd (shareList env w userId payload)) target (sl_listId payload)
      = succeeded (Some view) "List retrieved successfully" /\
    list_id (lws_list view) = sl_listId payload /\
    list_ownerId (lws_list view) = userId /\
    In (sl_userEmail payload) (list_sharedWith (lws_list view)) /\
    canEdit view = true /\ isOwner view = false /\
    canDelete view = false /\ canShare view = false.
Proof.
  intros Hok Hknown Hemail Hne Helse.
  destruct (AccessFacts.storedLists_after_share _ _ _ _ Hok)
    as (index & l & Hi & Hl & Ho & Hus & Hst).
  set (w1 := snd (shareList env w userId payload)) in *.
  set (updated := sharedWithOneMore env l (sl_userEmail payload)) in *.
  assert (Hid : list_id l = sl_listId payload).
  { destruct (findIndex_Some _ _ _ Hi) as (x & Hx & Hp).
    rewrite Hl in Hx. injection Hx as <-. apply String.eqb_eq. exact Hp. }
  assert (Hmatch : sharedMatch (sl_listId payload) (sl_userEmail payload) updated = true).
  { unfold sharedMatch, updated. cbn [list_id list_sharedWith sharedWithOneMore].
    rewrite Hid, String.eqb_refl, Sharing.arrIncludes_snoc. reflexivity. }
  assert (Hemail1 : getCurrentUserEmail w1 target = Some (sl_userEmail payload)).
  { rewrite (getCurrentUserEmail_users w w1 target Hus). exact Hemail. }
  assert (Hfound : findListById w1 target (sl_listId payload)
                   = Some (mkFound updated userId index
                             (<[index := updated]> (storedLists w userId)))).
  { unfold findListById, findOwned. rewrite Hst.
    destruct (String.eqb_spec target userId) as [Heq|_]; [congruence|].
    rewrite LookupFacts.findIndex_none_of.
    2:{ intros x Hx. apply String.eqb_neq. exact (Helse target x Hne Hx). }
    rewrite Hemail1, Hus.
    clear Hemail Hemail1 Hus. revert Hknown. generalize (MOCK_USERS w).
    intros users. induction users as [|user rest IH]; intros Hknown; [destruct Hknown|].
    cbn [findShared].
    destruct (String.eqb_spec (user_id user) target) as [Heq|Hneq]; cbn [negb].
    - apply IH. destruct Hknown as [Hk|Hk]; [congruence | exact Hk].
    - rewrite Hst.
      destruct (String.eqb_spec (user_id user) userId) as [->|Hother].
      + rewrite (LookupFacts.findIndex_insert_stronger _ _ _ _ updated Hi).
        * rewrite (nth_error_insert _ _ updated _ Hl). reflexivity.
        * intros y Hy. unfold sharedMatch in Hy. apply andb_true_iff in Hy as [Hy _]. exact Hy.
        * exact Hmatch.
      + rewrite LookupFacts.findIndex_none_of.
        2:{ intros x Hx. unfold sharedMatch.
            destruct (String.eqb_spec (list_id x) (sl_listId payload)) as [Hx'|_];
              [destruct (Helse (user_id user) x Hother Hx Hx') | reflexivity]. }
        apply IH. destruct Hknown as [Hk|Hk]; [congruence | exact Hk]. }
  assert (Hedit : canUserEditList w1 updated target = true).
  { unfold canUserEditList. rewrite Hemail1.
    unfold sharedMatch in Hmatch. apply andb_true_iff in Hmatch as [_ ->].
    destruct (String.eqb _ _); reflexivity. }
  exists (enrichList w1 updated target).
  unfold getListById. rewrite Hfound. cbn [f_list]. rewrite Hedit. cbn [negb].
  split; [reflexivity|].
  unfold enrichList. cbn [lws_list canEdit isOwner canDelete canShare].
  cbn [updated sharedWithOneMore list_id list_ownerId list_sharedWith].
  rewrite Ho.
  destruct (String.eqb_spec userId target) as [Heq|_]; [congruence|].
  rewrite Hemail1.
  repeat split; auto.
  - apply in_or_app. right. left. reflexivity.
  - rewrite Sharing.arrIncludes_snoc. reflexivity.
Qed.

(** X2: user 1 shares its list [a0] with test@example.com, user 3. *)
Lemma shareList_grants_access_witness :
  exists view,
    getListById
      (snd (shareList (Scenario.env 2000 "b") Scenario.seeded "1"
              {| sl_listId := "a0"; sl_userEmail := "test@example.com" |}))
      "3" "a0"
    = succeeded (Some view) "List retrieved successfully" /\
    canEdit view = true /\ canShare view = false.
Proof.
  destruct (shareList_grants_access (Scenario.env 2000 "b") Scenario.seeded "1"
              {| sl_listId := "a0"; sl_userEmail := "test@example.com" |} "3")
    as (view & Hview & _ & _ & _ & Hedit & _ & _ & Hshare).
  - reflexivity.
  - left. reflexivity.
  - reflexivity.
  - discriminate.
  - intros o l Ho Hl. apply SeededFacts.stored_In in Hl as [-> _]. contradiction.
  - exists view. auto.
Defined.

(** X3. [deleteList] removes what it says: after a successful call the
    caller's partition holds the lists with another id, in their order, and
    none with the deleted id; the other partitions are as before; a second
    call fails with "list not found" and changes nothing. *)
Theorem deleteList_removes (w : World) (userId listId : string) :
  success (fst (deleteList w userId listId)) = true ->
  storedLists (snd (deleteList w userId listId)) userId
    = List.filter (fun l => negb (String.eqb (list_id l) listId)) (storedLists w userId) /\
  (forall l, In l (storedLists (snd (deleteList w userId listId)) userId) ->
             list_id l <> listId) /\
  (forall o, o <> userId ->
             storedLists (snd (deleteList w userId listId)) o = storedLists w o) /\
  deleteList (snd (deleteList w userId listId)) userId listId
    = (failure ERROR_MESSAGES.LIST_NOT_FOUND, snd (deleteList w userId listId)).
Proof.
  unfold deleteList at 1.
  destruct (List.find _ _) as [l|] eqn:Hl; [|discriminate].
  destruct (negb (String.eqb (list_ownerId l) userId)) eqn:Ho; [discriminate|].
  intros _.
  assert (Hw : snd (deleteList w userId listId)
               = saveUserLists w userId
                   (List.filter (fun l => negb (String.eqb (list_id l) listId))
                                (storedLists w userId))).
  { unfold deleteList. rewrite Hl, Ho. reflexivity. }
  rewrite Hw.
  assert (Hst : storedLists
                  (saveUserLists w userId
                     (List.filter (fun l => negb (String.eqb (list_id l) listId))
                                  (storedLists w userId))) userId
                = List.filter (fun l => negb (String.eqb (list_id l) listId))
                              (storedLists w userId)).
  { rewrite storedLists_saveUserLists, String.eqb_refl. reflexivity. }
  split; [exact Hst|]. split; [|split].
  - rewrite Hst. intros x Hx. apply filter_In in Hx as [_ Hx].
    apply negb_true_iff, String.eqb_neq in Hx. exact Hx.
  - intros o Hne. rewrite storedLists_saveUserLists.
    destruct (String.eqb_spec o userId); [congruence | reflexivity].
  - unfold deleteList at 1. rewrite Hst.
    destruct (List.find _ (List.filter _ _)) as [x|] eqn:Hx; [|reflexivity].
    apply find_some in Hx as [Hin Hid]. apply filter_In in Hin as [_ Hin].
    rewrite Hid in Hin. discriminate.
Qed.

(** X3: user 1 deletes its list [a0] from the seeded store. *)
Lemma deleteList_removes_witness :
  deleteList (snd (deleteList Scenario.seeded "1" "a0")) "1" "a0"
  = (failure ERROR_MESSAGES.LIST_NOT_FOUND, snd (deleteList Scenario.seeded "1" "a0")).
Proof.
  apply (deleteList_removes Scenario.seeded "1" "a0"). reflexivity.
Defined.

(** X4. [createList] with a payload that passes validation, for a user with
    fewer than fifty lists, succeeds: the new list is the first of the
    user's collection and the others follow as they were, the other
    partitions are untouched, and the list is owned by the caller, shared
    with nobody, its tasks the trimmed initial texts, all pending. *)
Theorem createList_prepends (env : Env) (w : World) (userId : string)
    (payload : CreateListPayload) :
  isValid (validationSchemas.createList (cl_title payload)
             (default [] (cl_initialTasks payload))) = true ->
  (length (storedLists w userId) < 50)%nat ->
  exists view,
    fst (createList env w userId payload)
      = succeeded (Some view) SUCCESS_MESSAGES.LIST_CREATED /\
    storedLists (snd (createList env w userId payload)) userId
      = lws_list view :: storedLists w userId /\
    (forall o, o <> userId ->
       storedLists (snd (createList env w userId payload)) o = storedLists w o) /\
    list_ownerId (lws_list view) = userId /\
    list_title (lws_list view) = Js.trim (cl_title payload) /\
    list_sharedWith (lws_list view) = [] /\
    List.map task_text (list_tasks (lws_list view))
      = List.map Js.trim (default [] (cl_initialTasks payload)) /\
    Forall (fun t => task_completed t = false) (list_tasks (lws_list view)) /\
    isOwner view = true /\ canEdit view = true /\
    completedTasks (statistics view) = 0.
Proof.
  intros Hv Hlen. unfold createList. rewrite Hv. cbn [negb].
  destruct (Nat.leb_spec 50 (length (storedLists w userId))) as [Hge|_]; [lia|].
  eexists. split; [reflexivity|]. cbn [snd].
  assert (Htasks : forall (k : nat) (texts : list string),
            List.map task_text
              (Js.mapi_from k (fun text index =>
                 mkTask (fresh env (S index)) (Js.trim text) false (Some (now env)) None) texts)
              = List.map Js.trim texts /\
            Forall (fun t => task_completed t = false)
              (Js.mapi_from k (fun text index =>
                 mkTask (fresh env (S index)) (Js.trim text) false (Some (now env)) None) texts)).
  { intros k texts. revert k. induction texts as [|t texts IH]; intros k; simpl.
    - split; constructor.
    - destruct (IH (S k)) as [H1 H2]. split; [f_equal; exact H1 | constructor; [reflexivity | exact H2]]. }
  destruct (Htasks 0%nat (default [] (cl_initialTasks payload))) as [Htexts Hpending].
  split. { rewrite storedLists_saveUserLists, String.eqb_refl. reflexivity. }
  split. { intros o Hne. rewrite storedLists_saveUserLists.
           destruct (String.eqb_spec o userId); [congruence | reflexivity]. }
  unfold enrichList. cbn [lws_list list_ownerId list_title list_sharedWith list_tasks
                           isOwner canEdit statistics calculateStatistics completedTasks].
  rewrite String.eqb_refl.
  repeat split; auto.
  unfold countCompleted, Js.mapi.
  replace (List.filter task_completed _) with (@nil Task); [reflexivity|].
  symmetry. clear -Hpending. unfold Js.mapi in Hpending.
  induction Hpending as [|t ts Ht _ IH]; [reflexivity|]. simpl. rewrite Ht. exact IH.
Qed.

(** X4: user 1 creates a list with one task at the seeded store. *)
Lemma createList_prepends_witness :
  exists view,
    fst (createList (Scenario.env 2000 "b") Scenario.seeded "1"
           {| cl_title := " Nowa "; cl_initialTasks := Some [" Mleko "] |})
    = succeeded (Some view) SUCCESS_MESSAGES.LIST_CREATED /\
    list_title (lws_list view) = "Nowa" /\
    List.map task_text (list_tasks (lws_list view)) = ["Mleko"].
Proof.
  destruct (createList_prepends (Scenario.env 2000 "b") Scenario.seeded "1"
              {| cl_title := " Nowa "; cl_initialTasks := Some [" Mleko "] |})
    as (view & Hview & _ & _ & _ & Htitle & _ & Htexts & _).
  - reflexivity.
  - vm_compute. lia.
  - exists view. auto.
Defined.

(** X5. [deleteTask] removes what it says: after a successful call the same
    user resolves the list without any task of that id, the other tasks in
    their order; a second call fails with "task not found" and changes
    nothing. *)
Theorem deleteTask_removes (env env' : Env) (w : World) (userId listId taskId : string) :
  success (fst (deleteTask env w userId listId taskId)) = true ->
  exists found found',
    findListById w userId listId = Some found /\
    findListById (snd (deleteTask env w userId listId taskId)) userId listId = Some found' /\
    list_tasks (f_list found')
      = List.filter (fun t => negb (String.eqb (task_id t) taskId))
                    (list_tasks (f_list found)) /\
    lookupTask (snd (deleteTask env w userId listId taskId)) userId listId taskId = None /\
    deleteTask env' (snd (deleteTask env w userId listId taskId)) userId listId taskId
      = (failure ERROR_MESSAGES.TASK_NOT_FOUND,
         snd (deleteTask env w userId listId taskId)).
Proof.
  unfold deleteTask at 1.
  destruct (findListById w userId listId) as [found|] eqn:Hf; [|discriminate].
  destruct (canUserEditList w (f_list found) userId) eqn:Hc; [|discriminate].
  cbn [negb].
  destruct (existsb _ _) eqn:He; [|discriminate].
  intros _.
  set (kept := List.filter (fun t => negb (String.eqb (task_id t) taskId))
                           (list_tasks (f_list found))).
  set (updated := withTasks env (f_list found) kept).
  assert (Hw : snd (deleteTask env w userId listId taskId) = writeBack w found updated).
  { unfold deleteTask. rewrite Hf, Hc, He. reflexivity. }
  rewrite Hw.
  assert (Hf' : findListById (writeBack w found updated) userId listId
                = Some (mkFound updated (f_ownerId found) (f_listIndex found)
                          (<[f_listIndex found := updated]> (f_ownerLists found)))).
  { apply WriteBack.findListById_writeBack; auto. }
  assert (Hgone : forall t, In t kept -> String.eqb (task_id t) taskId = false).
  { intros t Ht. apply filter_In in Ht as [_ Ht]. apply negb_true_iff. exact Ht. }
  exists found, (mkFound updated (f_ownerId found) (f_listIndex found)
                   (<[f_listIndex found := updated]> (f_ownerLists found))).
  split; [reflexivity|]. split; [exact Hf'|]. split; [reflexivity|]. split.
  - unfold lookupTask. rewrite Hf'. cbn [f_list updated withTasks list_tasks].
    rewrite findIndex_find, LookupFacts.findIndex_none_of; [reflexivity | exact Hgone].
  - unfold deleteTask. rewrite Hf'. cbn [f_list].
    rewrite (canUserEditList_users w (writeBack w found updated) (f_list found) updated userId);
      [|reflexivity..].
    rewrite Hc. cbn [negb updated withTasks list_tasks].
    replace (existsb (fun t => String.eqb (task_id t) taskId) kept) with false; [reflexivity|].
    symmetry. apply not_true_is_false. intros Hex. apply existsb_exists in Hex as (t & Ht & Hid).
    rewrite (Hgone t Ht) in Hid. discriminate.
Qed.

(** X5: user 1 deletes the task [a2] of its list [a0]. *)
Lemma deleteTask_removes_witness :
  lookupTask (snd (deleteTask (Scenario.env 2000 "b") Scenario.seeded "1" "a0" "a2"))
             "1" "a0" "a2" = None.
Proof.
  destruct (deleteTask_removes (Scenario.env 2000 "b") (Scenario.env 3000 "c")
              Scenario.seeded "1" "a0" "a2")
    as (found & found' & _ & _ & _ & Hgone & _).
  - reflexivity.
  - exact Hgone.
Defined.

(** X6. [addTask] appends: after a successful call the same user resolves
    the list with the old tasks followed by the returned task, which is
    pending, carries the trimmed text and has no completion time. *)
Theorem addTask_appends (env : Env) (w : World) (userId : string)
    (payload : CreateTaskPayload) :
  success (fst (addTask env w userId payload)) = true ->
  exists found found' task,
    findListById w userId (ct_listId payload) = Some found /\
    data (fst (addTask env w userId payload)) = Some task /\
    findListById (snd (addTask env w userId payload)) userId (ct_listId payload)
      = Some found' /\
    f_ownerId found' = f_ownerId found /\
    list_tasks (f_list found') = list_tasks (f_list found) ++ [task] /\
    task_text task = Js.trim (ct_text payload) /\
    task_completed task = false /\ task_completedAt task = None /\
    Z.of_nat (length (list_tasks (f_list found'))) <= VALIDATION_RULES.MAX_TASKS_PER_LIST.
Proof.
  unfold addTask at 1.
  destruct (negb (isValid _)) eqn:Hv; [discriminate|].
  destruct (findListById w userId (ct_listId payload)) as [found|] eqn:Hf; [|discriminate].
  destruct (canUserEditList w (f_list found) userId) eqn:Hc; [|discriminate].
  cbn [negb].
  destruct (Z.leb_spec VALIDATION_RULES.MAX_TASKS_PER_LIST
              (Z.of_nat (length (list_tasks (f_list found))))) as [|Hlt]; [discriminate|].
  intros _.
  set (task := mkTask (fresh env 0) (Js.trim (ct_text payload)) false (Some (now env)) None).
  set (updated := withTasks env (f_list found) (list_tasks (f_list found) ++ [task])).
  assert (Hr : addTask env w userId payload
               = (succeeded (Some task) SUCCESS_MESSAGES.TASK_ADDED,
                  writeBack w found updated)).
  { unfold addTask. rewrite Hv, Hf, Hc. cbn [negb].
    destruct (Z.leb_spec VALIDATION_RULES.MAX_TASKS_PER_LIST
                (Z.of_nat (length (list_tasks (f_list found))))); [lia | reflexivity]. }
  rewrite Hr. cbn [fst snd].
  exists found, (mkFound updated (f_ownerId found) (f_listIndex found)
                   (<[f_listIndex found := updated]> (f_ownerLists found))), task.
  split; [reflexivity|]. split; [reflexivity|].
  split; [apply WriteBack.findListById_writeBack; auto|].
  repeat split.
  cbn [f_list updated withTasks list_tasks]. rewrite length_app. simpl.
  unfold VALIDATION_RULES.MAX_TASKS_PER_LIST in *. lia.
Qed.

(** X6: user 2, a collaborator, adds a task to the list [a5]. *)
Lemma addTask_appends_witness :
  exists task,
    data (fst (addTask (Scenario.env 2000 "b") Scenario.seeded "2"
                 {| ct_text := " Ser "; ct_listId := "a5" |})) = Some task /\
    task_text task = "Ser" /\ task_completed task = false.
Proof.
  destruct (addTask_appends (Scenario.env 2000 "b") Scenario.seeded "2"
              {| ct_text := " Ser "; ct_listId := "a5" |})
    as (found & found' & task & _ & Hdata & _ & _ & _ & Htext & Hpending & _).
  - reflexivity.
  - exists task. auto.
Defined.

(** X7. Renaming: after a successful [updateList] that passes a title only,
    the same user resolves the list under the same owner with the trimmed
    new title, and with its tasks and collaborators as they were. *)
Theorem updateList_renames (env : Env) (w : World) (userId listId title : string) :
  success (fst (updateList env w userId listId
                  {| ul_title := Some title; ul_sharedWith := None |})) = true ->
  exists found found',
    findListById w userId listId = Some found /\
    findListById (snd (updateList env w userId listId
                         {| ul_title := Some title; ul_sharedWith := None |}))
                 userId listId = Some found' /\
    f_ownerId found' = f_ownerId found /\
    list_title (f_list found') = Js.trim title /\
    1 <= Js.strlen (Js.trim title) <= VALIDATION_RULES.MAX_LIST_TITLE_LENGTH /\
    list_tasks (f_list found') = list_tasks (f_list found) /\
    list_sharedWith (f_list found') = list_sharedWith (f_list found) /\
    list_ownerId (f_list found') = list_ownerId (f_list found).
Proof.
  unfold updateList at 1. cbn [ul_title ul_sharedWith].
  destruct (findListById w userId listId) as [found|] eqn:Hf; [|discriminate].
  destruct (canUserEditList w (f_list found) userId) eqn:Hc; [|discriminate].
  cbn [negb]. unfold validators.listTitle.
  destruct (Js.truthy (Js.trim title)) eqn:Ht; cbn [negb]; [|discriminate].
  destruct (isValidListTitle title) eqn:Hvalid; cbn [negb]; [|discriminate].
  intros _.
  eexists found, _. split; [reflexivity|].
  split.
  { unfold updateList. cbn [ul_title ul_sharedWith]. rewrite Hf, Hc. cbn [negb].
    unfold validators.listTitle. rewrite Ht, Hvalid. cbn [negb snd].
    apply WriteBack.findListById_writeBack; auto. }
  cbn [f_ownerId f_list list_title list_tasks list_sharedWith list_ownerId default].
  unfold isValidListTitle in Hvalid. apply andb_true_iff in Hvalid as [H1 H2].
  apply Z.leb_le in H1, H2. unfold VALIDATION_RULES.MIN_LIST_TITLE_LENGTH in H1.
  repeat split; auto.
Qed.

(** X7: user 2, a collaborator, renames the list [a5]. *)
Lemma updateList_renames_witness :
  exists found',
    findListById
      (snd (updateList (Scenario.env 2000 "b") Scenario.seeded "2" "a5"
              {| ul_title := Some " Praca "; ul_sharedWith := None |}))
      "2" "a5" = Some found' /\
    f_ownerId found' = "1" /\ list_title (f_list found') = "Praca".
Proof.
  destruct (updateList_renames (Scenario.env 2000 "b") Scenario.seeded "2" "a5" " Praca ")
    as (found & found' & Hf & Hf' & Ho & Ht & _).
  - reflexivity.
  - exists found'. split; [exact Hf'|]. split; [|exact Ht].
    rewrite Ho. revert Hf. intros [= <-]. reflexivity.
Defined.

(** ** The limits on what is stored                                       *)

Module Limits.

Import ListService ListFacts.

Section Kept.

Variable P : List -> Prop.

Lemma of_stored w w' :
  (forall o, storedLists w' o = storedLists w o) -> everyList P w -> everyList P w'.
Proof. intros H Hw o l. rewrite H. apply Hw. Qed.

Lemma saved w o ls :
  everyList P w -> (forall l, In l ls -> P l) -> everyList P (saveUserLists w o ls).
Proof.
  intros Hw Hls o' l. rewrite storedLists_saveUserLists.
  destruct (String.eqb o' o); [apply Hls | apply Hw].
Qed.

Lemma written_back w u lid found updated :
  everyList P w -> findListById w u lid = Some found -> P updated ->
  everyList P (writeBack w found updated).
Proof.
  intros Hw Hf Hp. destruct (findListById_Some _ _ _ _ Hf) as (Hl & _).
  unfold writeBack. apply saved; [exact Hw|].
  intros l Hin. apply In_insert in Hin as [->|Hin]; [exact Hp|].
  rewrite Hl in Hin. exact (Hw _ _ Hin).
Qed.

Lemma found_has w u lid found :
  everyList P w -> findListById w u lid = Some found -> P (f_list found).
Proof.
  intros Hw Hf. destruct (findListById_Some _ _ _ _ Hf) as (_ & _ & Hin & _).
  exact (Hw _ _ Hin).
Qed.

End Kept.

Lemma length_mapi_from {A B : Type} (f : A -> nat -> B) (l : list A) (k : nat) :
  length (Js.mapi_from k f l) = length l.
Proof. revert k. induction l as [|x l IH]; intros k; simpl; [reflexivity | rewrite IH; reflexivity]. Qed.

Lemma isValid_validationOf errs : isValid (validationOf errs) = true -> errs = [].
Proof. destruct errs; [reflexivity | discriminate]. Qed.

Lemma listTitle_accepts title :
  validators.listTitle title = None ->
  1 <= Js.strlen (Js.trim title) <= VALIDATION_RULES.MAX_LIST_TITLE_LENGTH.
Proof.
  unfold validators.listTitle, isValidListTitle.
  destruct (negb (Js.truthy (Js.trim title))); [discriminate|].
  destruct (_ && _) eqn:H; [|discriminate]. intros _.
  apply andb_true_iff in H as [H1 H2]. apply Z.leb_le in H1, H2.
  unfold VALIDATION_RULES.MIN_LIST_TITLE_LENGTH in H1. lia.
Qed.

Lemma taskText_accepts text :
  validators.taskText text = None ->
  1 <= Js.strlen (Js.trim text) <= VALIDATION_RULES.MAX_TASK_TEXT_LENGTH.
Proof.
  unfold validators.taskText, isValidTaskText.
  destruct (negb (Js.truthy (Js.trim text))); [discriminate|].
  destruct (_ && _) eqn:H; [|discriminate]. intros _.
  apply andb_true_iff in H as [H1 H2]. apply Z.leb_le in H1, H2.
  unfold VALIDATION_RULES.MIN_TASK_TEXT_LENGTH in H1. lia.
Qed.

Lemma pushError_listTitle field title :
  pushError field (validators.listTitle title) = [] -> validators.listTitle title = None.
Proof.
  unfold validators.listTitle.
  destruct (negb (Js.truthy (Js.trim title))); [discriminate|].
  destruct (negb (isValidListTitle title)); [discriminate | reflexivity].
Qed.

Lemma pushError_taskText field text :
  pushError field (validators.taskText text) = [] -> validators.taskText text = None.
Proof.
  unfold validators.taskText.
  destruct (negb (Js.truthy (Js.trim text))); [discriminate|].
  destruct (negb (isValidTaskText text)); [discriminate | reflexivity].
Qed.

(** What [validationSchemas.createList] has checked when it accepts. *)
Lemma createList_accepts title tasks :
  isValid (validationSchemas.createList title tasks) = true ->
  1 <= Js.strlen (Js.trim title) <= VALIDATION_RULES.MAX_LIST_TITLE_LENGTH /\
  Z.of_nat (length tasks) <= VALIDATION_RULES.MAX_TASKS_PER_LIST /\
  Forall (fun text => Js.strlen (Js.trim text) <= VALIDATION_RULES.MAX_TASK_TEXT_LENGTH) tasks.
Proof.
  intros H. apply isValid_validationOf in H.
  apply app_eq_nil in H as [Ht H]. apply app_eq_nil in H as [Hn Hts].
  split; [apply listTitle_accepts, (pushError_listTitle _ _ Ht)|].
  split.
  - destruct (Z.ltb_spec VALIDATION_RULES.MAX_TASKS_PER_LIST (Z.of_nat (length tasks)));
      [discriminate | assumption].
  - clear Ht Hn. unfold Js.mapi in Hts. revert Hts. generalize 0%nat.
    induction tasks as [|text tasks IH]; intros k Hts; [constructor|].
    cbn [Js.mapi_from concat] in Hts. apply app_eq_nil in Hts as [Hhead Hrest].
    constructor; [|exact (IH _ Hrest)].
    destruct (Js.truthy (Js.trim text)) eqn:Htr.
    + apply (taskText_accepts text), (pushError_taskText _ _ Hhead).
    + destruct (Js.trim text); [|discriminate]. discriminate.
Qed.

Lemma initial_tasks_within (env : Env) (texts : list string) (k : nat) :
  Forall (fun text => Js.strlen (Js.trim text) <= VALIDATION_RULES.MAX_TASK_TEXT_LENGTH) texts ->
  Forall (fun t => Js.strlen (task_text t) <= VALIDATION_RULES.MAX_TASK_TEXT_LENGTH)
         (Js.mapi_from k
            (fun text index =>
               mkTask (fresh env (S index)) (Js.trim text) false (Some (now env)) None)
            texts).
Proof.
  intros H. revert k. induction H as [|text texts Hx _ IH]; intros k; cbn [Js.mapi_from].
  - constructor.
  - constructor; [exact Hx | apply IH].
Qed.

Lemma createList_within env w u payload :
  everyList withinLimits w -> everyList withinLimits (snd (createList env w u payload)).
Proof.
  intros Hw. unfold createList.
  destruct (isValid _) eqn:Hv; cbn [negb]; [|exact Hw].
  destruct (50 <=? _)%nat; [exact Hw|].
  cbn [snd]. apply saved; [exact Hw|].
  intros l [<-|Hl]; [|exact (Hw _ _ Hl)].
  destruct (createList_accepts _ _ Hv) as (Ht & Hn & Hts).
  unfold withinLimits. cbn [list_title list_tasks].
  split; [exact Ht|]. split.
  - unfold Js.mapi. rewrite length_mapi_from. exact Hn.
  - apply initial_tasks_within. exact Hts.
Qed.

Lemma updateList_within env w u lid updates :
  everyList withinLimits w -> everyList withinLimits (snd (updateList env w u lid updates)).
Proof.
  intros Hw. unfold updateList.
  destruct (findListById w u lid) as [found|] eqn:Hf; [|exact Hw].
  destruct (negb _); [exact Hw|].
  destruct (match ul_title updates with Some _ => _ | None => _ end) eqn:Hv; [exact Hw|].
  cbn [snd]. eapply written_back; [exact Hw | exact Hf |].
  destruct (found_has _ _ _ _ _ Hw Hf) as (Ht & Hn & Hts).
  unfold withinLimits. cbn [list_title list_tasks].
  split; [|split; assumption].
  destruct (ul_title updates) as [title|]; [|exact Ht].
  pose proof (listTitle_accepts _ Hv) as Hb.
  destruct (Js.truthy (Js.trim title)); [exact Hb | exact Ht].
Qed.

Lemma deleteList_within w u lid :
  everyList withinLimits w -> everyList withinLimits (snd (deleteList w u lid)).
Proof.
  intros Hw. unfold deleteList.
  destruct (List.find _ _) as [l|]; [|exact Hw].
  destruct (negb _); [exact Hw|].
  cbn [snd]. apply saved; [exact Hw|].
  intros l' Hl'. apply filter_In in Hl' as [Hl' _]. exact (Hw _ _ Hl').
Qed.

Lemma shareList_within env w u payload :
  everyList withinLimits w -> everyList withinLimits (snd (shareList env w u payload)).
Proof.
  intros Hw.
  destruct (success (fst (shareList env w u payload))) eqn:H.
  - destruct (AccessFacts.storedLists_after_share _ _ _ _ H)
      as (index & l & _ & Hl & _ & _ & Hst).
    intros o x. rewrite Hst. destruct (String.eqb o u); [|apply Hw].
    intros Hx. apply In_insert in Hx as [->|Hx]; [|exact (Hw _ _ Hx)].
    exact (Hw _ _ (nth_error_In _ _ Hl)).
  - rewrite (Sharing.shareList_failure_keeps _ _ _ _ H). exact Hw.
Qed.

Lemma addTask_within env w u payload :
  everyList withinLimits w -> everyList withinLimits (snd (addTask env w u payload)).
Proof.
  intros Hw. unfold addTask.
  destruct (isValid _) eqn:Hv; cbn [negb]; [|exact Hw].
  destruct (findListById w u _) as [found|] eqn:Hf; [|exact Hw].
  destruct (negb _); [exact Hw|].
  destruct (Z.leb_spec VALIDATION_RULES.MAX_TASKS_PER_LIST
              (Z.of_nat (length (list_tasks (f_list found))))) as [|Hlt]; [exact Hw|].
  cbn [snd]. eapply written_back; [exact Hw | exact Hf |].
  destruct (found_has _ _ _ _ _ Hw Hf) as (Ht & Hn & Hts).
  unfold withinLimits. cbn [list_title list_tasks withTasks].
  split; [exact Ht|]. split.
  - rewrite length_app. simpl. lia.
  - apply Forall_app. split; [exact Hts|]. constructor; [|constructor]. cbn [task_text].
    apply isValid_validationOf in Hv. unfold validationSchemas.addTask in Hv.
    apply (taskText_accepts (ct_text payload)), (pushError_taskText _ _ Hv).
Qed.

Lemma insert_keeps_texts (i : nat) (task : Task) (tasks : list Task) (bound : Z) :
  Js.strlen (task_text task) <= bound ->
  Forall (fun t => Js.strlen (task_text t) <= bound) tasks ->
  Forall (fun t => Js.strlen (task_text t) <= bound) (<[i:=task]> tasks).
Proof.
  intros Ht Hts. apply List.Forall_forall. intros x Hx.
  apply In_insert in Hx as [->|Hx]; [exact Ht|].
  revert x Hx. apply List.Forall_forall. exact Hts.
Qed.

Lemma updateTask_within env w u lid tid updates :
  everyList withinLimits w ->
  everyList withinLimits (snd (updateTask env w u lid tid updates)).
Proof.
  intros Hw. unfold updateTask.
  destruct (findListById w u lid) as [found|] eqn:Hf; [|exact Hw].
  destruct (negb _); [exact Hw|].
  destruct (Js.findIndex _ _) as [i|]; [|exact Hw].
  destruct (match ut_text updates with Some _ => _ | None => _ end) eqn:Hv; [exact Hw|].
  destruct (nth_error _ i) as [task|] eqn:Hn; [|exact Hw].
  cbn [snd]. eapply written_back; [exact Hw | exact Hf |].
  destruct (found_has _ _ _ _ _ Hw Hf) as (Ht & Hlen & Hts).
  unfold withinLimits. cbn [list_title list_tasks withTasks].
  rewrite replaceAt_insert, length_insert.
  split; [exact Ht|]. split; [exact Hlen|].
  apply insert_keeps_texts; [|exact Hts]. cbn [task_text].
  assert (Hold : Js.strlen (task_text task) <= VALIDATION_RULES.MAX_TASK_TEXT_LENGTH).
  { revert task Hn. intros task Hn. apply nth_error_In in Hn.
    revert task Hn. apply List.Forall_forall. exact Hts. }
  destruct (ut_text updates) as [text|]; [|exact Hold].
  pose proof (taskText_accepts _ Hv) as Hb.
  destruct (Js.truthy (Js.trim text)); [lia | exact Hold].
Qed.

Lemma deleteTask_within env w u lid tid :
  everyList withinLimits w -> everyList withinLimits (snd (deleteTask env w u lid tid)).
Proof.
  intros Hw. unfold deleteTask.
  destruct (findListById w u lid) as [found|] eqn:Hf; [|exact Hw].
  destruct (negb (canUserEditList _ _ _)); [exact Hw|].
  destruct (negb (existsb _ _)); [exact Hw|].
  cbn [snd]. eapply written_back; [exact Hw | exact Hf |].
  destruct (found_has _ _ _ _ _ Hw Hf) as (Ht & Hlen & Hts).
  unfold withinLimits. cbn [list_title list_tasks withTasks].
  split; [exact Ht|]. split.
  - pose proof (List.filter_length_le (fun t => negb (String.eqb (task_id t) tid))
                  (list_tasks (f_list found))). lia.
  - apply List.Forall_forall. intros x Hx. apply filter_In in Hx as [Hx _].
    revert x Hx. apply List.Forall_forall. exact Hts.
Qed.

Lemma toggleTask_within env w u lid tid :
  everyList withinLimits w -> everyList withinLimits (snd (toggleTask env w u lid tid)).
Proof.
  intros Hw. unfold toggleTask.
  destruct (findListById w u lid) as [found|] eqn:Hf; [|exact Hw].
  destruct (negb _); [exact Hw|].
  destruct (Js.findIndex _ _) as [i|]; [|exact Hw].
  destruct (nth_error _ i) as [task|] eqn:Hn; [|exact Hw].
  cbn [snd]. eapply written_back; [exact Hw | exact Hf |].
  destruct (found_has _ _ _ _ _ Hw Hf) as (Ht & Hlen & Hts).
  unfold withinLimits. cbn [list_title list_tasks withTasks].
  rewrite replaceAt_insert, length_insert.
  split; [exact Ht|]. split; [exact Hlen|].
  apply insert_keeps_texts; [|exact Hts]. cbn [task_text].
  apply nth_error_In in Hn. revert task Hn. apply List.Forall_forall. exact Hts.
Qed.

Lemma sampleLists_within env u l : In l (sampleLists env u) -> withinLimits l.
Proof.
  intros [<-|[<-|[]]]; unfold withinLimits; cbn [list_title list_tasks];
    (split; [vm_compute; split; discriminate|]);
    (split; [vm_compute; discriminate|]);
    repeat (constructor; [vm_compute; discriminate|]); constructor.
Qed.

Lemma loadUserLists_within stringify env w u f :
  everyList withinLimits w ->
  everyList withinLimits (snd (loadUserLists stringify env w u f)).
Proof.
  intros Hw. unfold loadUserLists.
  destruct (cache w !! _); [exact Hw|].
  destruct (storage w !! getUserListsKey u) as [stored|] eqn:Hs; cbn [snd].
  - exact Hw.
  - intros o l. rewrite LookupFacts.storedLists_setCache.
    unfold storedLists. cbn [storage setStorage].
    destruct (String.eqb_spec o u) as [->|Hne].
    + rewrite lookup_insert_eq. apply sampleLists_within.
    + rewrite lookup_insert_ne; [apply Hw|].
      intros H. apply Hne. symmetry. exact (getUserListsKey_inj _ _ H).
Qed.

Lemma signIn_stored env w email password o :
  storedLists (snd (AuthService.signIn env w email password)) o = storedLists w o.
Proof.
  unfold AuthService.signIn.
  destruct (negb _); [reflexivity|].
  destruct (AuthService.isUserLockedOut _ _ _); [reflexivity|].
  destruct (List.find _ _); reflexivity.
Qed.

Lemma signUp_stored env w name email password o :
  storedLists (snd (AuthService.signUp env w name email password)) o = storedLists w o.
Proof.
  unfold AuthService.signUp.
  destruct (negb _); [reflexivity|].
  destruct (List.find _ _); reflexivity.
Qed.

Lemma step_within stringify env w c :
  everyList withinLimits w -> everyList withinLimits (step stringify env w c).
Proof.
  destruct c; cbn [step];
    auto using loadUserLists_within, createList_within, updateList_within, deleteList_within,
      shareList_within, addTask_within, updateTask_within, deleteTask_within, toggleTask_within.
  - apply of_stored, signIn_stored.
  - apply of_stored, signUp_stored.
Qed.

End Limits.

(** X8. The limits of [VALIDATION_RULES] hold for everything that is stored:
    in every state the application reaches from a fresh install, each stored
    list has a title of 1 to 100 characters and at most 100 tasks, and each
    task text has at most 200 characters. *)
Theorem stored_lists_are_within_limits (stringify : ListFilter -> string) (w : World) :
  reachable stringify w ->
  forall (owner : string) (l : List),
    In l (storedLists w owner) ->
    1 <= Js.strlen (list_title l) <= 100 /\
    (length (list_tasks l) <= 100)%nat /\
    (forall t, In t (list_tasks l) -> Js.strlen (task_text t) <= 200).
Proof.
  intros Hr.
  assert (Hw : everyList withinLimits w).
  { induction Hr as [|env w c _ IH]; [|apply Limits.step_within; exact IH].
    intros o l. unfold storedLists. cbn. rewrite lookup_empty. intros []. }
  intros owner l Hin. destruct (Hw _ _ Hin) as (Ht & Hn & Hts).
  unfold VALIDATION_RULES.MAX_LIST_TITLE_LENGTH, VALIDATION_RULES.MAX_TASKS_PER_LIST,
    VALIDATION_RULES.MAX_TASK_TEXT_LENGTH in *.
  split; [exact Ht|]. split; [lia|].
  apply List.Forall_forall. exact Hts.
Qed.

(** X8: the statement at the store user 1's first load leaves. *)
Lemma stored_lists_are_within_limits_witness :
  reachable Scenario.stringify Scenario.seeded /\
  forall (owner : string) (l : List),
    In l (storedLists Scenario.seeded owner) ->
    1 <= Js.strlen (list_title l) <= 100 /\
    (length (list_tasks l) <= 100)%nat /\
    (forall t, In t (list_tasks l) -> Js.strlen (task_text t) <= 200).
Proof.
  split; [exact ScenarioFacts.seeded_reachable|].
  apply (stored_lists_are_within_limits Scenario.stringify Scenario.seeded).
  exact ScenarioFacts.seeded_reachable.
Defined.

(** ** Loading, filtering and statistics                                  *)

(** X9. A load is repeatable: whatever [loadUserLists] returns, the same
    call made again at once (same user, same filter) succeeds with the same
    lists, is answered from the cache and changes nothing. *)
Theorem loadUserLists_twice (stringify : ListFilter -> string) (env env' : Env) (w : World)
    (userId : string) (f : ListFilter) :
  success (fst (loadUserLists stringify env w userId f)) = true /\
  loadUserLists stringify env' (snd (loadUserLists stringify env w userId f)) userId f
    = (succeeded (data (fst (loadUserLists stringify env w userId f)))
                 "Lists loaded from cache",
       snd (loadUserLists stringify env w userId f)).
Proof.
  assert (H : success (fst (loadUserLists stringify env w userId f)) = true /\
              exists ls, data (fst (loadUserLists stringify env w userId f)) = Some ls /\
                cache (snd (loadUserLists stringify env w userId f))
                  !! cacheKey stringify userId f = Some ls).
  { unfold loadUserLists.
    destruct (cache w !! cacheKey stringify userId f) as [cached|] eqn:Hc.
    - split; [reflexivity|]. exists cached. split; [reflexivity | exact Hc].
    - destruct (storage w !! getUserListsKey userId) as [stored|];
        (split; [reflexivity|]); eexists; (split; [reflexivity|]);
        cbn [snd cache setCache]; apply lookup_insert_eq. }
  destruct H as [Hs (ls & Hd & Hc)]. split; [exact Hs|].
  generalize dependent (loadUserLists stringify env w userId f).
  intros [r w'] _ Hd Hc. cbn [fst snd] in *.
  unfold loadUserLists. rewrite Hc, Hd. reflexivity.
Qed.

Module FilterFacts.

Import ListService.

Section Sorting.

Context {A : Type}.
Variable gt : A -> A -> bool.

Lemma sortInsert_perm (x : A) (l : list A) : Permutation (Js.sortInsert gt x l) (x :: l).
Proof.
  induction l as [|y l IH]; simpl; [reflexivity|].
  destruct (gt x y); [|reflexivity].
  rewrite IH. apply perm_swap.
Qed.

Lemma sort_perm (l : list A) : Permutation (Js.sort gt l) l.
Proof.
  unfold Js.sort. induction l as [|x l IH]; simpl; [reflexivity|].
  rewrite sortInsert_perm, IH. reflexivity.
Qed.

(** The comparator is a strict weak order. *)
Hypothesis gt_asym : forall a b, gt a b = true -> gt b a = false.
Hypothesis le_trans : forall a b c, gt a b = false -> gt b c = false -> gt a c = false.

Lemma sortInsert_sorted (x : A) (l : list A) :
  StronglySorted (fun a b => gt a b = false) l ->
  StronglySorted (fun a b => gt a b = false) (Js.sortInsert gt x l).
Proof.
  induction 1 as [|y l Hl IH Hy]; simpl.
  - constructor; constructor.
  - destruct (gt x y) eqn:Hxy.
    + constructor; [exact IH|].
      apply List.Forall_forall. intros z Hz.
      apply (Permutation_in _ (sortInsert_perm x l)) in Hz as [<-|Hz].
      * apply gt_asym. exact Hxy.
      * revert z Hz. apply List.Forall_forall. exact Hy.
    + constructor; [constructor; assumption|].
      constructor; [exact Hxy|].
      apply List.Forall_forall. intros z Hz.
      apply (le_trans x y z Hxy). revert z Hz. apply List.Forall_forall. exact Hy.
Qed.

Lemma sort_sorted (l : list A) : StronglySorted (fun a b => gt a b = false) (Js.sort gt l).
Proof.
  unfold Js.sort. induction l as [|x l IH]; simpl; [constructor|].
  apply sortInsert_sorted. exact IH.
Qed.

End Sorting.

Lemma strLt_irrefl a : Js.strLt a a = false.
Proof.
  induction a as [|c a IH]; simpl; [reflexivity|].
  rewrite Nat.ltb_irrefl. exact IH.
Qed.

Lemma strLt_asym a : forall b, Js.strLt a b = true -> Js.strLt b a = false.
Proof.
  induction a as [|x a IH]; intros [|y b]; simpl; try discriminate; try reflexivity.
  destruct (Nat.ltb_spec (nat_of_ascii x) (nat_of_ascii y));
    destruct (Nat.ltb_spec (nat_of_ascii y) (nat_of_ascii x)); try lia; try discriminate;
    try reflexivity.
  apply IH.
Qed.

Lemma strLt_negtrans a : forall b c,
  Js.strLt a b = false -> Js.strLt b c = false -> Js.strLt a c = false.
Proof.
  induction a as [|x a IH]; intros [|y b] [|z c]; simpl; try discriminate; try reflexivity.
  destruct (Nat.ltb_spec (nat_of_ascii x) (nat_of_ascii y));
    destruct (Nat.ltb_spec (nat_of_ascii y) (nat_of_ascii x));
    destruct (Nat.ltb_spec (nat_of_ascii y) (nat_of_ascii z));
    destruct (Nat.ltb_spec (nat_of_ascii z) (nat_of_ascii y));
    destruct (Nat.ltb_spec (nat_of_ascii x) (nat_of_ascii z));
    destruct (Nat.ltb_spec (nat_of_ascii z) (nat_of_ascii x));
    try lia; try discriminate; try reflexivity.
  apply IH.
Qed.

Lemma Qltb_asym a b : Qltb a b = true -> Qltb b a = false.
Proof.
  unfold Qltb. destruct (Qcompare a b) eqn:H; try discriminate. intros _.
  apply Qlt_alt in H. destruct (Qcompare b a) eqn:H'; try reflexivity.
  apply Qlt_alt in H'. exfalso. exact (Qlt_irrefl _ (Qlt_trans _ _ _ H H')).
Qed.

Lemma Qltb_false a b : Qltb a b = false <-> (b <= a)%Q.
Proof.
  unfold Qltb. split.
  - destruct (Qcompare a b) eqn:H; try discriminate; intros _.
    + apply Qeq_alt in H. rewrite H. apply Qle_refl.
    + apply Qgt_alt in H. apply Qlt_le_weak. exact H.
  - intros Hle. destruct (Qcompare a b) eqn:H; try reflexivity.
    apply Qlt_alt in H. exfalso. exact (Qlt_not_le _ _ H Hle).
Qed.

Lemma Qltb_negtrans a b c : Qltb a b = false -> Qltb b c = false -> Qltb a c = false.
Proof.
  rewrite !Qltb_false. intros H1 H2. exact (Qle_trans _ _ _ H2 H1).
Qed.

(** The comparator of [filterLists] is a strict weak order for every key and
    both orders. *)
Lemma sortGt_asym key order a b :
  sortGt key order a b = true -> sortGt key order b a = false.
Proof.
  unfold sortGt.
  destruct key, order as [[|]|]; cbn beta iota;
    repeat match goal with
           | |- context [Js.strLt ?x ?y] =>
               let H := fresh "H" in destruct (Js.strLt x y) eqn:H
           | |- context [Z.ltb ?x ?y] =>
               let H := fresh "H" in destruct (Z.ltb x y) eqn:H
           | |- context [Qltb ?x ?y] =>
               let H := fresh "H" in destruct (Qltb x y) eqn:H
           end; cbn; try discriminate; try reflexivity;
    repeat match goal with
           | H : Js.strLt ?x ?y = true, H' : Js.strLt ?y ?x = true |- _ =>
               rewrite (strLt_asym _ _ H) in H'; discriminate
           | H : Qltb ?x ?y = true, H' : Qltb ?y ?x = true |- _ =>
               rewrite (Qltb_asym _ _ H) in H'; discriminate
           | H : Z.ltb _ _ = true |- _ => apply Z.ltb_lt in H
           end; try lia.
Qed.

Lemma sortGt_as_lt key order a b :
  sortGt key order a b =
  match key with
  | SortTitle =>
      if match order with Some Desc => true | _ => false end
      then Js.strLt (Js.toLowerCase (list_title (lws_list a)))
                    (Js.toLowerCase (list_title (lws_list b)))
      else Js.strLt (Js.toLowerCase (list_title (lws_list b)))
                    (Js.toLowerCase (list_title (lws_list a)))
  | SortCreatedAt =>
      if match order with Some Desc => true | _ => false end
      then list_createdAt (lws_list a) <? list_createdAt (lws_list b)
      else list_createdAt (lws_list b) <? list_createdAt (lws_list a)
  | SortUpdatedAt =>
      if match order with Some Desc => true | _ => false end
      then default (list_createdAt (lws_list a)) (list_updatedAt (lws_list a))
           <? default (list_createdAt (lws_list b)) (list_updatedAt (lws_list b))
      else default (list_createdAt (lws_list b)) (list_updatedAt (lws_list b))
           <? default (list_createdAt (lws_list a)) (list_updatedAt (lws_list a))
  | SortCompletionPercentage =>
      if match order with Some Desc => true | _ => false end
      then Qltb (completionPercentage (statistics a)) (completionPercentage (statistics b))
      else Qltb (completionPercentage (statistics b)) (completionPercentage (statistics a))
  end.
Proof.
  unfold sortGt.
  destruct key, order as [[|]|]; cbn beta iota;
    repeat match goal with
           | |- context [Js.strLt ?x ?y] =>
               let H := fresh "H" in destruct (Js.strLt x y) eqn:H
           | |- context [Z.ltb ?x ?y] =>
               let H := fresh "H" in destruct (Z.ltb x y) eqn:H
           | |- context [Qltb ?x ?y] =>
               let H := fresh "H" in destruct (Qltb x y) eqn:H
           end; cbn; try reflexivity;
    repeat match goal with
           | H : Js.strLt ?x ?y = true, H' : Js.strLt ?y ?x = true |- _ =>
               rewrite (strLt_asym _ _ H) in H'; discriminate
           | H : Qltb ?x ?y = true, H' : Qltb ?y ?x = true |- _ =>
               rewrite (Qltb_asym _ _ H) in H'; discriminate
           | H : Z.ltb _ _ = true |- _ => apply Z.ltb_lt in H
           end; try lia.
Qed.

Lemma sortGt_negtrans key order a b c :
  sortGt key order a b = false -> sortGt key order b c = false ->
  sortGt key order a c = false.
Proof.
  rewrite !sortGt_as_lt.
  destruct key, (match order with Some Desc => true | _ => false end);
    try (intros H1 H2; first [ exact (strLt_negtrans _ _ _ H1 H2)
                             | exact (strLt_negtrans _ _ _ H2 H1)
                             | exact (Qltb_negtrans _ _ _ H1 H2)
                             | exact (Qltb_negtrans _ _ _ H2 H1) ]);
    rewrite !Z.ltb_ge; lia.
Qed.

Lemma filter_sublist {A : Type} (p : A -> bool) (l : list A) : sublist (List.filter p l) l.
Proof.
  induction l as [|x l IH]; simpl; [constructor|].
  destruct (p x); [apply sublist_skip | apply sublist_cons]; exact IH.
Qed.

(** The lists [filterLists] keeps, before they are sorted. *)
Lemma filterLists_kept (lists : list ListWithStats) (f : ListFilter) :
  exists kept,
    sublist kept lists /\
    Permutation (filterLists lists f) kept /\
    (sortBy f = None -> filterLists lists f = kept).
Proof.
  unfold filterLists.
  set (l1 := match searchTerm f with
             | Some raw => if Js.truthy (Js.trim raw) then List.filter _ lists else lists
             | None => lists end).
  assert (H1 : sublist l1 lists).
  { subst l1. destruct (searchTerm f) as [raw|]; [|reflexivity].
    destruct (Js.truthy (Js.trim raw)); [apply filter_sublist | reflexivity]. }
  set (l2 := match showOwned f, showShared f with
             | None, None => l1
             | _, _ => List.filter _ l1 end).
  assert (H2 : sublist l2 l1).
  { subst l2. destruct (showOwned f), (showShared f);
      first [reflexivity | apply filter_sublist]. }
  set (l3 := match showCompleted f with
             | Some false => List.filter _ l2
             | _ => l2 end).
  assert (H3 : sublist l3 l2).
  { subst l3. destruct (showCompleted f) as [[|]|];
      first [reflexivity | apply filter_sublist]. }
  exists l3. split; [etransitivity; [exact H3|]; etransitivity; [exact H2 | exact H1]|].
  destruct (sortBy f) as [key|].
  - split; [apply sort_perm | discriminate].
  - split; reflexivity.
Qed.

Lemma filterLists_In (lists : list ListWithStats) (f : ListFilter) (x : ListWithStats) :
  In x (filterLists lists f) -> In x lists.
Proof.
  intros Hx. destruct (filterLists_kept lists f) as (kept & Hsub & Hperm & _).
  apply (Permutation_in _ Hperm) in Hx.
  apply list_elem_of_In. eapply sublist_subseteq; [exact Hsub|].
  apply list_elem_of_In. exact Hx.
Qed.

End FilterFacts.

Module SelectFacts.

Import ListService.

Lemma filter_map_comm {A B : Type} (g : A -> B) (p : B -> bool) (l : list A) :
  List.filter p (List.map g l) = List.map g (List.filter (fun a => p (g a)) l).
Proof.
  induction l as [|a l IH]; simpl; [reflexivity|].
  destruct (p (g a)); simpl; rewrite IH; reflexivity.
Qed.

Lemma filter_nothing {A : Type} (l : list A) : List.filter (fun _ => false) l = [].
Proof. induction l; simpl; auto. Qed.

Lemma allCompleted_count tasks :
  forallb task_completed tasks = true <-> countCompleted tasks = Z.of_nat (length tasks).
Proof.
  unfold countCompleted. induction tasks as [|t tasks IH]; simpl; [tauto|].
  pose proof (List.filter_length_le task_completed tasks) as Hle.
  destruct (task_completed t); simpl.
  - rewrite IH. lia.
  - split; [discriminate | lia].
Qed.

Lemma percentage_range c t : 0 <= c <= t -> (0 <= percentage c t <= inject_Z 100)%Q.
Proof.
  intros Hc. unfold percentage. destruct (Z.ltb_spec 0 t) as [Hpos|Hzero].
  - unfold Qle, Qdiv, Qmult, Qinv, inject_Z. simpl.
    destruct t as [|p|p]; try lia. simpl. nia.
  - split; unfold Qle; simpl; lia.
Qed.

Lemma percentage_full c t :
  0 <= c <= t -> (percentage c t == inject_Z 100)%Q <-> 0 < t /\ c = t.
Proof.
  intros Hc. unfold percentage. destruct (Z.ltb_spec 0 t) as [Hpos|Hzero].
  - unfold Qeq, Qdiv, Qmult, Qinv, inject_Z. simpl.
    destruct t as [|p|p]; try lia. simpl. split; [intros H; split; nia | intros [_ ->]; nia].
  - unfold Qeq. simpl. split; [discriminate | lia].
Qed.

Lemma percentage_below c t :
  0 <= c <= t -> Qltb (percentage c t) (inject_Z 100) = (t =? 0) || (c <? t).
Proof.
  intros Hc. unfold Qltb.
  destruct (Qcompare (percentage c t) (inject_Z 100)) eqn:H.
  - apply Qeq_alt in H. apply percentage_full in H as [Hpos ->]; [|exact Hc].
    rewrite Z.ltb_irrefl. destruct (Z.eqb_spec t 0); [lia | reflexivity].
  - apply Qlt_alt in H.
    destruct (Z.eqb_spec t 0) as [|Hne]; [reflexivity|].
    destruct (Z.ltb_spec c t) as [|Hge]; [reflexivity|].
    exfalso. assert (Hfull : (percentage c t == inject_Z 100)%Q)
      by (apply percentage_full; [exact Hc | lia]).
    rewrite Hfull in H. exact (Qlt_irrefl _ H).
  - apply Qgt_alt in H. exfalso.
    destruct (percentage_range c t Hc) as [_ Hle].
    exact (Qlt_not_le _ _ H Hle).
Qed.

Lemma unfinished_count tasks :
  (Z.of_nat (length tasks) =? 0) || (countCompleted tasks <? Z.of_nat (length tasks))
  = match tasks with [] => true | _ => false end
    || existsb (fun t => negb (task_completed t)) tasks.
Proof.
  pose proof (Statistics.countCompleted_bounds tasks) as Hb.
  destruct tasks as [|t0 tasks0] eqn:Ht; [reflexivity|].
  rewrite <- Ht in *. replace (Z.of_nat (length tasks) =? 0) with false
    by (subst tasks; simpl; lia).
  replace (match tasks with [] => true | _ => false end) with false by (subst; reflexivity).
  simpl orb.
  destruct (forallb task_completed tasks) eqn:Hall.
  - pose proof (proj1 (allCompleted_count tasks) Hall) as Hc. rewrite Hc, Z.ltb_irrefl.
    symmetry. apply not_true_is_false. intros Hex.
    apply existsb_exists in Hex as (t & Hin & Hneg).
    rewrite forallb_forall in Hall. rewrite (Hall t Hin) in Hneg. discriminate.
  - assert (Hlt : countCompleted tasks <> Z.of_nat (length tasks)).
    { intros Hc. apply allCompleted_count in Hc. congruence. }
    replace (countCompleted tasks <? Z.of_nat (length tasks)) with true
      by (symmetry; apply Z.ltb_lt; lia).
    symmetry. clear - Hall. induction tasks as [|t tasks IH]; simpl in *; [discriminate|].
    destruct (task_completed t); simpl in *; [auto | reflexivity].
Qed.

End SelectFacts.

(** X10. With [sortBy] set, the result of [filterLists] is in the order of
    the comparator: no list of the result comes before a list that the
    comparator places in front of it. *)
Theorem filterLists_sorted (lists : list ListWithStats) (f : ListFilter) (key : SortKey) :
  sortBy f = Some key ->
  StronglySorted (fun a b => sortGt key (sortOrder f) a b = false) (filterLists lists f).
Proof.
  intros Hkey. unfold filterLists. rewrite Hkey.
  apply FilterFacts.sort_sorted.
  - apply FilterFacts.sortGt_asym.
  - apply FilterFacts.sortGt_negtrans.
Qed.

(** X10: the lists of user 1 by title, descending. *)
Lemma filterLists_sorted_witness :
  StronglySorted
    (fun a b => sortGt SortTitle (Some Desc) a b = false)
    (filterLists
       (List.map (fun l => enrichList Scenario.seeded l "1") (storedLists Scenario.seeded "1"))
       (mkFilter None None None None (Some SortTitle) (Some Desc))).
Proof.
  apply (filterLists_sorted
           (List.map (fun l => enrichList Scenario.seeded l "1")
                     (storedLists Scenario.seeded "1"))
           (mkFilter None None None None (Some SortTitle) (Some Desc)) SortTitle).
  reflexivity.
Defined.

(** X11. [filterLists] returns lists of its input only, each at most as
    often as the input has it: the result is a rearrangement of a
    subsequence of the input, and the subsequence itself (the order of the
    input kept) when [sortBy] is not set. *)
Theorem filterLists_selects (lists : list ListWithStats) (f : ListFilter) :
  exists kept,
    sublist kept lists /\
    Permutation (filterLists lists f) kept /\
    (sortBy f = None -> filterLists lists f = kept).
Proof.
  apply FilterFacts.filterLists_kept.
Qed.

(** X12. The filter [{ showCompleted: false }] hides exactly the finished
    lists: of the lists a user may see, those with no task or with a task
    that is not completed are returned, in their order. *)
Theorem showCompleted_false_hides_finished_lists (w : World) (userId : string)
    (ls : list List) :
  filterLists (List.map (fun l => enrichList w l userId) ls)
              (mkFilter None (Some false) None None None None)
  = List.map (fun l => enrichList w l userId)
      (List.filter
         (fun l => match list_tasks l with [] => true | _ => false end
                   || existsb (fun t => negb (task_completed t)) (list_tasks l))
         ls).
Proof.
  unfold filterLists. cbn [searchTerm showOwned showShared showCompleted sortBy].
  rewrite SelectFacts.filter_map_comm. f_equal.
  apply List.filter_ext. intros l.
  unfold enrichList, calculateStatistics. cbn [statistics completionPercentage].
  rewrite SelectFacts.percentage_below by apply Statistics.countCompleted_bounds.
  apply SelectFacts.unfinished_count.
Qed.

(** X13. A filter that gives [showOwned] or [showShared] but sets neither to
    [true] returns no list at all; in particular [{ showShared: false }]
    alone does not show the lists of the user. *)
Theorem filterLists_neither_owned_nor_shared (lists : list ListWithStats) (f : ListFilter) :
  showOwned f <> None \/ showShared f <> None ->
  flag (showOwned f) = false -> flag (showShared f) = false ->
  filterLists lists f = [].
Proof.
  intros Hgiven Ho Hs. unfold filterLists. rewrite Ho, Hs. cbn [andb negb].
  assert (Hempty : forall l : list ListWithStats,
            match showOwned f, showShared f with
            | None, None => l
            | _, _ => List.filter (fun _ => false) l
            end = []).
  { intros l. destruct (showOwned f), (showShared f);
      try apply SelectFacts.filter_nothing. destruct Hgiven; congruence. }
  rewrite Hempty.
  destruct (showCompleted f) as [[|]|], (sortBy f); reflexivity.
Qed.

(** X13: the lists of user 1 under [{ showShared: false }]. *)
Lemma filterLists_neither_owned_nor_shared_witness :
  filterLists
    (List.map (fun l => enrichList Scenario.seeded l "1") (storedLists Scenario.seeded "1"))
    (mkFilter None None (Some false) None None None) = [].
Proof.
  apply (filterLists_neither_owned_nor_shared
           (List.map (fun l => enrichList Scenario.seeded l "1")
                     (storedLists Scenario.seeded "1"))
           (mkFilter None None (Some false) None None None)).
  - right. discriminate.
  - reflexivity.
  - reflexivity.
Defined.

(** X14. The statistics of the service: the completed and the pending tasks
    add up to the tasks of the list, the percentage lies between 0 and 100,
    and it is 100 exactly when the list has a task and all its tasks are
    completed. *)
Theorem calculateStatistics_range (l : List) :
  let st := calculateStatistics l in
  totalTasks st = Z.of_nat (length (list_tasks l)) /\
  0 <= completedTasks st /\ 0 <= pendingTasks st /\
  completedTasks st + pendingTasks st = totalTasks st /\
  (0 <= completionPercentage st <= inject_Z 100)%Q /\
  ((completionPercentage st == inject_Z 100)%Q <->
   list_tasks l <> [] /\ forallb task_completed (list_tasks l) = true).
Proof.
  pose proof (Statistics.countCompleted_bounds (list_tasks l)) as Hb.
  cbn zeta. unfold calculateStatistics.
  cbn [totalTasks completedTasks pendingTasks completionPercentage].
  split; [reflexivity|]. split; [lia|]. split; [lia|]. split; [lia|].
  split; [apply SelectFacts.percentage_range; exact Hb|].
  rewrite SelectFacts.percentage_full by exact Hb.
  rewrite SelectFacts.allCompleted_count.
  split.
  - intros [Hpos Hc]. split; [|exact Hc].
    intros Hnil. rewrite Hnil in Hpos. simpl in Hpos. lia.
  - intros [Hne Hc]. split; [|exact Hc].
    destruct (list_tasks l); [congruence | simpl; lia].
Qed.

(** ** Accounts and sessions                                              *)

Module StringFacts.

Lemma revOnto_revOnto s : forall acc acc',
  Js.revOnto (Js.revOnto s acc) acc' = Js.revOnto acc (s ++ acc')%string.
Proof.
  induction s as [|c s IH]; intros acc acc'; [reflexivity|].
  cbn [Js.revOnto]. rewrite IH. reflexivity.
Qed.

Lemma append_empty (s : string) : (s ++ "")%string = s.
Proof.
  induction s as [|c s IH]; [reflexivity|].
  change (String c (s ++ "")%string = String c s). rewrite IH. reflexivity.
Qed.

Lemma reverse_reverse s : Js.reverse (Js.reverse s) = s.
Proof. unfold Js.reverse. rewrite revOnto_revOnto. simpl. apply append_empty. Qed.

Lemma noSpace_revOnto s : forall acc,
  noSpace s = true -> noSpace acc = true -> noSpace (Js.revOnto s acc) = true.
Proof.
  induction s as [|c s IH]; intros acc Hs Hacc; simpl in *; [exact Hacc|].
  apply andb_prop in Hs as [Hc Hs]. apply IH; [exact Hs|].
  simpl. rewrite Hc. exact Hacc.
Qed.

Lemma trimStart_noSpace s : noSpace s = true -> Js.trimStart s = s.
Proof.
  destruct s as [|c s]; simpl; [reflexivity|].
  intros H. apply andb_prop in H as [Hc _].
  destruct (Js.isWhitespace c); [discriminate | reflexivity].
Qed.

(** [trim] returns a string without white space as it is. *)
Lemma trim_noSpace s : noSpace s = true -> Js.trim s = s.
Proof.
  intros H. unfold Js.trim, Js.trimEnd.
  rewrite (trimStart_noSpace s H).
  rewrite trimStart_noSpace; [apply reverse_reverse|].
  apply noSpace_revOnto; [exact H | reflexivity].
Qed.

Lemma isWhitespace_lowerChar c : Js.isWhitespace (Js.lowerChar c) = Js.isWhitespace c.
Proof. destruct c as [[] [] [] [] [] [] [] []]; reflexivity. Qed.

Lemma noSpace_toLowerCase s : noSpace (Js.toLowerCase s) = noSpace s.
Proof.
  induction s as [|c s IH]; simpl; [reflexivity|].
  rewrite isWhitespace_lowerChar, IH. reflexivity.
Qed.

Lemma allPlain_noSpace s : allPlain s = true -> noSpace s = true.
Proof.
  induction s as [|c s IH]; simpl; [reflexivity|].
  unfold plainChar. intros H.
  apply andb_prop in H as [Hc Hs]. apply andb_prop in Hc as [Hc _].
  rewrite Hc. exact (IH Hs).
Qed.

Lemma domainMatches_noSpace s : forall seen, domainMatches seen s = true -> noSpace s = true.
Proof.
  induction s as [|c s IH]; intros seen; simpl; [discriminate|].
  destruct (plainChar c) eqn:Hc; [|discriminate].
  unfold plainChar in Hc. apply andb_prop in Hc as [Hc _]. rewrite Hc. simpl.
  destruct (_ && allPlain s) eqn:Hdot.
  - intros _. apply andb_prop in Hdot as [_ Hs]. exact (allPlain_noSpace _ Hs).
  - apply IH.
Qed.

Lemma emailRegex_noSpace s : forall seen, emailRegex seen s = true -> noSpace s = true.
Proof.
  induction s as [|c s IH]; intros seen; simpl; [discriminate|].
  destruct (Ascii.eqb_spec c "@") as [->|Hne].
  - intros H. apply andb_prop in H as [_ H]. simpl. exact (domainMatches_noSpace _ _ H).
  - destruct (Js.isWhitespace c); [discriminate|]. simpl. apply IH.
Qed.

End StringFacts.

Module AuthFacts.

Import AuthService.

Lemma sameAccounts_refl w : sameAccounts w w.
Proof. repeat split. Qed.

Lemma sameAccounts_save w o ls : sameAccounts w (saveUserLists w o ls).
Proof. repeat split. Qed.

Lemma sameAccounts_writeBack w found updated : sameAccounts w (writeBack w found updated).
Proof. apply sameAccounts_save. Qed.

Create HintDb accounts.

#[local] Hint Resolve sameAccounts_refl sameAccounts_save sameAccounts_writeBack : accounts.

Ltac frame :=
  repeat match goal with
         | |- sameAccounts ?w (snd (if ?b then _ else _)) => destruct b
         | |- sameAccounts ?w (snd (match ?x with _ => _ end)) => destruct x
         end;
  cbn [snd]; auto with accounts; repeat split.

Lemma sameAccounts_lists stringify env w c :
  match c with SignIn _ _ | SignUp _ _ _ => False | _ => True end ->
  sameAccounts w (step stringify env w c).
Proof.
  destruct c; intros Hc; try contradiction; cbn [step].
  - unfold loadUserLists.
    destruct (cache w !! _); [apply sameAccounts_refl|].
    destruct (storage w !! _); repeat split.
  - unfold createList. frame.
  - unfold updateList. frame.
  - unfold deleteList. frame.
  - unfold shareList. frame.
  - unfold addTask. frame.
  - unfold updateTask. frame.
  - unfold deleteTask. frame.
  - unfold toggleTask. frame.
Qed.

Lemma attemptsBounded_same w w' :
  loginAttempts w' = loginAttempts w -> attemptsBounded w -> attemptsBounded w'.
Proof. unfold attemptsBounded, getLoginAttempts. intros ->. auto. Qed.

Lemma attemptsBounded_record env w email ok :
  attemptsBounded w -> attemptsBounded (recordLoginAttempt env w email ok).
Proof.
  intros Hw email'. destruct (String.eqb_spec email' email) as [->|Hne].
  - rewrite Lockout.getLoginAttempts_record. unfold Js.sliceLast. split.
    + rewrite length_skipn. lia.
    + apply Forall_drop. apply Forall_app. split; [apply Hw|].
      constructor; [reflexivity | constructor].
  - unfold getLoginAttempts, recordLoginAttempt. cbn [loginAttempts setLoginAttempts].
    rewrite lookup_insert_ne by congruence. apply Hw.
Qed.

Lemma attemptsBounded_step stringify env w c :
  attemptsBounded w -> attemptsBounded (step stringify env w c).
Proof.
  intros Hw.
  destruct c;
    try (eapply attemptsBounded_same; [|exact Hw];
         apply (sameAccounts_lists stringify env w); exact I).
  - cbn [step]. unfold signIn.
    destruct (negb _); [exact Hw|].
    destruct (isUserLockedOut _ _ _); [exact Hw|].
    destruct (List.find _ _); cbn [snd]; apply attemptsBounded_record; [|exact Hw].
    eapply attemptsBounded_same; [|exact Hw]. reflexivity.
  - cbn [step]. unfold signUp.
    destruct (negb _); [exact Hw|].
    destruct (List.find _ _); cbn [snd]; [exact Hw|].
    eapply attemptsBounded_same; [|exact Hw]. reflexivity.
Qed.

Lemma attemptsBounded_initial : attemptsBounded initialWorld.
Proof.
  intros email. unfold getLoginAttempts. cbn [initialWorld loginAttempts].
  rewrite lookup_empty. split; [simpl; lia | constructor].
Qed.

(** What a sign-in that returns data has done. *)
Lemma signIn_data env w email password user token :
  data (fst (signIn env w email password)) = Some (user, token) ->
  token = generateToken env (user_id user) /\
  In user (MOCK_USERS w) /\
  user_email user = email /\ user_password user = password /\
  session (snd (signIn env w email password))
  = Some (token, {| sd_token := token; sd_user := user;
                    sd_expiresAt := now env + dayMs; sd_lastActivity := now env |}).
Proof.
  unfold signIn.
  destruct (negb _); [discriminate|].
  destruct (isUserLockedOut _ _ _); [discriminate|].
  destruct (List.find _ _) as [u|] eqn:Hfind; [|discriminate].
  cbn [fst snd data succeeded]. intros [= <- <-].
  apply find_some in Hfind as [Hin Hmatch].
  apply andb_prop in Hmatch as [He Hp].
  apply String.eqb_eq in He, Hp.
  repeat split; auto.
Qed.

(** A registration that is accepted has an email and a password that the
    sign-in form accepts as well, and the email has no white space. *)
Lemma register_login n e p :
  isValid (validationSchemas.register n e p p) = true ->
  isValid (validationSchemas.login e p) = true /\ noSpace e = true.
Proof.
  unfold validationSchemas.register, validationSchemas.login, validationOf. cbn [isValid].
  destruct (pushError "name" _); [|discriminate]. cbn [app].
  unfold validators.email.
  destruct (negb (Js.truthy (Js.trim e))); [discriminate|].
  destruct (isValidEmail e) eqn:He; [|discriminate]. cbn [negb pushError app].
  destruct (pushError "password" _); [|discriminate]. intros _.
  split; [reflexivity|].
  unfold isValidEmail in He. apply andb_prop in He as [He _].
  exact (StringFacts.emailRegex_noSpace _ _ He).
Qed.

Lemma find_none_app {A : Type} (p q : A -> bool) (l : list A) (x : A) :
  List.find p l = None -> (forall a, q a = true -> p a = true) ->
  List.find q (l ++ [x]) = if q x then Some x else None.
Proof.
  intros Hnone Hq. induction l as [|a l IH]; simpl in *; [reflexivity|].
  destruct (p a) eqn:Hp; [discriminate|].
  destruct (q a) eqn:Hqa; [rewrite (Hq a Hqa) in Hp; discriminate|].
  exact (IH Hnone).
Qed.

End AuthFacts.

(** X15. A session lasts 24 hours: after a sign-in that succeeded,
    [restoreSession] returns the same user and token as long as the clock is
    at most 24 hours past the sign-in; later it fails with 'Session expired'
    and removes the session. *)
Theorem restoreSession_after_signIn (env env' : Env) (w : World) (email password : string)
    (user : User) (token : Token) :
  data (fst (AuthService.signIn env w email password)) = Some (user, token) ->
  let w' := snd (AuthService.signIn env w email password) in
  (now env' <= now env + AuthService.dayMs ->
   fst (AuthService.restoreSession env' w')
   = succeeded (Some (user, token)) "Session restored successfully" /\
   AuthService.getCurrentUser (snd (AuthService.restoreSession env' w')) = Some user) /\
  (now env + AuthService.dayMs < now env' ->
   fst (AuthService.restoreSession env' w') = failure "Session expired" /\
   session (snd (AuthService.restoreSession env' w')) = None).
Proof.
  intros Hdata w'.
  destruct (AuthFacts.signIn_data _ _ _ _ _ _ Hdata) as (Htok & _ & _ & _ & Hsession).
  subst w'. unfold AuthService.restoreSession. rewrite Hsession.
  unfold AuthService.validateToken. rewrite Htok.
  cbn [tok_exp AuthService.generateToken sd_expiresAt].
  split; intros Hclock.
  - destruct (Z.ltb_spec (now env + AuthService.dayMs) (now env')) as [|_]; [lia|].
    cbn [AuthService.tc_valid negb]. split; reflexivity.
  - destruct (Z.ltb_spec (now env + AuthService.dayMs) (now env')) as [_|]; [|lia].
    cbn [AuthService.tc_valid AuthService.tc_expired negb]. split; reflexivity.
Qed.

(** X15: user 1 signs in at 1000 and restores the session at 2000. *)
Lemma restoreSession_after_signIn_witness :
  exists user token,
    data (fst (AuthService.signIn (Scenario.env 1000 "s") initialWorld
                 "user@example.com" "password123")) = Some (user, token) /\
    fst (AuthService.restoreSession (Scenario.env 2000 "r")
           (snd (AuthService.signIn (Scenario.env 1000 "s") initialWorld
                   "user@example.com" "password123")))
    = succeeded (Some (user, token)) "Session restored successfully".
Proof.
  eexists. eexists. split; [reflexivity|].
  destruct (restoreSession_after_signIn (Scenario.env 1000 "s") (Scenario.env 2000 "r")
              initialWorld "user@example.com" "password123" _ _ eq_refl)
    as [Hin _].
  apply Hin. discriminate.
Defined.

(** X16. In every state the application reaches, at most 10 sign-in attempts
    are on record for an email, and each of them carries that email. *)
Theorem login_attempts_are_bounded (stringify : ListFilter -> string) (w : World)
    (email : string) :
  reachable stringify w ->
  (length (AuthService.getLoginAttempts w email) <= 10)%nat /\
  Forall (fun a => la_email a = email) (AuthService.getLoginAttempts w email).
Proof.
  intros Hw. revert email.
  change (attemptsBounded w).
  induction Hw as [|env w c _ IH].
  - apply AuthFacts.attemptsBounded_initial.
  - apply AuthFacts.attemptsBounded_step. exact IH.
Qed.

(** X16: the statement after one sign-in with a wrong password. *)
Lemma login_attempts_are_bounded_witness :
  (length (AuthService.getLoginAttempts
             (step Scenario.stringify (Scenario.env 0%Z "t") initialWorld
                   (SignIn "user@example.com" "wrongpass"))
             "user@example.com") <= 10)%nat.
Proof.
  apply (login_attempts_are_bounded Scenario.stringify
           (step Scenario.stringify (Scenario.env 0 "t") initialWorld
                 (SignIn "user@example.com" "wrongpass"))
           "user@example.com").
  exact (reachable_step Scenario.stringify (Scenario.env 0 "t") initialWorld
           (SignIn "user@example.com" "wrongpass") (reachable_initial _)).
Defined.

(** X17. An account that [signUp] created can be signed in to with the same
    email and password exactly when the email was given in lower case: the
    directory keeps the email in lower case and [signIn] compares the email
    as it is typed. (The account is not locked out.) *)
Theorem signIn_after_signUp (env env' : Env) (w : World) (name email password : string)
    (user : User) (token : Token) :
  data (fst (AuthService.signUp env w name email password)) = Some (user, token) ->
  AuthService.isUserLockedOut env' w email = false ->
  let w' := snd (AuthService.signUp env w name email password) in
  (Js.toLowerCase email = email ->
   data (fst (AuthService.signIn env' w' email password))
   = Some (user, AuthService.generateToken env' (user_id user))) /\
  (Js.toLowerCase email <> email ->
   fst (AuthService.signIn env' w' email password)
   = failure ERROR_MESSAGES.INVALID_CREDENTIALS).
Proof.
  unfold AuthService.signUp.
  destruct (isValid (validationSchemas.register name email password password)) eqn:Hv;
    cbn [negb]; [|discriminate].
  destruct (AuthFacts.register_login _ _ _ Hv) as [Hlogin Hspace].
  destruct (List.find _ (MOCK_USERS w)) as [|] eqn:Hfind; [discriminate|].
  cbn [fst snd data succeeded]. intros [= <- <-] Hlock.
  rewrite StringFacts.trim_noSpace
    by (rewrite StringFacts.noSpace_toLowerCase; exact Hspace).
  cbn zeta. unfold AuthService.signIn. rewrite Hlogin. cbn [negb].
  replace (AuthService.isUserLockedOut env' _ email) with false by (symmetry; exact Hlock).
  cbn [MOCK_USERS setUsers setSession].
  rewrite (AuthFacts.find_none_app _ _ _ _ Hfind)
    by (intros a Ha; apply andb_prop in Ha as [Ha _]; exact Ha).
  cbn [user_email user_password]. rewrite String.eqb_refl, andb_true_r.
  split; intros Hlower.
  - rewrite Hlower, String.eqb_refl. reflexivity.
  - destruct (String.eqb_spec (Js.toLowerCase email) email); [contradiction | reflexivity].
Qed.

(** X17: a new account with a lower-case email. *)
Lemma signIn_after_signUp_witness :
  exists user token,
    data (fst (AuthService.signUp (Scenario.env 1000 "n") initialWorld
                 "Ewa" "ewa@example.com" "tajne123")) = Some (user, token) /\
    data (fst (AuthService.signIn (Scenario.env 2000 "m")
                 (snd (AuthService.signUp (Scenario.env 1000 "n") initialWorld
                         "Ewa" "ewa@example.com" "tajne123"))
                 "ewa@example.com" "tajne123"))
    = Some (user, AuthService.generateToken (Scenario.env 2000 "m") (user_id user)).
Proof.
  eexists. eexists. split; [reflexivity|].
  destruct (signIn_after_signUp (Scenario.env 1000 "n") (Scenario.env 2000 "m") initialWorld
              "Ewa" "ewa@example.com" "tajne123" _ _ eq_refl eq_refl)
    as [Hlower _].
  apply Hlower. reflexivity.
Defined.

(** X18. A lockout ends: when every failed attempt on record for the email
    is at least 15 minutes old, [signIn] with the email and password of a
    user of the directory succeeds and opens a session for that user. *)
Theorem signIn_after_the_lockout (env : Env) (w : World) (email password : string) :
  isValid (validationSchemas.login email password) = true ->
  Forall (fun a => la_success a = false ->
                   AuthService.lockoutDuration <= now env - la_timestamp a)
         (AuthService.getLoginAttempts w email) ->
  (exists user, In user (MOCK_USERS w) /\
                user_email user = email /\ user_password user = password) ->
  exists user,
    user_email user = email /\ user_password user = password /\
    fst (AuthService.signIn env w email password)
    = succeeded (Some (user, AuthService.generateToken env (user_id user)))
                SUCCESS_MESSAGES.LOGIN_SUCCESS /\
    AuthService.getCurrentUser (snd (AuthService.signIn env w email password)) = Some user.
Proof.
  intros Hvalid Hold (u & Hin & He & Hp).
  unfold AuthService.signIn. rewrite Hvalid. cbn [negb].
  assert (Hfree : AuthService.isUserLockedOut env w email = false).
  { unfold AuthService.isUserLockedOut.
    replace (List.filter (AuthService.recentFailure env) (AuthService.getLoginAttempts w email))
      with (@nil LoginAttempt); [reflexivity|].
    symmetry. induction Hold as [|a l Ha _ IH]; [reflexivity|].
    simpl. rewrite <- IH. unfold AuthService.recentFailure.
    destruct (la_success a); [reflexivity|]. cbn [negb andb].
    destruct (Z.ltb_spec (now env - la_timestamp a) AuthService.lockoutDuration);
      [specialize (Ha eq_refl); lia | reflexivity]. }
  rewrite Hfree.
  destruct (List.find _ (MOCK_USERS w)) as [user|] eqn:Hfind.
  - exists user. apply find_some in Hfind as [_ Hmatch].
    apply andb_prop in Hmatch as [He' Hp']. apply String.eqb_eq in He', Hp'.
    repeat split; auto.
  - exfalso. apply (find_none _ _ Hfind) in Hin.
    rewrite He, Hp, !String.eqb_refl in Hin. discriminate.
Qed.

(** X18: one wrong password at 0, the right one fifteen minutes later. *)
Lemma signIn_after_the_lockout_witness :
  exists user,
    user_email user = "user@example.com" /\ user_password user = "password123" /\
    fst (AuthService.signIn (Scenario.env 900000 "t")
           (snd (AuthService.signIn (Scenario.env 0 "t") initialWorld
                   "user@example.com" "wrongpass"))
           "user@example.com" "password123")
    = succeeded (Some (user, AuthService.generateToken (Scenario.env 900000 "t")
                               (user_id user)))
                SUCCESS_MESSAGES.LOGIN_SUCCESS /\
    AuthService.getCurrentUser
      (snd (AuthService.signIn (Scenario.env 900000 "t")
              (snd (AuthService.signIn (Scenario.env 0 "t") initialWorld
                      "user@example.com" "wrongpass"))
              "user@example.com" "password123")) = Some user.
Proof.
  apply (signIn_after_the_lockout (Scenario.env 900000 "t")
           (snd (AuthService.signIn (Scenario.env 0 "t") initialWorld
                   "user@example.com" "wrongpass"))
           "user@example.com" "password123").
  - reflexivity.
  - constructor; [|constructor]. intros _. cbn. unfold AuthService.lockoutDuration. lia.
  - eexists. split; [left; reflexivity|]. split; reflexivity.
Defined.

(** X19. [updateProfile] changes the session entry at most: the directory
    that [signIn], sharing and the permission checks read keeps the name and
    the email of every user, the lists and the recorded attempts stay as
    they are. *)
Theorem updateProfile_keeps_the_directory (env : Env) (w : World) (userId : string)
    (updates : AuthService.ProfileUpdates) :
  let w' := snd (AuthService.updateProfile env w userId updates) in
  MOCK_USERS w' = MOCK_USERS w /\ storage w' = storage w /\
  loginAttempts w' = loginAttempts w /\
  forall u, getCurrentUserEmail w' u = getCurrentUserEmail w u.
Proof.
  cbn zeta. unfold AuthService.updateProfile.
  destruct (_ && _); [repeat split|].
  destruct (Js.findIndex _ _); [|repeat split].
  destruct (_ && _); [repeat split|].
  destruct (nth_error _ _); [|repeat split].
  destruct (session w) as [[token sessionData]|]; repeat split.
Qed.

(** X20. An export holds the lists the user owns and no other: in every
    state the application reaches, each list that [exportLists] returns for a
    user has that user as its owner (the lists shared with the user are not
    exported). *)
Theorem exportLists_own_lists_only (stringify : ListFilter -> string) (env : Env)
    (w : World) (userId : string) (export : ListExport) (l : List) :
  reachable stringify w ->
  data (exportLists env w userId) = Some export ->
  In l (le_lists export) ->
  le_userId export = userId /\ list_ownerId l = userId /\
  In l (storedLists w userId).
Proof.
  intros Hw. unfold exportLists.
  destruct (List.find _ (MOCK_USERS w)) as [user|] eqn:Hfind; [|discriminate].
  cbn [data succeeded]. intros [= <-]. cbn [le_lists le_userId]. intros Hin.
  apply find_some in Hfind as [_ Hid]. apply String.eqb_eq in Hid.
  split; [exact Hid|]. split; [|exact Hin].
  assert (Hkeyed : ownerKeyed w).
  { clear - Hw. induction Hw as [|env w c _ IH];
      [apply OwnerKeyed.initial | apply OwnerKeyed.step_keeps; exact IH]. }
  eapply OwnerKeyed.stored; eassumption.
Qed.

(** X20: the export of user 1 at the seeded store. *)
Lemma exportLists_own_lists_only_witness :
  exists export l,
    data (exportLists (Scenario.env 2000 "b") Scenario.seeded "1") = Some export /\
    In l (le_lists export) /\ list_ownerId l = "1".
Proof.
  eexists. eexists. split; [reflexivity|]. split; [left; reflexivity|].
  eapply (exportLists_own_lists_only Scenario.stringify (Scenario.env 2000 "b")
            Scenario.seeded "1").
  - exact ScenarioFacts.seeded_reachable.
  - reflexivity.
  - left. reflexivity.
Defined.

(** ** The client state                                                   *)

Module ClientFacts.

Import ListService.

Lemma cacheShrinks_refl w : cacheShrinks w w.
Proof. intros k ls H. exact H. Qed.

Lemma clearCache_Some u (c : gmap string (list ListWithStats)) k ls :
  clearCache u c !! k = Some ls -> c !! k = Some ls.
Proof.
  unfold clearCache. destruct (Js.truthy u).
  - intros H. apply map_lookup_filter_Some in H as [H _]. exact H.
  - rewrite lookup_empty. discriminate.
Qed.

Lemma clearCacheForSharedListUsers_Some users lists c k ls :
  clearCacheForSharedListUsers users lists c !! k = Some ls -> c !! k = Some ls.
Proof.
  unfold clearCacheForSharedListUsers. generalize (sharedEmails lists). intros emails.
  revert c. induction emails as [|e emails IH]; intros c H; simpl in H; [exact H|].
  apply IH in H. destruct (List.find _ users); [apply clearCache_Some in H|]; exact H.
Qed.

Lemma cacheShrinks_save w o lists : cacheShrinks w (saveUserLists w o lists).
Proof.
  intros k ls. unfold saveUserLists. cbn [cache setCache setStorage].
  intros H. apply clearCacheForSharedListUsers_Some, clearCache_Some in H. exact H.
Qed.

Lemma cacheShrinks_writeBack w found updated : cacheShrinks w (writeBack w found updated).
Proof. apply cacheShrinks_save. Qed.

Create HintDb shrinks.

#[local] Hint Resolve cacheShrinks_refl cacheShrinks_save cacheShrinks_writeBack : shrinks.

Ltac shrink :=
  repeat match goal with
         | |- cacheShrinks ?w (snd (if ?b then _ else _)) => destruct b
         | |- cacheShrinks ?w (snd (match ?x with _ => _ end)) => destruct x
         end;
  cbn [snd]; auto with shrinks.

Lemma cacheShrinks_writes stringify env w c :
  match c with LoadUserLists _ _ => False | _ => True end ->
  cacheShrinks w (step stringify env w c).
Proof.
  destruct c; intros Hc; try contradiction; cbn [step].
  - unfold createList. shrink.
  - unfold updateList. shrink.
  - unfold deleteList. shrink.
  - unfold shareList. shrink.
    intros k ls. cbn [cache setCache]. intros H.
    apply clearCache_Some in H. revert H. apply cacheShrinks_save.
  - unfold addTask. shrink.
  - unfold updateTask. shrink.
  - unfold deleteTask. shrink.
  - unfold toggleTask. shrink.
  - unfold AuthService.signIn. shrink; intros k ls H; exact H.
  - unfold AuthService.signUp. shrink; intros k ls H; exact H.
Qed.

Lemma enriched_recomputed w u (ls : list List) f :
  Forall statsRecomputed (filterLists (List.map (fun l => enrichList w l u) ls) f).
Proof.
  apply List.Forall_forall. intros x Hx.
  apply FilterFacts.filterLists_In in Hx. apply in_map_iff in Hx as (l & <- & _).
  apply Statistics.enrichList_recomputed.
Qed.

(** A load that is not answered from the cache. *)
Lemma loadUserLists_fresh stringify env w u f :
  cache w !! cacheKey stringify u f = None ->
  exists w1 ls msg,
    cache w1 = cache w /\
    loadUserLists stringify env w u f
    = (succeeded (Some (filterLists (List.map (fun l => enrichList w1 l u) ls) f)) msg,
       setCache w1 (<[cacheKey stringify u f :=
                        filterLists (List.map (fun l => enrichList w1 l u) ls) f]>
                      (cache w1))).
Proof.
  intros Hc. unfold loadUserLists. rewrite Hc.
  destruct (storage w !! getUserListsKey u) as [stored|];
    eexists; eexists; eexists; (split; [|reflexivity]); reflexivity.
Qed.

(** What [loadUserLists] returns carries statistics that agree with the
    tasks, when the cached views do. *)
Lemma loadUserLists_recomputed stringify env w u f :
  cacheRecomputed w ->
  success (fst (loadUserLists stringify env w u f)) = true /\
  (exists ls, data (fst (loadUserLists stringify env w u f)) = Some ls /\
              Forall statsRecomputed ls) /\
  cacheRecomputed (snd (loadUserLists stringify env w u f)).
Proof.
  intros Hw.
  destruct (cache w !! cacheKey stringify u f) as [cached|] eqn:Hc.
  - unfold loadUserLists. rewrite Hc.
    split; [reflexivity|]. split; [|exact Hw].
    exists cached. split; [reflexivity | exact (Hw _ _ Hc)].
  - destruct (loadUserLists_fresh stringify env w u f Hc) as (w1 & ls & msg & Hw1 & ->).
    split; [reflexivity|].
    split; [eexists; split; [reflexivity | apply enriched_recomputed]|].
    intros k cached. unfold snd, setCache, cache at 1.
    destruct (String.eqb_spec k (cacheKey stringify u f)) as [->|Hne].
    + rewrite lookup_insert_eq. intros [= <-]. apply enriched_recomputed.
    + rewrite lookup_insert_ne by congruence. rewrite Hw1. apply Hw.
Qed.

Lemma cacheRecomputed_step stringify env w c :
  cacheRecomputed w -> cacheRecomputed (step stringify env w c).
Proof.
  intros Hw.
  destruct c;
    try (intros k ls H; apply (Hw k);
         revert H; apply (cacheShrinks_writes stringify env w); exact I).
  cbn [step]. apply loadUserLists_recomputed. exact Hw.
Qed.

Lemma cacheRecomputed_reachable stringify w : reachable stringify w -> cacheRecomputed w.
Proof.
  induction 1 as [|env w c _ IH].
  - intros k ls. cbn [initialWorld cache]. rewrite lookup_empty. discriminate.
  - apply cacheRecomputed_step. exact IH.
Qed.

Lemma onList_Forall (P : ListWithStats -> Prop) listId g ls :
  (forall l, P l -> list_id (lws_list l) = listId -> P (g l)) ->
  Forall P ls -> Forall P (Reducer.onList listId g ls).
Proof.
  intros Hg Hls. unfold Reducer.onList. induction Hls as [|l ls Hl _ IH]; simpl.
  - constructor.
  - constructor; [|exact IH].
    destruct (String.eqb_spec (list_id (lws_list l)) listId); auto.
Qed.

Lemma addTask_pending env w u payload task :
  data (fst (addTask env w u payload)) = Some task -> task_completed task = false.
Proof.
  unfold addTask.
  destruct (negb _); [discriminate|].
  destruct (findListById _ _ _); [|discriminate].
  destruct (negb _); [discriminate|].
  destruct (_ <=? _); [discriminate|].
  cbn [fst data succeeded]. intros [= <-]. reflexivity.
Qed.

Lemma filter_others taskId (tasks : list Task) :
  Forall (fun t' => task_id t' <> taskId) tasks ->
  List.filter (fun t => negb (String.eqb (task_id t) taskId)) tasks = tasks.
Proof.
  induction 1 as [|t tasks Ht _ IH]; simpl; [reflexivity|].
  destruct (String.eqb_spec (task_id t) taskId); [contradiction|].
  simpl. rewrite IH. reflexivity.
Qed.

Lemma deleteTaskFrom_recomputed taskId l :
  onePending taskId (list_tasks (lws_list l)) ->
  statsRecomputed l -> statsRecomputed (Reducer.deleteTaskFrom taskId l).
Proof.
  intros (before & t & after & Htasks & Hid & Hpending & Hothers) (Ht & Hc & Hp & _).
  apply Forall_app in Hothers as [Hb Ha].
  unfold statsRecomputed, Reducer.deleteTaskFrom. simpl.
  rewrite Htasks in *. rewrite List.filter_app. simpl.
  rewrite Hid, String.eqb_refl. simpl.
  rewrite !filter_others by assumption.
  rewrite Statistics.countCompleted_app in *.
  unfold countCompleted in Hc at 2. simpl in Hc. rewrite Hpending in Hc.
  fold (countCompleted after) in Hc.
  rewrite length_app in *. simpl in Ht.
  pose proof (Statistics.countCompleted_bounds before) as Hbb.
  pose proof (Statistics.countCompleted_bounds after) as Hba.
  repeat split; try lia.
  rewrite Hc, Ht. unfold percentage.
  replace (Z.of_nat (length before + S (length after)) - 1)
    with (Z.of_nat (length before + length after)) by lia.
  destruct (Z.ltb_spec 1 (Z.of_nat (length before + S (length after))));
    destruct (Z.ltb_spec 0 (Z.of_nat (length before + length after)));
    try lia; reflexivity.
Qed.

Lemma find_onList listId g ls :
  (forall l, list_id (lws_list (g l)) = list_id (lws_list l)) ->
  List.find (fun l => String.eqb (list_id (lws_list l)) listId) (Reducer.onList listId g ls)
  = option_map g (List.find (fun l => String.eqb (list_id (lws_list l)) listId) ls).
Proof.
  intros Hg. unfold Reducer.onList. induction ls as [|l ls IH]; simpl; [reflexivity|].
  destruct (String.eqb_spec (list_id (lws_list l)) listId) as [He|Hne].
  - rewrite Hg, He, String.eqb_refl. reflexivity.
  - destruct (String.eqb_spec (list_id (lws_list l)) listId); [contradiction|]. exact IH.
Qed.

Lemma find_merged taskId (updates : PartialTask) (tasks : list Task) :
  pt_id updates = Some taskId ->
  List.find (fun t => String.eqb (task_id t) taskId)
    (List.map (fun task => if String.eqb (task_id task) taskId
                           then Reducer.mergeTask task updates else task) tasks)
  = option_map (fun task => Reducer.mergeTask task updates)
      (List.find (fun t => String.eqb (task_id t) taskId) tasks).
Proof.
  intros Hid. induction tasks as [|t tasks IH]; simpl; [reflexivity|].
  destruct (String.eqb_spec (task_id t) taskId) as [He|Hne].
  - unfold Reducer.mergeTask at 1. cbn [task_id]. rewrite Hid. simpl.
    rewrite String.eqb_refl. reflexivity.
  - destruct (String.eqb_spec (task_id t) taskId); [contradiction|]. exact IH.
Qed.

Lemma toggleTask_data env w u lid tid task :
  data (fst (toggleTask env w u lid tid)) = Some task ->
  success (fst (toggleTask env w u lid tid)) = true /\ task_id task = tid.
Proof.
  unfold toggleTask.
  destruct (findListById _ _ _) as [found|]; [|discriminate].
  destruct (negb _); [discriminate|].
  destruct (Js.findIndex _ _) as [i|] eqn:Hi; [|discriminate].
  destruct (nth_error _ i) as [t|] eqn:Ht; [|discriminate].
  cbn [fst data succeeded]. intros [= <-]. cbn [task_id].
  split; [reflexivity|].
  destruct (findIndex_Some _ _ _ Hi) as (x & Hx & Hp).
  rewrite Ht in Hx. injection Hx as <-. apply String.eqb_eq. exact Hp.
Qed.

Lemma updateTask_data env w u lid tid updates task :
  data (fst (updateTask env w u lid tid updates)) = Some task -> task_id task = tid.
Proof.
  unfold updateTask.
  destruct (findListById _ _ _) as [found|]; [|discriminate].
  destruct (negb _); [discriminate|].
  destruct (Js.findIndex _ _) as [i|] eqn:Hi; [|discriminate].
  destruct (match ut_text updates with Some _ => _ | None => _ end); [discriminate|].
  destruct (nth_error _ i) as [t|] eqn:Ht; [|discriminate].
  cbn [fst data succeeded]. intros [= <-]. cbn [task_id].
  destruct (findIndex_Some _ _ _ Hi) as (x & Hx & Hp).
  rewrite Ht in Hx. injection Hx as <-. apply String.eqb_eq. exact Hp.
Qed.

End ClientFacts.

(** X21. Adding, updating and toggling a task through the list context keep
    the statistics of the client state in agreement with the tasks it
    shows, whether the service accepts the call or not. *)
Theorem task_changes_keep_client_statistics (env : Env) (userId : string) (w : World)
    (state : ListState) :
  Forall statsRecomputed (lists state) ->
  (forall payload,
     Forall statsRecomputed
       (lists (snd (snd (ListContext.addTask env userId payload (w, state)))))) /\
  (forall listId taskId updates,
     Forall statsRecomputed
       (lists (snd (snd (ListContext.updateTask env userId listId taskId updates
                           (w, state)))))) /\
  (forall listId taskId,
     Forall statsRecomputed
       (lists (snd (snd (ListContext.toggleTask env userId listId taskId (w, state)))))).
Proof.
  intros Hstate. split; [|split].
  - intros payload. unfold ListContext.addTask.
    pose proof (ClientFacts.addTask_pending env w userId payload) as Hpending.
    destruct (ListService.addTask env w userId payload) as [result w1].
    cbn [fst] in Hpending.
    destruct (success result); [|exact Hstate].
    destruct (data result) as [task|]; [|exact Hstate].
    cbn [snd Reducer.listReducer Reducer.withLists lists].
    apply ClientFacts.onList_Forall; [|exact Hstate].
    intros l Hl _. apply Statistics.addTaskTo_recomputed; [|exact Hl].
    apply Hpending. reflexivity.
  - intros listId taskId updates. unfold ListContext.updateTask.
    destruct (ListService.updateTask env w userId listId taskId updates) as [result w1].
    destruct (success result); [|exact Hstate].
    destruct (data result) as [task|]; [|exact Hstate].
    cbn [snd Reducer.listReducer Reducer.withLists lists].
    apply ClientFacts.onList_Forall; [|exact Hstate].
    intros l _ _. apply Statistics.updateTaskIn_recomputed.
  - intros listId taskId. unfold ListContext.toggleTask.
    destruct (ListService.toggleTask env w userId listId taskId) as [result w1].
    destruct (success result); [|exact Hstate].
    destruct (data result) as [task|]; [|exact Hstate].
    cbn [snd Reducer.listReducer Reducer.withLists lists].
    apply ClientFacts.onList_Forall; [|exact Hstate].
    intros l _ _. apply Statistics.updateTaskIn_recomputed.
Qed.

(** X21: the client of user 1 after its first load toggles the task [a2]. *)
Lemma task_changes_keep_client_statistics_witness :
  Forall statsRecomputed
    (lists (snd (snd (ListContext.toggleTask (Scenario.env 2000 "b") "1" "a0" "a2"
                        (fst Scenario.clientLoaded, snd Scenario.clientLoaded))))).
Proof.
  apply (task_changes_keep_client_statistics (Scenario.env 2000 "b") "1"
           (fst Scenario.clientLoaded) (snd Scenario.clientLoaded)).
  exact SeededFacts.clientLoaded_recomputed.
Defined.

(** X22. The reducer's [DELETE_TASK] keeps the statistics right when the
    deleted task is pending and its id is the id of no other task of the
    list. *)
Theorem DELETE_TASK_of_a_pending_task (env : Env) (state : ListState)
    (listId taskId : string) :
  Forall statsRecomputed (lists state) ->
  (forall l, In l (lists state) -> list_id (lws_list l) = listId ->
             onePending taskId (list_tasks (lws_list l))) ->
  Forall statsRecomputed (lists (Reducer.listReducer env state (DELETE_TASK listId taskId))).
Proof.
  intros Hstate Hone.
  cbn [Reducer.listReducer Reducer.withLists lists]. unfold Reducer.onList.
  apply List.Forall_forall. intros x Hx.
  apply in_map_iff in Hx as (l & <- & Hl).
  assert (Hstats : statsRecomputed l)
    by (revert l Hl; apply List.Forall_forall; exact Hstate).
  destruct (String.eqb_spec (list_id (lws_list l)) listId) as [Hid|_]; [|exact Hstats].
  apply ClientFacts.deleteTaskFrom_recomputed; auto.
Qed.

(** X22: the client of user 1 deletes the pending task [a1] of [a0]. *)
Lemma DELETE_TASK_of_a_pending_task_witness :
  Forall statsRecomputed
    (lists (Reducer.listReducer (Scenario.env 2000 "b") (snd Scenario.clientLoaded)
              (DELETE_TASK "a0" "a1"))).
Proof.
  apply (DELETE_TASK_of_a_pending_task (Scenario.env 2000 "b") (snd Scenario.clientLoaded)
           "a0" "a1").
  - exact SeededFacts.clientLoaded_recomputed.
  - intros l [<-|[<-|[]]] Hid; [|discriminate Hid].
    exists [], (mkTask "a1" "Mleko" false None None),
      [mkTask "a2" "Chleb" true None None; mkTask "a3" "Jajka" false None None;
       mkTask "a4" "Masło" false None None].
    split; [reflexivity|]. split; [reflexivity|]. split; [reflexivity|].
    repeat (constructor; [discriminate|]). constructor.
Defined.

(** X23. A refresh of the client succeeds in every state the application
    reaches and leaves the client with statistics that agree with the tasks
    of each list it shows, whatever the client state was before. *)
Theorem refreshLists_recomputes (stringify : ListFilter -> string) (env : Env)
    (userId : string) (w : World) (state : ListState) :
  reachable stringify w ->
  let state' := snd (ListContext.refreshLists stringify env userId (w, state)) in
  Forall statsRecomputed (lists state') /\
  Some (lists state')
  = data (fst (ListService.loadUserLists stringify env w userId (ls_filter state))) /\
  loading state' = false /\ ls_error state' = None /\ lastSync state' = Some (now env).
Proof.
  intros Hw. apply ClientFacts.cacheRecomputed_reachable in Hw.
  destruct (ClientFacts.loadUserLists_recomputed stringify env w userId (ls_filter state) Hw)
    as (Hs & (ls & Hd & Hls) & _).
  cbn zeta. unfold ListContext.refreshLists.
  destruct (ListService.loadUserLists stringify env w userId (ls_filter state))
    as [result w1].
  cbn [fst] in *. rewrite Hs, Hd. cbn [snd Reducer.listReducer lists loading ls_error lastSync].
  repeat split. exact Hls.
Qed.

(** X23: the first refresh of the client of user 1. *)
Lemma refreshLists_recomputes_witness :
  Forall statsRecomputed (lists (snd Scenario.clientLoaded)) /\
  ls_error (snd Scenario.clientLoaded) = None.
Proof.
  destruct (refreshLists_recomputes Scenario.stringify (Scenario.env 1000 "a") "1"
              initialWorld initialListState (reachable_initial _))
    as (Hstats & _ & _ & Herror & _).
  split; [exact Hstats | exact Herror].
Defined.

(** X24. After a deletion that the service accepted, the client state holds
    no list with that id, the selection does not point to it, and the other
    lists are shown as before. *)
Theorem client_deleteList (env : Env) (userId listId : string) (w : World)
    (state : ListState) :
  success (fst (ListContext.deleteList env userId listId (w, state))) = true ->
  let state' := snd (snd (ListContext.deleteList env userId listId (w, state))) in
  ListContext.getListById state' listId = None /\
  selectedListId state' <> Some listId /\
  (forall other, other <> listId ->
     ListContext.getListById state' other = ListContext.getListById state other) /\
  (selectedListId state <> Some listId -> selectedListId state' = selectedListId state).
Proof.
  unfold ListContext.deleteList.
  destruct (ListService.deleteList w userId listId) as [result w1].
  destruct (success result) eqn:Hs; cbn [fst snd]; [intros _ | congruence].
  cbn [Reducer.listReducer lists selectedListId]. unfold ListContext.getListById.
  cbn [lists].
  split; [|split; [|split]].
  - induction (lists state) as [|l ls IH]; simpl; [reflexivity|].
    destruct (String.eqb_spec (list_id (lws_list l)) listId) as [He|Hne]; simpl; [exact IH|].
    destruct (String.eqb_spec (list_id (lws_list l)) listId); [contradiction | exact IH].
  - destruct (selectedListId state) as [sel|]; [|discriminate].
    destruct (String.eqb_spec sel listId); congruence.
  - intros other Hother.
    induction (lists state) as [|l ls IH]; simpl; [reflexivity|].
    destruct (String.eqb_spec (list_id (lws_list l)) listId) as [He|Hne]; simpl.
    + destruct (String.eqb_spec (list_id (lws_list l)) other); [congruence | exact IH].
    + destruct (String.eqb_spec (list_id (lws_list l)) other); [reflexivity | exact IH].
  - destruct (selectedListId state) as [sel|]; [|reflexivity].
    destruct (String.eqb_spec sel listId); congruence.
Qed.

(** X24: the client of user 1 deletes its list [a0]. *)
Lemma client_deleteList_witness :
  ListContext.getListById
    (snd (snd (ListContext.deleteList (Scenario.env 2000 "b") "1" "a0"
                 (fst Scenario.clientLoaded, snd Scenario.clientLoaded))))
    "a0" = None.
Proof.
  apply (client_deleteList (Scenario.env 2000 "b") "1" "a0"
           (fst Scenario.clientLoaded) (snd Scenario.clientLoaded)).
  reflexivity.
Defined.

(** X25. After a toggle that the service accepted, the client shows the task
    as the service returned it: text, flag and completion time of the task
    found under that id in the client state are those of the returned task
    (when the client state had the task). *)
Theorem client_shows_toggled_task (env : Env) (userId listId taskId : string) (w : World)
    (state : ListState) (task : Task) :
  data (fst (ListContext.toggleTask env userId listId taskId (w, state))) = Some task ->
  ListContext.getTaskById state listId taskId <> None ->
  let state' := snd (snd (ListContext.toggleTask env userId listId taskId (w, state))) in
  exists shown,
    ListContext.getTaskById state' listId taskId = Some shown /\
    task_id shown = task_id task /\ task_text shown = task_text task /\
    task_completed shown = task_completed task /\
    task_completedAt shown = task_completedAt task.
Proof.
  unfold ListContext.toggleTask.
  pose proof (ClientFacts.toggleTask_data env w userId listId taskId) as Hdata.
  destruct (ListService.toggleTask env w userId listId taskId) as [result w1].
  cbn [fst] in Hdata.
  destruct (data result) as [t|] eqn:Hd.
  - destruct (Hdata t eq_refl) as [Hs Hid]. rewrite Hs. cbn [fst snd].
    rewrite Hd. intros [= <-] Hshown.
    cbn [Reducer.listReducer Reducer.withLists]. unfold ListContext.getTaskById in *.
    unfold ListContext.getListById in *. unfold Reducer.withLists. cbn [lists].
    rewrite ClientFacts.find_onList by reflexivity.
    destruct (List.find _ (lists state)) as [l|]; [|contradiction]. cbn [option_map].
    cbn [Reducer.updateTaskIn Reducer.withTasksStats lws_list list_tasks].
    rewrite ClientFacts.find_merged by (cbn; congruence).
    destruct (List.find _ (list_tasks (lws_list l))) as [t0|]; [|contradiction].
    cbn [option_map]. eexists. split; [reflexivity|].
    repeat split.
  - destruct (success result); cbn [fst]; rewrite Hd; discriminate.
Qed.

(** X25: the client of user 1 toggles the completed task [a2] of [a0]. *)
Lemma client_shows_toggled_task_witness :
  exists shown,
    ListContext.getTaskById
      (snd (snd (ListContext.toggleTask (Scenario.env 2000 "b") "1" "a0" "a2"
                   (fst Scenario.clientLoaded, snd Scenario.clientLoaded))))
      "a0" "a2" = Some shown /\
    task_completed shown = false /\ task_completedAt shown = None.
Proof.
  destruct (client_shows_toggled_task (Scenario.env 2000 "b") "1" "a0" "a2"
              (fst Scenario.clientLoaded) (snd Scenario.clientLoaded)
              (mkTask "a2" "Chleb" false None None))
    as (shown & Hshown & _ & _ & Hflag & Hat).
  - reflexivity.
  - discriminate.
  - exists shown. auto.
Defined.

Module ClientListFacts.

Import ListService.

Lemma createList_view env w u payload view :
  data (fst (createList env w u payload)) = Some view -> statsRecomputed view.
Proof.
  unfold createList.
  destruct (negb _); [discriminate|].
  destruct (50 <=? _)%nat; [discriminate|].
  cbn [fst data succeeded]. intros [= <-]. apply Statistics.enrichList_recomputed.
Qed.

Lemma updateList_view env w u lid updates view :
  data (fst (updateList env w u lid updates)) = Some view ->
  success (fst (updateList env w u lid updates)) = true /\
  statsRecomputed view /\ list_id (lws_list view) = lid.
Proof.
  unfold updateList.
  destruct (findListById w u lid) as [found|] eqn:Hf; [|discriminate].
  destruct (negb _); [discriminate|].
  destruct (match ul_title updates with Some _ => _ | None => _ end); [discriminate|].
  cbn [fst data succeeded success]. intros [= <-].
  split; [reflexivity|]. split; [apply Statistics.enrichList_recomputed|].
  cbn [enrichList lws_list list_id].
  destruct (findListById_Some _ _ _ _ Hf) as (_ & _ & _ & Hid). exact Hid.
Qed.

Lemma mergeList_asListUpdates l view :
  Reducer.mergeList l (ListContext.asListUpdates view) = view.
Proof. destruct view as [[] ? ? ? ? ? ?]. reflexivity. Qed.

Lemma find_onList_with listId g ls :
  (forall l, list_id (lws_list l) = listId -> list_id (lws_list (g l)) = listId) ->
  List.find (fun l => String.eqb (list_id (lws_list l)) listId) (Reducer.onList listId g ls)
  = option_map g (List.find (fun l => String.eqb (list_id (lws_list l)) listId) ls).
Proof.
  intros Hg. unfold Reducer.onList. induction ls as [|l ls IH]; simpl; [reflexivity|].
  destruct (String.eqb_spec (list_id (lws_list l)) listId) as [He|Hne].
  - rewrite (Hg l He), String.eqb_refl. reflexivity.
  - destruct (String.eqb_spec (list_id (lws_list l)) listId); [contradiction|]. exact IH.
Qed.

End ClientListFacts.

(** X26. After an [updateList] that the service accepted, the client shows
    the list as the service returned it: the list found under that id in the
    client state is the returned view (when the client state had the
    list). *)
Theorem client_shows_updated_list (env : Env) (userId listId : string)
    (updates : UpdateListPayload) (w : World) (state : ListState) (view : ListWithStats) :
  data (fst (ListContext.updateList env userId listId updates (w, state))) = Some view ->
  ListContext.getListById state listId <> None ->
  ListContext.getListById
    (snd (snd (ListContext.updateList env userId listId updates (w, state)))) listId
  = Some view.
Proof.
  unfold ListContext.updateList.
  pose proof (ClientListFacts.updateList_view env w userId listId updates) as Hview.
  destruct (ListService.updateList env w userId listId updates) as [result w1].
  cbn [fst] in Hview.
  destruct (data result) as [v|] eqn:Hd.
  - destruct (Hview v eq_refl) as (Hs & _ & Hid). rewrite Hs. cbn [fst snd].
    rewrite Hd. intros [= <-] Hshown.
    cbn [Reducer.listReducer]. unfold Reducer.withLists, ListContext.getListById in *.
    cbn [lists].
    rewrite ClientListFacts.find_onList_with
      by (intros l _; rewrite ClientListFacts.mergeList_asListUpdates; exact Hid).
    destruct (List.find _ (lists state)) as [l|]; [|contradiction].
    cbn [option_map]. rewrite ClientListFacts.mergeList_asListUpdates. reflexivity.
  - destruct (success result); cbn [fst]; rewrite Hd; discriminate.
Qed.

(** X26: the client of user 1 renames its list [a0]. *)
Lemma client_shows_updated_list_witness :
  exists view,
    ListContext.getListById
      (snd (snd (ListContext.updateList (Scenario.env 2000 "b") "1" "a0"
                   {| ul_title := Some " Zakupy "; ul_sharedWith := None |}
                   (fst Scenario.clientLoaded, snd Scenario.clientLoaded))))
      "a0" = Some view /\
    list_title (lws_list view) = "Zakupy".
Proof.
  eexists. split.
  - apply (client_shows_updated_list (Scenario.env 2000 "b") "1" "a0"
             {| ul_title := Some " Zakupy "; ul_sharedWith := None |}
             (fst Scenario.clientLoaded) (snd Scenario.clientLoaded)).
    + reflexivity.
    + discriminate.
  - reflexivity.
Defined.

(** X27. Creating, updating and deleting a list through the list context
    keep the statistics of every list in the client state in agreement with
    the tasks it shows, whether the service accepts the call or not. *)
Theorem list_changes_keep_client_statistics (env : Env) (userId : string) (w : World)
    (state : ListState) :
  Forall statsRecomputed (lists state) ->
  (forall payload,
     Forall statsRecomputed
       (lists (snd (snd (ListContext.createList env userId payload (w, state)))))) /\
  (forall listId updates,
     Forall statsRecomputed
       (lists (snd (snd (ListContext.updateList env userId listId updates (w, state)))))) /\
  (forall listId,
     Forall statsRecomputed
       (lists (snd (snd (ListContext.deleteList env userId listId (w, state)))))).
Proof.
  intros Hstate. split; [|split].
  - intros payload. unfold ListContext.createList.
    pose proof (ClientListFacts.createList_view env w userId payload) as Hview.
    destruct (ListService.createList env w userId payload) as [result w1].
    cbn [fst] in Hview.
    destruct (success result); [|exact Hstate].
    destruct (data result) as [view|]; [|exact Hstate].
    cbn [snd Reducer.listReducer Reducer.withLists lists].
    constructor; [apply Hview; reflexivity | exact Hstate].
  - intros listId updates. unfold ListContext.updateList.
    pose proof (ClientListFacts.updateList_view env w userId listId updates) as Hview.
    destruct (ListService.updateList env w userId listId updates) as [result w1].
    cbn [fst] in Hview.
    destruct (success result); [|exact Hstate].
    destruct (data result) as [view|]; [|exact Hstate].
    cbn [snd Reducer.listReducer Reducer.withLists lists].
    apply ClientFacts.onList_Forall; [|exact Hstate].
    intros l _ _. rewrite ClientListFacts.mergeList_asListUpdates.
    apply (Hview view eq_refl).
  - intros listId. unfold ListContext.deleteList.
    destruct (ListService.deleteList w userId listId) as [result w1].
    destruct (success result); [|exact Hstate].
    cbn [snd Reducer.listReducer lists].
    apply List.Forall_forall. intros l Hl. apply filter_In in Hl as [Hl _].
    revert l Hl. apply List.Forall_forall. exact Hstate.
Qed.

(** X27: the client of user 1 after its first load creates a list. *)
Lemma list_changes_keep_client_statistics_witness :
  Forall statsRecomputed
    (lists (snd (snd (ListContext.createList (Scenario.env 2000 "b") "1"
                        {| cl_title := "Nowa"; cl_initialTasks := Some ["Mleko"] |}
                        (fst Scenario.clientLoaded, snd Scenario.clientLoaded))))).
Proof.
  apply (list_changes_keep_client_statistics (Scenario.env 2000 "b") "1"
           (fst Scenario.clientLoaded) (snd Scenario.clientLoaded)).
  exact SeededFacts.clientLoaded_recomputed.
Defined.

(** ** Validation, visibility of writes, sharing                          *)

Module EmailFacts.

Lemma append_cons c (a b : string) : (String c a ++ b)%string = String c (a ++ b)%string.
Proof. reflexivity. Qed.

Lemma allPlain_app a b : allPlain (a ++ b)%string = allPlain a && allPlain b.
Proof.
  induction a as [|c a IH]; [reflexivity|].
  rewrite append_cons. simpl. rewrite IH. apply andb_assoc.
Qed.

Lemma plainChar_dot : plainChar "." = true.
Proof. reflexivity. Qed.

Lemma domainMatches_shape s : forall seen,
  domainMatches seen s = true <->
  exists domain tld,
    s = (domain ++ "." ++ tld)%string /\
    allPlain domain = true /\ allPlain tld = true /\
    (seen = true \/ domain <> "") /\ tld <> "".
Proof.
  induction s as [|c s IH]; intros seen.
  - split; [discriminate|].
    intros (domain & tld & Hs & _). destruct domain; discriminate.
  - cbn [domainMatches]. split.
    + destruct (plainChar c) eqn:Hc; [|discriminate].
      destruct (Ascii.eqb c "." && seen && Js.truthy s && allPlain s) eqn:Hdot.
      * intros _. apply andb_prop in Hdot as [Hdot Hplain].
        apply andb_prop in Hdot as [Hdot Hrest]. apply andb_prop in Hdot as [Hdot Hseen].
        apply Ascii.eqb_eq in Hdot. subst c.
        exists ""%string, s.
        split; [reflexivity|]. split; [reflexivity|]. split; [exact Hplain|].
        split; [left; exact Hseen|]. intros ->. discriminate.
      * intros H. apply IH in H as (domain & tld & -> & Hd & Ht & _ & Hne).
        exists (String c domain), tld.
        split; [reflexivity|]. split; [simpl; rewrite Hc; exact Hd|].
        split; [exact Ht|]. split; [right; discriminate | exact Hne].
    + intros (domain & tld & Hs & Hd & Ht & Hseen & Hne).
      destruct domain as [|c' domain].
      * change ("" ++ "." ++ tld)%string with (String "." tld) in Hs.
        injection Hs as -> ->. rewrite plainChar_dot.
        destruct Hseen as [->|Hn]; [|congruence].
        rewrite Ht. destruct tld; [congruence|]. reflexivity.
      * rewrite append_cons in Hs. injection Hs as -> ->.
        simpl in Hd. apply andb_prop in Hd as [Hc Hd]. rewrite Hc.
        destruct (_ && allPlain _); [reflexivity|].
        apply IH. exists domain, tld. repeat split; auto.
Qed.

Lemma plainChar_at : plainChar "@" = false.
Proof. reflexivity. Qed.

Lemma emailRegex_shape s : forall seen,
  emailRegex seen s = true <->
  exists loc rest,
    s = (loc ++ "@" ++ rest)%string /\
    allPlain loc = true /\ (seen = true \/ loc <> "") /\
    domainMatches false rest = true.
Proof.
  induction s as [|c s IH]; intros seen.
  - split; [discriminate|].
    intros (loc & rest & Hs & _). destruct loc; discriminate.
  - cbn [emailRegex]. split.
    + destruct (Ascii.eqb_spec c "@") as [->|Hne].
      * intros H. apply andb_prop in H as [Hseen Hd].
        exists ""%string, s.
        split; [reflexivity|]. split; [reflexivity|]. split; [left; exact Hseen | exact Hd].
      * destruct (Js.isWhitespace c) eqn:Hw; [discriminate|].
        intros H. apply IH in H as (loc & rest & -> & Hl & _ & Hd).
        exists (String c loc), rest.
        split; [reflexivity|]. split; [|split; [right; discriminate | exact Hd]].
        simpl. unfold plainChar. rewrite Hw.
        destruct (Ascii.eqb_spec c "@"); [contradiction|]. exact Hl.
    + intros (loc & rest & Hs & Hl & Hseen & Hd).
      destruct loc as [|c' loc].
      * change ("" ++ "@" ++ rest)%string with (String "@" rest) in Hs.
        injection Hs as -> ->. rewrite Ascii.eqb_refl.
        destruct Hseen as [->|Hn]; [exact Hd | congruence].
      * rewrite append_cons in Hs. injection Hs as -> ->.
        simpl in Hl. apply andb_prop in Hl as [Hc Hl].
        unfold plainChar in Hc. apply andb_prop in Hc as [Hw Hat].
        destruct (Ascii.eqb c' "@"); [discriminate|].
        destruct (Js.isWhitespace c'); [discriminate|].
        apply IH. exists loc, rest. repeat split; auto.
Qed.

End EmailFacts.

(** X28. The email pattern of [isValidEmail] accepts exactly the texts
    [local@domain.tld] with a non-empty [local], [domain] and [tld] that hold
    neither white space nor [@], of at most [MAX_EMAIL_LENGTH] (100)
    characters in all. *)
Theorem isValidEmail_shape (email : string) :
  isValidEmail email = true <->
  (exists loc domain tld,
     email = (loc ++ "@" ++ domain ++ "." ++ tld)%string /\
     loc <> "" /\ domain <> "" /\ tld <> "" /\
     allPlain loc = true /\ allPlain domain = true /\ allPlain tld = true) /\
  Js.strlen email <= VALIDATION_RULES.MAX_EMAIL_LENGTH.
Proof.
  unfold isValidEmail. rewrite andb_true_iff, Z.leb_le.
  rewrite EmailFacts.emailRegex_shape.
  split.
  - intros [(loc & rest & -> & Hl & Hseen & Hd) Hlen]. split; [|exact Hlen].
    apply EmailFacts.domainMatches_shape in Hd as (domain & tld & -> & Hdp & Htp & Hdn & Htn).
    exists loc, domain, tld.
    destruct Hseen as [|Hseen]; [discriminate|].
    destruct Hdn as [|Hdn]; [discriminate|].
    repeat split; auto.
  - intros [(loc & domain & tld & -> & Hln & Hdn & Htn & Hl & Hd & Ht) Hlen].
    split; [|exact Hlen].
    exists loc, (domain ++ "." ++ tld)%string. repeat split; auto.
    apply EmailFacts.domainMatches_shape. exists domain, tld. repeat split; auto.
Qed.

(** X29. What a user creates is what the user sees next: after a
    [createList] that returned a list, the next [loadUserLists] of the same
    user without a filter is not answered from the cache and returns that
    list first. *)
Theorem created_list_is_loaded (stringify : ListFilter -> string) (env env' : Env)
    (w : World) (userId : string) (payload : CreateListPayload) (view : ListWithStats) :
  data (fst (createList env w userId payload)) = Some view ->
  exists rest,
    fst (loadUserLists stringify env' (snd (createList env w userId payload)) userId
           (mkFilter None None None None None None))
    = succeeded (Some (view :: rest)) "Lists loaded successfully".
Proof.
  unfold createList.
  destruct (negb _); [discriminate|].
  destruct (50 <=? _)%nat; [discriminate|].
  cbn [fst snd data succeeded]. intros [= <-].
  match goal with
  | |- context [saveUserLists w userId (?n :: ?c)] => set (newList := n); set (current := c)
  end.
  unfold loadUserLists.
  rewrite CacheFacts.saveUserLists_clears_own.
  replace (storage (saveUserLists w userId (newList :: current)) !! getUserListsKey userId)
    with (Some (newList :: current))
    by (unfold saveUserLists; cbn [storage setCache setStorage];
        rewrite lookup_insert_eq; reflexivity).
  cbn [fst]. unfold filterLists.
  cbn [searchTerm showOwned showShared showCompleted sortBy].
  rewrite <- List.app_comm_cons, List.map_cons.
  eexists. reflexivity.
Qed.

(** X29: user 1 creates a list at the seeded store and loads again. *)
Lemma created_list_is_loaded_witness :
  exists view rest,
    data (fst (createList (Scenario.env 2000 "b") Scenario.seeded "1"
                 {| cl_title := "Nowa"; cl_initialTasks := None |})) = Some view /\
    fst (loadUserLists Scenario.stringify (Scenario.env 3000 "c")
           (snd (createList (Scenario.env 2000 "b") Scenario.seeded "1"
                   {| cl_title := "Nowa"; cl_initialTasks := None |}))
           "1" (mkFilter None None None None None None))
    = succeeded (Some (view :: rest)) "Lists loaded successfully".
Proof.
  eexists.
  destruct (created_list_is_loaded Scenario.stringify (Scenario.env 2000 "b")
              (Scenario.env 3000 "c") Scenario.seeded "1"
              {| cl_title := "Nowa"; cl_initialTasks := None |} _ eq_refl)
    as (rest & Hrest).
  exists rest. split; [reflexivity | exact Hrest].
Defined.

(** X30. [shareList] keeps the collaborators of every stored list free of
    repetitions and at most ten, when they were so before. *)
Theorem shareList_keeps_collaborators_sound (env : Env) (w : World) (userId : string)
    (payload : ShareListPayload) :
  (forall o l, In l (storedLists w o) ->
     List.NoDup (list_sharedWith l) /\
     Z.of_nat (length (list_sharedWith l)) <= VALIDATION_RULES.MAX_SHARED_USERS) ->
  forall o l, In l (storedLists (snd (shareList env w userId payload)) o) ->
    List.NoDup (list_sharedWith l) /\
    Z.of_nat (length (list_sharedWith l)) <= VALIDATION_RULES.MAX_SHARED_USERS.
Proof.
  intros Hw o l'.
  destruct (success (fst (shareList env w userId payload))) eqn:H1.
  - destruct (Sharing.shareList_success _ _ _ _ H1)
      as (target & index & l & _ & _ & _ & _ & Hl & _ & Hnew & Hlt & Hw1).
    rewrite Hw1. unfold storedLists at 1. cbn [storage setCache].
    fold (storedLists (saveUserLists w userId
            (<[index := sharedWithOneMore env l (sl_userEmail payload)]>
               (storedLists w userId))) o).
    rewrite storedLists_saveUserLists.
    destruct (String.eqb o userId); [|apply Hw].
    intros Hin. apply In_insert in Hin as [->|Hin]; [|eapply Hw; exact Hin].
    cbn [list_sharedWith sharedWithOneMore].
    destruct (Hw userId l (nth_error_In _ _ Hl)) as [Hnd _].
    split.
    + apply List.NoDup_app; [exact Hnd | repeat constructor; auto |].
      intros x Hx [Hxe|[]]. unfold Js.arrIncludes in Hnew.
      assert (Hex : existsb (String.eqb (sl_userEmail payload)) (list_sharedWith l) = true)
        by (apply existsb_exists; exists x; split; [exact Hx|];
            rewrite Hxe; apply String.eqb_refl).
      congruence.
    + rewrite length_app. simpl. lia.
  - rewrite (Sharing.shareList_failure_keeps _ _ _ _ H1). apply Hw.
Qed.

(** X30: user 1 shares [a5] with test@example.com at the seeded store. *)
Lemma shareList_keeps_collaborators_sound_witness :
  success (fst (shareList (Scenario.env 2000 "b") Scenario.seeded "1"
                  {| sl_listId := "a5"; sl_userEmail := "test@example.com" |})) = true /\
  forall o l,
    In l (storedLists
            (snd (shareList (Scenario.env 2000 "b") Scenario.seeded "1"
                    {| sl_listId := "a5"; sl_userEmail := "test@example.com" |})) o) ->
    List.NoDup (list_sharedWith l) /\
    Z.of_nat (length (list_sharedWith l)) <= VALIDATION_RULES.MAX_SHARED_USERS.
Proof.
  split; [reflexivity|].
  apply (shareList_keeps_collaborators_sound (Scenario.env 2000 "b") Scenario.seeded "1"
           {| sl_listId := "a5"; sl_userEmail := "test@example.com" |}).
  intros o l Hl. apply SeededFacts.stored_In in Hl as [_ Hl].
  destruct Hl as [<-|[<-|[]]]; (split; [|cbn; discriminate]).
  - constructor.
  - constructor; [intros [] | constructor].
Defined.
